(** * memegen: the meme generator service (src/index.ts)

    A shallow embedding of [MemeGeneratorServer] and of the six Express
    routes of [src/index.ts], with the part of the JavaScript runtime the
    program relies on: strings as sequences of UTF-16 code units, JSON
    values, the abstract operations ToBoolean, ToNumber and ToString,
    [String.prototype.trim], global [replace], [JSON.parse], the
    conversion of the values of a [URLSearchParams] to USVStrings, and the
    serialisation of a caption by [JSON.stringify].

    Outbound HTTP calls are answered by a [World], and every computation
    records the requests it sends, so that "the renderer is never invoked"
    is a statement about that record.

    Numbers.  The program never computes with numbers, it only reads and
    prints them.  A finite number is therefore kept as the decimal it
    denotes: a sign, its significant digits and a decimal exponent, which
    is the triple (s, k, n) that Number::toString works on.  Rounding of a
    literal to binary64 is not modelled: a literal beyond the precision or
    the range of binary64 keeps its exact value.

    The handlers are given the request as Express and [express.json()]
    hand it over, [req.query] and [req.body] as JSON values; routing and
    the listening socket are not modelled. *)

From stdpp Require Import base gmap list.
From Stdlib Require Import NArith ZArith Lia Bool List String Ascii.
Import ListNotations.

#[local] Set Warnings "-register-all".
Local Open Scope N_scope.
Local Open Scope list_scope.

(** ** Strings *)

Module JsString.

(** A JavaScript string is a sequence of 16-bit code units. *)
Definition code_unit := N.
Definition jsstring := list code_unit.

(** [lit s] is the string literal [s] of the source (ASCII only). *)
Definition lit (s : string) : jsstring :=
  List.map N_of_ascii (list_ascii_of_string s).

Definition dquote : code_unit := 34.
Definition backslash : code_unit := 92.
Definition backtick : code_unit := 96.

Fixpoint eqb (a b : jsstring) : bool :=
  match a, b with
  | [], [] => true
  | x :: a', y :: b' => (x =? y) && eqb a' b'
  | _, _ => false
  end.

(** [is_prefix p s]: [s] starts with [p]. *)
Fixpoint is_prefix (p s : jsstring) : bool :=
  match p, s with
  | [], _ => true
  | x :: p', y :: s' => (x =? y) && is_prefix p' s'
  | _ :: _, [] => false
  end.

(** [contains p s]: [p] occurs in [s]. *)
Fixpoint contains (p s : jsstring) : bool :=
  is_prefix p s ||
  match s with
  | [] => false
  | _ :: s' => contains p s'
  end.

(** [s.replace(/p/g, "")] for a literal, non-empty pattern [p]: the
    matches are found left to right and do not overlap.  [skip] counts the
    code units of the current match that are still to be dropped. *)
Fixpoint remove_all_from (p : jsstring) (skip : nat) (s : jsstring) : jsstring :=
  match s with
  | [] => []
  | c :: s' =>
      match skip with
      | S k => remove_all_from p k s'
      | O =>
          if is_prefix p s
          then remove_all_from p (Nat.pred (List.length p)) s'
          else c :: remove_all_from p O s'
      end
  end.

Definition remove_all (p s : jsstring) : jsstring := remove_all_from p O s.

(** WhiteSpace and LineTerminator of ECMAScript, which [trim] strips and
    StringToNumber skips. *)
Definition is_whitespace (c : code_unit) : bool :=
  (c =? 9) || (c =? 10) || (c =? 11) || (c =? 12) || (c =? 13) || (c =? 32)
  || (c =? 160) || (c =? 5760) || ((8192 <=? c) && (c <=? 8202))
  || (c =? 8232) || (c =? 8233) || (c =? 8239) || (c =? 8287)
  || (c =? 12288) || (c =? 65279).

Fixpoint trim_start (s : jsstring) : jsstring :=
  match s with
  | [] => []
  | c :: s' => if is_whitespace c then trim_start s' else s
  end.

Fixpoint trim_end (s : jsstring) : jsstring :=
  match s with
  | [] => []
  | c :: s' =>
      match trim_end s' with
      | [] => if is_whitespace c then [] else [c]
      | t => c :: t
      end
  end.

Definition trim (s : jsstring) : jsstring := trim_end (trim_start s).

(** [l.join(sep)] on strings. *)
Fixpoint join (sep : jsstring) (l : list jsstring) : jsstring :=
  match l with
  | [] => []
  | [x] => x
  | x :: r => x ++ sep ++ join sep r
  end.

(** The two halves of a surrogate pair. *)
Definition is_lead_surrogate (c : code_unit) : bool := (55296 <=? c) && (c <=? 56319).
Definition is_trail_surrogate (c : code_unit) : bool := (56320 <=? c) && (c <=? 57343).

Definition replacement_character : code_unit := 65533.

(** The conversion of a string to a USVString, which [URLSearchParams]
    applies to every name and value it is given: a lead surrogate followed
    by a trail surrogate is kept as the pair, any other surrogate becomes
    U+FFFD. *)
Fixpoint USVString (s : jsstring) : jsstring :=
  match s with
  | [] => []
  | c :: s' =>
      if is_lead_surrogate c then
        match s' with
        | d :: s'' =>
            if is_trail_surrogate d then c :: d :: USVString s''
            else replacement_character :: USVString s'
        | [] => [replacement_character]
        end
      else if is_trail_surrogate c then replacement_character :: USVString s'
      else c :: USVString s'
  end.

(** [s.isWellFormed()]: every surrogate of [s] is half of a pair. *)
Fixpoint isWellFormed (s : jsstring) : bool :=
  match s with
  | [] => true
  | c :: s' =>
      if is_lead_surrogate c then
        match s' with
        | d :: s'' => is_trail_surrogate d && isWellFormed s''
        | [] => false
        end
      else negb (is_trail_surrogate c) && isWellFormed s'
  end.

End JsString.
Export JsString.

(** ** Numbers *)

Module JsNumber.

(** [Finite neg ds e] is [(-1)^neg * ds * 10^e], where [ds] are decimal
    digits, most significant first.  In canonical form [ds] has neither a
    leading nor a trailing zero, and zero is [Finite neg [] 0]. *)
Inductive number :=
| NaN
| Infinity (negative : bool)
| Finite (negative : bool) (digits : list N) (exponent : Z).

Fixpoint strip_leading_zeros (ds : list N) : list N :=
  match ds with
  | [] => []
  | d :: r => if d =? 0 then strip_leading_zeros r else ds
  end.

Fixpoint strip_trailing_zeros (ds : list N) : list N :=
  match ds with
  | [] => []
  | d :: r =>
      match strip_trailing_zeros r with
      | [] => if d =? 0 then [] else [d]
      | t => d :: t
      end
  end.

(** The number with digits [ds] (any zeros allowed) and exponent [e]. *)
Definition mk_number (neg : bool) (ds : list N) (e : Z) : number :=
  match strip_leading_zeros ds with
  | [] => Finite neg [] 0
  | ds1 =>
      let ds2 := strip_trailing_zeros ds1 in
      Finite neg ds2 (e + Z.of_nat (List.length ds1 - List.length ds2))
  end.

Definition all_digits (ds : list N) : bool := forallb (fun d => d <? 10) ds.

(** Canonical representations. *)
Definition canonical (x : number) : bool :=
  match x with
  | Finite _ [] e => (e =? 0)%Z
  | Finite _ (d :: r) _ =>
      all_digits (d :: r) && negb (d =? 0) && negb (List.last (d :: r) 1 =? 0)
  | _ => true
  end.

Definition is_finite (x : number) : bool :=
  match x with Finite _ _ _ => true | _ => false end.

(** A finite number is an integer when no digit is right of the point. *)
Definition is_integer (x : number) : bool :=
  match x with
  | Finite _ [] _ => true
  | Finite _ _ e => (0 <=? e)%Z
  | _ => false
  end.

Definition finite_integer (x : number) : bool := is_finite x && is_integer x.

Definition is_zero (x : number) : bool :=
  match x with Finite _ [] _ => true | _ => false end.

Definition is_negative_zero (x : number) : bool :=
  match x with Finite true [] _ => true | _ => false end.

(** Decimal digits of a natural number, most significant first. *)
Fixpoint N_digits_from (fuel : nat) (n : N) (acc : list N) : list N :=
  match fuel with
  | O => acc
  | S f =>
      let acc' := (n mod 10) :: acc in
      if n / 10 =? 0 then acc' else N_digits_from f (n / 10) acc'
  end.

Definition N_digits (n : N) : list N :=
  N_digits_from (S (N.to_nat (N.log2 n))) n [].

Definition horner (acc : N) (ds : list N) : N :=
  fold_left (fun a d => 10 * a + d) ds acc.

Definition number_of_N (n : N) : number := mk_number false (N_digits n) 0.
Definition number_of_nat (n : nat) : number := number_of_N (N.of_nat n).

Definition digit_char (d : N) : code_unit := 48 + d.
Definition is_digit_char (c : code_unit) : bool := (48 <=? c) && (c <=? 57).
Definition digit_of_char (c : code_unit) : N := c - 48.

Definition N_to_string (n : N) : jsstring := List.map digit_char (N_digits n).

(** Number::toString(x, 10).  With [k] the number of digits and
    [n = k + e], the value is [0.ds * 10^n]. *)
Definition Number_toString (x : number) : jsstring :=
  match x with
  | NaN => lit "NaN"
  | Infinity neg => (if neg then lit "-" else []) ++ lit "Infinity"
  | Finite _ [] _ => lit "0"
  | Finite neg (d :: r) e =>
      let k := Z.of_nat (List.length (d :: r)) in
      let n := (k + e)%Z in
      let s := List.map digit_char (d :: r) in
      (if neg then lit "-" else []) ++
      if ((-5 <=? n) && (n <=? 21))%Z then
        if (k <=? n)%Z then s ++ repeat 48 (Z.to_nat (n - k))
        else if (0 <? n)%Z then
          firstn (Z.to_nat n) s ++ lit "." ++ skipn (Z.to_nat n) s
        else lit "0." ++ repeat 48 (Z.to_nat (- n)) ++ s
      else
        let x := (n - 1)%Z in
        let sign := if (x <? 0)%Z then lit "-" else lit "+" in
        let tail := lit "e" ++ sign ++ N_to_string (Z.to_N (Z.abs x)) in
        match r with
        | [] => digit_char d :: tail
        | _ => digit_char d :: lit "." ++ List.map digit_char r ++ tail
        end
  end.

(** The longest prefix of decimal digits, as digit values, and the rest. *)
Fixpoint span_digits (s : jsstring) : list N * jsstring :=
  match s with
  | [] => ([], [])
  | c :: s' =>
      if is_digit_char c
      then let (ds, rest) := span_digits s' in (digit_of_char c :: ds, rest)
      else ([], s)
  end.

(** ExponentPart, optional: [e] or [E], an optional sign, digits.  [None]
    when an [e] is not followed by digits (a malformed literal); exponent 0
    and nothing consumed when there is no [e]. *)
Definition parse_exponent (s : jsstring) : option (Z * jsstring) :=
  match s with
  | c :: s1 =>
      if (c =? 101) || (c =? 69) then
        let '(neg, s2) :=
          match s1 with
          | g :: s2 =>
              if g =? 45 then (true, s2)
              else if g =? 43 then (false, s2) else (false, s1)
          | [] => (false, s1)
          end in
        match span_digits s2 with
        | ([], _) => None
        | (ds, rest) =>
            let v := Z.of_N (horner 0 ds) in
            Some (if neg then (- v)%Z else v, rest)
        end
      else Some (0%Z, s)
  | [] => Some (0%Z, s)
  end.

Definition parse_sign (s : jsstring) : bool * jsstring :=
  match s with
  | c :: r => if c =? 45 then (true, r) else (false, s)
  | [] => (false, s)
  end.

(** The int of a JSON number: a single [0], or digits. *)
Definition parse_int_part (s : jsstring) : list N * jsstring :=
  match s with
  | c :: r => if c =? 48 then ([0], r) else span_digits s
  | [] => ([], s)
  end.

(** The optional frac: a point and at least one digit. *)
Definition parse_frac_part (s : jsstring) : option (list N * jsstring) :=
  match s with
  | c :: r =>
      if c =? 46 then
        match span_digits r with
        | ([], _) => None
        | (fs, rest) => Some (fs, rest)
        end
      else Some ([], s)
  | [] => Some ([], s)
  end.

Definition parse_unsigned (neg : bool) (s : jsstring) : option (number * jsstring) :=
  match parse_int_part s with
  | ([], _) => None
  | (int, s2) =>
      match parse_frac_part s2 with
      | None => None
      | Some (frac, s3) =>
          match parse_exponent s3 with
          | None => None
          | Some (x, s4) =>
              Some (mk_number neg (int ++ frac)
                      (x - Z.of_nat (List.length frac)), s4)
          end
      end
  end.

(** A JSON number: [-]? int frac? exp?. *)
Definition parse_json_number (s : jsstring) : option (number * jsstring) :=
  let (neg, s1) := parse_sign s in parse_unsigned neg s1.

(** Digits of a NonDecimalIntegerLiteral in the given radix. *)
Definition radix_digit (radix : N) (c : code_unit) : option N :=
  let v :=
    if (48 <=? c) && (c <=? 57) then Some (c - 48)
    else if (97 <=? c) && (c <=? 102) then Some (c - 87)
    else if (65 <=? c) && (c <=? 70) then Some (c - 55)
    else None in
  match v with
  | Some d => if d <? radix then Some d else None
  | None => None
  end.

Fixpoint parse_radix (radix : N) (acc : N) (s : jsstring) : option N :=
  match s with
  | [] => Some acc
  | c :: s' =>
      match radix_digit radix c with
      | Some d => parse_radix radix (radix * acc + d) s'
      | None => None
      end
  end.

Definition non_decimal_radix (c : code_unit) : option N :=
  if (c =? 120) || (c =? 88) then Some 16
  else if (c =? 111) || (c =? 79) then Some 8
  else if (c =? 98) || (c =? 66) then Some 2
  else None.

(** StrDecimalLiteral: a sign, then [Infinity] or digits with an optional
    point and exponent; at least one digit next to the point. *)
Definition parse_str_decimal (s : jsstring) : number :=
  let '(neg, s1) :=
    match s with
    | c :: r =>
        if c =? 45 then (true, r) else if c =? 43 then (false, r) else (false, s)
    | [] => (false, s)
    end in
  if JsString.eqb s1 (lit "Infinity") then Infinity neg
  else
    let (int, s2) := span_digits s1 in
    let '(frac, s3) :=
      match s2 with
      | c :: r => if c =? 46 then span_digits r else ([], s2)
      | [] => ([], s2)
      end in
    match int ++ frac with
    | [] => NaN
    | ds =>
        match parse_exponent s3 with
        | Some (x, []) => mk_number neg ds (x - Z.of_nat (List.length frac))
        | _ => NaN
        end
    end.

(** StringToNumber: the value of a StringNumericLiteral, or NaN. *)
Definition StringToNumber (str : jsstring) : number :=
  match trim str with
  | [] => Finite false [] 0
  | c :: r =>
      let non_decimal :=
        if c =? 48 then
          match r with
          | p :: (_ :: _) as body =>
              match non_decimal_radix p with
              | Some radix => Some (parse_radix radix 0 body)
              | None => None
              end
          | _ => None
          end
        else None in
      match non_decimal with
      | Some (Some n) => number_of_N n
      | Some None => NaN
      | None => parse_str_decimal (c :: r)
      end
  end.

(** [rest] does not go on with a digit. *)
Definition stops (rest : jsstring) : Prop :=
  match rest with
  | [] => True
  | c :: _ => is_digit_char c = false
  end.

End JsNumber.
Export JsNumber.

(** ** Values, completions and the abstract operations *)

Module Js.

(** The values [JSON.parse] produces, and [undefined].  An object keeps
    its members in source order; a later member shadows an earlier one of
    the same name. *)
Inductive value :=
| VUndefined
| VNull
| VBool (b : bool)
| VNumber (x : number)
| VString (s : jsstring)
| VArray (elems : list value)
| VObject (members : list (jsstring * value)).

(** What a [throw] carries.  [Error m] is [new Error(m)] of the program;
    the other two are raised by the runtime, with a message of the
    engine's. *)
Inductive exn :=
| Error (message : jsstring)
| TypeError
| SyntaxError.

Inductive completion (A : Type) :=
| Return (a : A)
| Throw (e : exn).
Arguments Return {A} a.
Arguments Throw {A} e.

Definition cbind {A B} (c : completion A) (k : A -> completion B) : completion B :=
  match c with
  | Return a => k a
  | Throw e => Throw e
  end.

(** [try { c } catch { h }] *)
Definition try_catch {A} (c : completion A) (h : completion A) : completion A :=
  match c with
  | Return a => Return a
  | Throw _ => h
  end.

Definition ToBoolean (v : value) : bool :=
  match v with
  | VUndefined | VNull => false
  | VBool b => b
  | VNumber NaN => false
  | VNumber x => negb (is_zero x)
  | VString [] => false
  | VString _ => true
  | VArray _ | VObject _ => true
  end.

(** The last member named [k]. *)
Fixpoint lookup_member (k : jsstring) (ms : list (jsstring * value)) : option value :=
  match ms with
  | [] => None
  | (k', v) :: r =>
      match lookup_member k r with
      | Some w => Some w
      | None => if JsString.eqb k k' then Some v else None
      end
  end.

(** ToString.  An array prints as [join(",")], with [null] and
    [undefined] elements printed as the empty string.  A plain object
    prints as [[object Object]] through the inherited [toString]; when it
    has a member of its own named [toString], which JSON cannot make
    callable, no method yields a primitive and a TypeError is thrown. *)
Fixpoint ToString (v : value) : completion jsstring :=
  match v with
  | VUndefined => Return (lit "undefined")
  | VNull => Return (lit "null")
  | VBool b => Return (if b then lit "true" else lit "false")
  | VNumber x => Return (Number_toString x)
  | VString s => Return s
  | VArray l =>
      (fix join_elems (l : list value) : completion jsstring :=
         match l with
         | [] => Return []
         | x :: r =>
             cbind (match x with
                    | VUndefined | VNull => Return []
                    | _ => ToString x
                    end)
               (fun sx =>
                  match r with
                  | [] => Return sx
                  | _ => cbind (join_elems r) (fun sr => Return (sx ++ 44 :: sr))
                  end)
         end) l
  | VObject ms =>
      match lookup_member (lit "toString") ms with
      | Some _ => Throw TypeError
      | None => Return (lit "[object Object]")
      end
  end.

(** ToNumber.  An array or object is first turned into a primitive,
    which is its ToString. *)
Definition ToNumber (v : value) : completion number :=
  match v with
  | VUndefined => Return NaN
  | VNull => Return (Finite false [] 0)
  | VBool b => Return (if b then Finite false [1] 0 else Finite false [] 0)
  | VNumber x => Return x
  | VString s => Return (StringToNumber s)
  | VArray _ | VObject _ => cbind (ToString v) (fun s => Return (StringToNumber s))
  end.

Definition is_nullish (v : value) : bool :=
  match v with
  | VUndefined | VNull => true
  | _ => false
  end.

(** [a || b] *)
Definition or_else (a b : value) : value := if ToBoolean a then a else b.

(** A canonical numeric string is an array index. *)
Definition array_index (k : jsstring) : option nat :=
  match k with
  | [] => None
  | c :: r =>
      if forallb is_digit_char k
         && implb (c =? 48) (match r with [] => true | _ => false end)
      then Some (N.to_nat (horner 0 (List.map digit_of_char k)))
      else None
  end.

(** [v[k]] for a [v] other than [null] and [undefined], for the names
    the program reads.  None of them is inherited from
    [Object.prototype], [Array.prototype] or [String.prototype] where the
    program can reach it, so a name that is not an own property reads
    as [undefined].  (An inherited method, which [news[articleIndex]]
    can name, is a function without a [title]; the program reads
    nothing else of it.) *)
Definition get_own (v : value) (k : jsstring) : value :=
  match v with
  | VUndefined | VNull | VBool _ | VNumber _ => VUndefined
  | VString s =>
      match array_index k with
      | Some i => match nth_error s i with Some c => VString [c] | None => VUndefined end
      | None =>
          if JsString.eqb k (lit "length")
          then VNumber (number_of_nat (List.length s))
          else VUndefined
      end
  | VArray l =>
      match array_index k with
      | Some i => match nth_error l i with Some x => x | None => VUndefined end
      | None =>
          if JsString.eqb k (lit "length")
          then VNumber (number_of_nat (List.length l))
          else VUndefined
      end
  | VObject ms =>
      match lookup_member k ms with Some x => x | None => VUndefined end
  end.

(** [v.k]: reading from [null] or [undefined] throws. *)
Definition get (v : value) (k : jsstring) : completion value :=
  match v with
  | VUndefined | VNull => Throw TypeError
  | _ => Return (get_own v k)
  end.

(** [v?.k] *)
Definition get_opt (v : value) (k : jsstring) : value :=
  match v with
  | VUndefined | VNull => VUndefined
  | _ => get_own v k
  end.

Declare Scope completion_scope.
Delimit Scope completion_scope with C.
Notation "x <- c ;; k" := (cbind c (fun x => k))
  (at level 100, c at next level, right associativity) : completion_scope.

End Js.
Export Js.
(** ** JSON.parse *)

Module Json.

Definition is_json_ws (c : code_unit) : bool :=
  (c =? 32) || (c =? 9) || (c =? 10) || (c =? 13).

Fixpoint skip_ws (s : jsstring) : jsstring :=
  match s with
  | [] => []
  | c :: s' => if is_json_ws c then skip_ws s' else s
  end.

(** The code unit a single-character escape stands for. *)
Definition simple_escape (e : code_unit) : option code_unit :=
  if e =? 34 then Some 34
  else if e =? 92 then Some 92
  else if e =? 47 then Some 47
  else if e =? 98 then Some 8
  else if e =? 102 then Some 12
  else if e =? 110 then Some 10
  else if e =? 114 then Some 13
  else if e =? 116 then Some 9
  else None.

Definition hex4 (h1 h2 h3 h4 : code_unit) : option code_unit :=
  match radix_digit 16 h1, radix_digit 16 h2, radix_digit 16 h3, radix_digit 16 h4 with
  | Some a, Some b, Some c, Some d => Some (((a * 16 + b) * 16 + c) * 16 + d)
  | _, _, _, _ => None
  end.

(** The characters of a JSON string after its opening quote, up to and
    including the closing quote: the string denoted, and what follows. *)
Fixpoint parse_string_body (s : jsstring) : option (jsstring * jsstring) :=
  match s with
  | [] => None
  | c :: r =>
      if c =? 34 then Some ([], r)
      else if c =? 92 then
        match r with
        | [] => None
        | e :: r1 =>
            if e =? 117 then
              match r1 with
              | h1 :: h2 :: h3 :: h4 :: r2 =>
                  match hex4 h1 h2 h3 h4 with
                  | Some u =>
                      match parse_string_body r2 with
                      | Some (str, rest) => Some (u :: str, rest)
                      | None => None
                      end
                  | None => None
                  end
              | _ => None
              end
            else
              match simple_escape e with
              | Some u =>
                  match parse_string_body r1 with
                  | Some (str, rest) => Some (u :: str, rest)
                  | None => None
                  end
              | None => None
              end
        end
      else if c <? 32 then None
      else
        match parse_string_body r with
        | Some (str, rest) => Some (c :: str, rest)
        | None => None
        end
  end.

(** What [parse_string_body] returns when its first character stands
    for [c] and [t] is what follows. *)
Definition read_after (c : code_unit) (t : jsstring) : option (jsstring * jsstring) :=
  match parse_string_body t with
  | Some (str, rest) => Some (c :: str, rest)
  | None => None
  end.

Inductive parse_result (A : Type) :=
| Parsed (a : A) (rest : jsstring)
| Malformed
| OutOfFuel.
Arguments Parsed {A} a rest.
Arguments Malformed {A}.
Arguments OutOfFuel {A}.

(** A recursive-descent parser for the JSON grammar.  Every recursive
    call spends one unit of fuel. *)
Fixpoint parse_value (fuel : nat) (s : jsstring) {struct fuel} : parse_result value :=
  match fuel with
  | O => OutOfFuel
  | S f =>
      match skip_ws s with
      | [] => Malformed
      | c :: r =>
          if c =? 123 then
            match skip_ws r with
            | [] => Malformed
            | c' :: r' =>
                if c' =? 125 then Parsed (VObject []) r'
                else
                  match parse_members f (c' :: r') with
                  | Parsed ms rest => Parsed (VObject ms) rest
                  | Malformed => Malformed
                  | OutOfFuel => OutOfFuel
                  end
            end
          else if c =? 91 then
            match skip_ws r with
            | [] => Malformed
            | c' :: r' =>
                if c' =? 93 then Parsed (VArray []) r'
                else
                  match parse_elements f (c' :: r') with
                  | Parsed vs rest => Parsed (VArray vs) rest
                  | Malformed => Malformed
                  | OutOfFuel => OutOfFuel
                  end
            end
          else if c =? 34 then
            match parse_string_body r with
            | Some (str, rest) => Parsed (VString str) rest
            | None => Malformed
            end
          else if is_prefix (lit "true") (c :: r) then Parsed (VBool true) (skipn 4 (c :: r))
          else if is_prefix (lit "false") (c :: r) then Parsed (VBool false) (skipn 5 (c :: r))
          else if is_prefix (lit "null") (c :: r) then Parsed VNull (skipn 4 (c :: r))
          else
            match parse_json_number (c :: r) with
            | Some (x, rest) => Parsed (VNumber x) rest
            | None => Malformed
            end
      end
  end

with parse_elements (fuel : nat) (s : jsstring) {struct fuel} : parse_result (list value) :=
  match fuel with
  | O => OutOfFuel
  | S f =>
      match parse_value f s with
      | Parsed v r =>
          match skip_ws r with
          | [] => Malformed
          | c :: r' =>
              if c =? 44 then
                match parse_elements f r' with
                | Parsed vs rest => Parsed (v :: vs) rest
                | Malformed => Malformed
                | OutOfFuel => OutOfFuel
                end
              else if c =? 93 then Parsed [v] r'
              else Malformed
          end
      | Malformed => Malformed
      | OutOfFuel => OutOfFuel
      end
  end

with parse_members (fuel : nat) (s : jsstring) {struct fuel}
  : parse_result (list (jsstring * value)) :=
  match fuel with
  | O => OutOfFuel
  | S f =>
      match skip_ws s with
      | [] => Malformed
      | q :: r =>
          if q =? 34 then
            match parse_string_body r with
            | None => Malformed
            | Some (k, r1) =>
                match skip_ws r1 with
                | [] => Malformed
                | colon :: r2 =>
                    if colon =? 58 then
                      match parse_value f r2 with
                      | Parsed v r3 =>
                          match skip_ws r3 with
                          | [] => Malformed
                          | c :: r4 =>
                              if c =? 44 then
                                match parse_members f r4 with
                                | Parsed ms rest => Parsed ((k, v) :: ms) rest
                                | Malformed => Malformed
                                | OutOfFuel => OutOfFuel
                                end
                              else if c =? 125 then Parsed [(k, v)] r4
                              else Malformed
                          end
                      | Malformed => Malformed
                      | OutOfFuel => OutOfFuel
                      end
                    else Malformed
                end
            end
          else Malformed
      end
  end.

(** Fuel that always suffices: see [JsonFacts.JSON_parse_fuel]. *)
Definition fuel_for (s : jsstring) : nat := S (2 * List.length s).

(** [JSON.parse(text)]: the value of the whole text, or a SyntaxError. *)
Definition JSON_parse (text : jsstring) : completion value :=
  match parse_value (fuel_for text) text with
  | Parsed v rest =>
      match skip_ws rest with
      | [] => Return v
      | _ :: _ => Throw SyntaxError
      end
  | _ => Throw SyntaxError
  end.

(** What a result says about fuel and progress: it is not [OutOfFuel],
    and what is left is shorter than the input. *)
Definition progress {A} (s : jsstring) (r : parse_result A) : Prop :=
  match r with
  | Parsed _ rest => (List.length rest < List.length s)%nat
  | Malformed => True
  | OutOfFuel => False
  end.

End Json.
Export Json.
(** ** Outbound HTTP *)

Module Http.

(** The four requests the service sends.  The query of the news search
    and the form of the render call are kept as lists of pairs; the
    caption call is determined by the API key in its URL and the prompt
    in its body. *)
Inductive request :=
| GetNews (params : list (jsstring * jsstring))
| GetMemes
| PostGenerateContent (apiKey : jsstring) (prompt : jsstring)
| PostCaptionImage (params : list (jsstring * jsstring)).

(** What the program reads of a [Response]: [res.ok], [res.status],
    [res.statusText] and the outcome of [await res.json()]. *)
Record fetch_response := {
  ok : bool;
  status : N;
  statusText : jsstring;
  json : completion value
}.

(** The upstream services: the outcome of [await fetch(...)]. *)
Definition World := request -> completion fetch_response.

(** A computation sends requests and returns or throws. *)
Definition M (A : Type) : Type := World -> list request * completion A.

Definition ret {A} (a : A) : M A := fun _ => ([], Return a).
Definition throw {A} (e : exn) : M A := fun _ => ([], Throw e).
Definition lift {A} (c : completion A) : M A := fun _ => ([], c).
Definition fetch (rq : request) : M fetch_response := fun w => ([rq], w rq).

Definition bind {A B} (m : M A) (k : A -> M B) : M B :=
  fun w =>
    match m w with
    | (t1, Return a) => let (t2, r) := k a w in (t1 ++ t2, r)
    | (t1, Throw e) => (t1, Throw e)
    end.

Declare Scope http_scope.
Delimit Scope http_scope with M.
Notation "x <- c ;; k" := (bind c (fun x => k))
  (at level 100, c at next level, right associativity) : http_scope.
Notation "c ;;; k" := (bind c (fun _ => k))
  (at level 100, right associativity) : http_scope.

End Http.
Export Http.

(** ** MemeGeneratorServer *)

Record MemeCaption := {
  image : number;
  topText : jsstring;
  bottomText : jsstring
}.

Record ImgflipTemplate := {
  id : number;
  name : value
}.

(** [process.env] *)
Abbreviation Env := (gmap jsstring jsstring).

Definition env_get (env : Env) (key : jsstring) : value :=
  match env !! key with
  | Some s => VString s
  | None => VUndefined
  end.

(** [process.env[key]] written into a URL or a form: the string
    [undefined] when the variable is unset.  A value of [process.env] is
    decoded from the bytes of the process environment and holds no lone
    surrogate, so that [URLSearchParams] stores it as it is. *)
Definition env_text (env : Env) (key : jsstring) : jsstring :=
  match env !! key with
  | Some s => s
  | None => lit "undefined"
  end.

Module MemeGeneratorServer.

Definition required : list jsstring :=
  [ lit "NEWSDATA_API_KEY"; lit "GEMINI_API_KEY";
    lit "IMGFLIP_USERNAME"; lit "IMGFLIP_PASSWORD" ].

(** [required.filter((key) => !process.env[key])] *)
Definition missing (env : Env) : list jsstring :=
  List.filter (fun key => negb (ToBoolean (env_get env key))) required.

Definition validateEnvVars (env : Env) : completion unit :=
  if (0 <? List.length (missing env))%nat then
    Throw (Error (lit "Missing required environment variables: "
                  ++ join (lit ", ") (missing env)))
  else Return tt.

(** [`${res.status} ${res.statusText}`] *)
Definition status_line (res : fetch_response) : jsstring :=
  N_to_string (status res) ++ lit " " ++ statusText res.

(** The query of the news search.  [topic] defaults to the empty
    string; [topic.trim()] throws unless [topic] is a string; [q] is added
    when the trimmed topic is not empty, and [params.append] stores the
    topic as a USVString. *)
Definition news_params (env : Env) (topic : value)
  : completion (list (jsstring * jsstring)) :=
  let topic := match topic with VUndefined => VString [] | _ => topic end in
  let params :=
    [ (lit "apikey", env_text env (lit "NEWSDATA_API_KEY"));
      (lit "country", lit "in");
      (lit "language", lit "en"); (lit "size", lit "10") ] in
  match topic with
  | VString s =>
      Return (if ToBoolean (VString (trim s))
              then params ++ [(lit "q", USVString s)]
              else params)
  | _ => Throw TypeError
  end.

Definition fetchIndianNews (env : Env) (topic : value) : M (list value) :=
  (params <- lift (news_params env topic) ;;
   res <- fetch (GetNews params) ;;
   if negb (ok res) then
     throw (Error (lit "NewsData API error: " ++ status_line res))
   else
     data <- lift (json res) ;;
     results <- lift (get data (lit "results")) ;;
     match results with
     | VArray l => ret l
     | _ => ret []
     end)%M.

(** [({ id, name }) => ({ id: Number(id), name })]: destructuring [null]
    throws. *)
Definition project_template (m : value) : completion ImgflipTemplate :=
  (i <- get m (lit "id") ;;
   n <- get m (lit "name") ;;
   x <- ToNumber i ;;
   Return {| id := x; name := n |})%C.

(** An entry of the catalog that the projection accepts: not [null],
    with an [id] that [Number] converts (every primitive is one). *)
Definition template_entry (m : value) : bool :=
  negb (is_nullish m)
  && match ToNumber (get_own m (lit "id")) with
     | Return _ => true
     | Throw _ => false
     end.

(** [t] is the projection of the entry [m]. *)
Definition projects (m : value) (t : ImgflipTemplate) : Prop :=
  ToNumber (get_own m (lit "id")) = Return (id t)
  /\ name t = get_own m (lit "name").

Fixpoint map_completion {A B} (f : A -> completion B) (l : list A) : completion (list B) :=
  match l with
  | [] => Return []
  | x :: r =>
      (y <- f x ;;
       ys <- map_completion f r ;;
       Return (y :: ys))%C
  end.

(** [memes.slice(0, 100).map(...)]: only an array has both methods. *)
Definition slice_and_project (memes : value) : completion (list ImgflipTemplate) :=
  match memes with
  | VArray l => map_completion project_template (firstn 100 l)
  | _ => Throw TypeError
  end.

Definition fetchImgflipTemplates : M (list ImgflipTemplate) :=
  (res <- fetch GetMemes ;;
   if negb (ok res) then
     throw (Error (lit "Imgflip templates API error: " ++ status_line res))
   else
     payload <- lift (json res) ;;
     success <- lift (get payload (lit "success")) ;;
     if negb (ToBoolean success) then
       throw (Error (lit "Imgflip API returned success: false"))
     else
       data <- lift (get payload (lit "data")) ;;
       memes <- lift (get data (lit "memes")) ;;
       lift (slice_and_project memes))%M.

(** [availableTemplates.join(", ")]: only an array has [join]; a [null]
    or [undefined] element prints as the empty string. *)
Definition call_join (sep : jsstring) (v : value) : completion jsstring :=
  match v with
  | VArray l =>
      (parts <- map_completion
                  (fun x => match x with
                            | VUndefined | VNull => Return []
                            | _ => ToString x
                            end) l ;;
       Return (join sep parts))%C
  | _ => Throw TypeError
  end.

Definition quoted (s : string) : jsstring := dquote :: lit s ++ [dquote].

(** The template literal of [generateCaption]. *)
Definition caption_prompt (title description availableTemplates : value)
  : completion jsstring :=
  (t <- ToString title ;;
   d <- ToString description ;;
   ids <- call_join (lit ", ") availableTemplates ;;
   Return
     (lit "Generate a meme worthy caption for the following news: "
      ++ t ++ lit ", " ++ d ++ [10; 10]
      ++ lit "Response should be valid JSON in this exact format:" ++ [10]
      ++ lit "{" ++ [10]
      ++ lit "  " ++ quoted "image" ++ lit ": <number>," ++ [10]
      ++ lit "  " ++ quoted "topText" ++ lit ": " ++ quoted "<string>" ++ lit "," ++ [10]
      ++ lit "  " ++ quoted "bottomText" ++ lit ": " ++ quoted "<string>" ++ [10]
      ++ lit "}" ++ [10; 10]
      ++ lit "The image number should be a template ID from imgflip that's relevant to this meme."
      ++ [10]
      ++ lit "Choose from these template IDs only: " ++ ids ++ [10]
      ++ lit "Make the meme funny and relevant to the news content."))%C.

Definition fence : jsstring := Eval cbv in lit "```".
Definition fence_json : jsstring := Eval cbv in lit "```json".

(** [caption.replace(/```json/g, "").replace(/```/g, "").trim()]: only a
    string has [replace]. *)
Definition clean_caption (caption : value) : completion jsstring :=
  match caption with
  | VString s => Return (trim (remove_all fence (remove_all fence_json s)))
  | _ => Throw TypeError
  end.

(** The [try] block of [parseMemeCaption]. *)
Definition parseMemeCaption_try (caption : value) : completion (option MemeCaption) :=
  (cleaned <- clean_caption caption ;;
   parsed <- JSON_parse cleaned ;;
   i <- get parsed (lit "image") ;;
   x <- ToNumber i ;;
   t <- get parsed (lit "topText") ;;
   top <- ToString t ;;
   b <- get parsed (lit "bottomText") ;;
   bottom <- ToString b ;;
   Return (Some {| image := x; topText := top; bottomText := bottom |}))%C.

(** [parseMemeCaption(caption)].  The declared parameter type is
    [string]; [generateCaption] passes whatever truthy value the upstream
    put in the text part. *)
Definition parseMemeCaption (caption : value) : completion (option MemeCaption) :=
  try_catch (parseMemeCaption_try caption) (Return None).

(** [data?.candidates?.[0]?.content?.parts?.[0]?.text || ""] *)
Definition candidate_text (data : value) : value :=
  or_else
    (get_opt (get_opt (get_opt (get_opt (get_opt (get_opt data
       (lit "candidates")) (lit "0")) (lit "content")) (lit "parts")) (lit "0"))
       (lit "text"))
    (VString []).

Definition gemini_key (env : Env) : jsstring :=
  env_text env (lit "GEMINI_API_KEY").

Definition generateCaption (env : Env) (title description availableTemplates : value)
  : M (option MemeCaption) :=
  (prompt <- lift (caption_prompt title description availableTemplates) ;;
   res <- fetch (PostGenerateContent (gemini_key env) prompt) ;;
   if negb (ok res) then
     throw (Error (lit "Gemini API error: " ++ status_line res))
   else
     data <- lift (json res) ;;
     let output := candidate_text data in
     if negb (ToBoolean output) then ret None
     else lift (parseMemeCaption output))%M.

(** [templateId.toString()] *)
Definition call_toString (v : value) : completion jsstring :=
  match v with
  | VUndefined | VNull => Throw TypeError
  | _ => ToString v
  end.

(** The form of the render call.  [URLSearchParams] turns each value into
    a string and stores it as a USVString. *)
Definition render_params (env : Env) (templateId topText bottomText : value)
  : completion (list (jsstring * jsstring)) :=
  (template_id <- call_toString templateId ;;
   text0 <- ToString topText ;;
   text1 <- ToString bottomText ;;
   Return [ (lit "template_id", USVString template_id);
            (lit "username", env_text env (lit "IMGFLIP_USERNAME"));
            (lit "password", env_text env (lit "IMGFLIP_PASSWORD"));
            (lit "text0", USVString text0);
            (lit "text1", USVString text1) ])%C.

Definition generateMeme (env : Env) (templateId topText bottomText : value) : M value :=
  (params <- lift (render_params env templateId topText bottomText) ;;
   res <- fetch (PostCaptionImage params) ;;
   data <- lift (json res) ;;
   success <- lift (get data (lit "success")) ;;
   if negb (ToBoolean success) then
     message <- lift (ToString (get_own data (lit "error_message"))) ;;
     throw (Error (lit "Imgflip API error: " ++ message))
   else
     inner <- lift (get data (lit "data")) ;;
     ret (or_else (get_opt inner (lit "url")) VNull))%M.

End MemeGeneratorServer.
Export MemeGeneratorServer.

(** ** The routes *)

Module Routes.

(** What a handler reads of the Express request. *)
Record Req := {
  query : value;
  body : value
}.

(** [res.json(payload)], or [res.status(500).json({ success: false,
    error: err.message })]. *)
Inductive response :=
| Res200 (payload : value)
| Res500 (error : exn).

Definition handler : Type := Env -> Req -> World -> list request * response.

(** [try { ... res.json(payload) } catch (err) { res.status(500)... }] *)
Definition respond (m : M value) : World -> list request * response :=
  fun w =>
    match m w with
    | (t, Return payload) => (t, Res200 payload)
    | (t, Throw e) => (t, Res500 e)
    end.

Definition success_true : jsstring * value := (lit "success", VBool true).

Definition caption_value (c : MemeCaption) : value :=
  VObject [ (lit "image", VNumber (image c));
            (lit "topText", VString (topText c));
            (lit "bottomText", VString (bottomText c)) ].

Definition falsy (v : value) : bool := negb (ToBoolean v).

(** [req.query.topic?.toString() || ""] *)
Definition query_topic (req : Req) : completion value :=
  (q <- get (query req) (lit "topic") ;;
   s <- match q with
        | VUndefined | VNull => Return VUndefined
        | _ => (s <- ToString q ;; Return (VString s))
        end ;;
   Return (or_else s (VString [])))%C.

Definition fetch_indian_news : handler := fun env req =>
  respond
    (lift (validateEnvVars env) ;;;
     topic <- lift (query_topic req) ;;
     news <- fetchIndianNews env topic ;;
     ret (VObject [ success_true;
                    (lit "count", VNumber (number_of_nat (List.length news)));
                    (lit "articles", VArray news) ]))%M.

Definition get_meme_templates : handler := fun env req =>
  respond
    (templates <- fetchImgflipTemplates ;;
     ret (VObject
            [ success_true;
              (lit "count", VNumber (number_of_nat (List.length templates)));
              (lit "templates",
               VArray (List.map (fun t => VObject [ (lit "id", VNumber (id t));
                                                    (lit "name", name t) ])
                         templates)) ]))%M.

Definition generate_meme_caption : handler := fun env req =>
  respond
    (lift (validateEnvVars env) ;;;
     title <- lift (get (body req) (lit "title")) ;;
     description <- lift (get (body req) (lit "description")) ;;
     availableTemplates <- lift (get (body req) (lit "availableTemplates")) ;;
     if falsy title || falsy description || falsy availableTemplates then
       throw (Error (lit "Missing required parameters"))
     else
       caption <- generateCaption env title description availableTemplates ;;
       ret (VObject [ success_true;
                      (lit "caption",
                       match caption with
                       | Some c => caption_value c
                       | None => VNull
                       end) ]))%M.

Definition create_meme : handler := fun env req =>
  respond
    (lift (validateEnvVars env) ;;;
     templateId <- lift (get (body req) (lit "templateId")) ;;
     topText <- lift (get (body req) (lit "topText")) ;;
     bottomText <- lift (get (body req) (lit "bottomText")) ;;
     if falsy templateId || falsy topText || falsy bottomText then
       throw (Error (lit "Missing required parameters"))
     else
       memeUrl <- generateMeme env templateId topText bottomText ;;
       ret (VObject [ success_true; (lit "memeUrl", memeUrl) ]))%M.

Definition zero : value := VNumber (Finite false [] 0).

(** [templates.map((t) => t.id)] *)
Definition template_ids (templates : list ImgflipTemplate) : value :=
  VArray (List.map (fun t => VNumber (id t)) templates).

Definition generate_news_meme : handler := fun env req =>
  respond
    (lift (validateEnvVars env) ;;;
     t <- lift (get (body req) (lit "topic")) ;;
     let topic := or_else t (VString []) in
     i <- lift (get (body req) (lit "articleIndex")) ;;
     let articleIndex := or_else i zero in
     news <- fetchIndianNews env topic ;;
     if (List.length news =? 0)%nat then
       throw (Error (lit "No news articles found"))
     else
       key <- lift (ToString articleIndex) ;;
       let article := get_own (VArray news) key in
       if falsy (get_opt article (lit "title"))
          || falsy (get_opt article (lit "description")) then
         throw (Error (lit "Invalid article"))
       else
         templates <- fetchImgflipTemplates ;;
         let templateIds := template_ids templates in
         caption <- generateCaption env (get_own article (lit "title"))
                      (get_own article (lit "description")) templateIds ;;
         match caption with
         | None => throw (Error (lit "Failed to generate meme caption"))
         | Some c =>
             memeUrl <- generateMeme env (VNumber (image c))
                          (VString (topText c)) (VString (bottomText c)) ;;
             ret (VObject
                    [ success_true;
                      (lit "article",
                       VObject [ (lit "title", get_own article (lit "title"));
                                 (lit "description",
                                  get_own article (lit "description")) ]);
                      (lit "caption", caption_value c);
                      (lit "memeUrl", memeUrl) ])
         end)%M.

Definition puch_generate_meme : handler := fun env req =>
  respond
    (lift (validateEnvVars env) ;;;
     t <- lift (get (body req) (lit "topic")) ;;
     let params := get_own (body req) (lit "params") in
     let topic := or_else (or_else t (get_opt params (lit "topic"))) (VString []) in
     i <- lift (get (body req) (lit "articleIndex")) ;;
     let articleIndex := or_else i zero in
     if falsy topic then throw (Error (lit "Topic is required"))
     else
       news <- fetchIndianNews env topic ;;
       if (List.length news =? 0)%nat then
         shown <- lift (ToString topic) ;;
         throw (Error (lit "No news articles found for topic: " ++ shown))
       else
         key <- lift (ToString articleIndex) ;;
         let article := get_own (VArray news) key in
         if falsy (get_opt article (lit "title"))
            || falsy (get_opt article (lit "description")) then
           throw (Error (lit "Selected article is missing title/description"))
         else
           templates <- fetchImgflipTemplates ;;
           let templateIds := template_ids templates in
           caption <- generateCaption env (get_own article (lit "title"))
                        (get_own article (lit "description")) templateIds ;;
           match caption with
           | None => throw (Error (lit "Failed to generate meme caption"))
           | Some c =>
               memeUrl <- generateMeme env (VNumber (image c))
                            (VString (topText c)) (VString (bottomText c)) ;;
               if falsy memeUrl then
                 throw (Error (lit "Failed to create meme image"))
               else
                 ret (VObject
                        [ success_true;
                          (lit "article",
                           VObject
                             [ (lit "title", get_own article (lit "title"));
                               (lit "description",
                                get_own article (lit "description"));
                               (lit "link",
                                or_else (get_own article (lit "link")) VNull) ]);
                          (lit "caption", caption_value c);
                          (lit "memeUrl", memeUrl) ])
           end)%M.

(** The routes that call [validateEnvVars]. *)
Definition credential_routes : list handler :=
  [ fetch_indian_news; generate_meme_caption; create_meme;
    generate_news_meme; puch_generate_meme ].

End Routes.
Export Routes.

(** ** JSON.stringify of a caption *)

Module Stringify.

Definition hex_char (d : N) : code_unit := if d <? 10 then 48 + d else 87 + d.

(** UnicodeEscape: [\u] and four lower-case hexadecimal digits. *)
Definition unicode_escape (c : code_unit) : jsstring :=
  [ 92; 117; hex_char (c / 4096); hex_char ((c / 256) mod 16);
    hex_char ((c / 16) mod 16); hex_char (c mod 16) ].

Definition is_high_surrogate (c : code_unit) : bool := (55296 <=? c) && (c <=? 56319).
Definition is_low_surrogate (c : code_unit) : bool := (56320 <=? c) && (c <=? 57343).

(** A code unit that is not a surrogate, as QuoteJSONString writes it. *)
Definition quote_unit (c : code_unit) : jsstring :=
  if c =? 8 then [92; 98]
  else if c =? 9 then [92; 116]
  else if c =? 10 then [92; 110]
  else if c =? 12 then [92; 102]
  else if c =? 13 then [92; 114]
  else if c =? 34 then [92; 34]
  else if c =? 92 then [92; 92]
  else if c <? 32 then unicode_escape c
  else [c].

(** The code points of the string in turn: a surrogate pair is written
    as it is, a lone surrogate as an escape. *)
Fixpoint quote_units (s : jsstring) : jsstring :=
  match s with
  | [] => []
  | c :: r =>
      if is_high_surrogate c then
        match r with
        | d :: r' =>
            if is_low_surrogate d then c :: d :: quote_units r'
            else unicode_escape c ++ quote_units r
        | [] => unicode_escape c
        end
      else if is_low_surrogate c then unicode_escape c ++ quote_units r
      else quote_unit c ++ quote_units r
  end.

Definition QuoteJSONString (s : jsstring) : jsstring :=
  dquote :: quote_units s ++ [dquote].

(** A number serialises as its ToString when finite, else as [null]. *)
Definition stringify_number (x : number) : jsstring :=
  if is_finite x then Number_toString x else lit "null".

(** [JSON.stringify(c)] for a caption [c]: the three members in the
    order of the object literal, without white space. *)
Definition JSON_stringify_caption (c : MemeCaption) : jsstring :=
  lit "{" ++ QuoteJSONString (lit "image") ++ lit ":" ++ stringify_number (image c)
  ++ lit "," ++ QuoteJSONString (lit "topText") ++ lit ":" ++ QuoteJSONString (topText c)
  ++ lit "," ++ QuoteJSONString (lit "bottomText") ++ lit ":" ++ QuoteJSONString (bottomText c)
  ++ lit "}".

(** A valid caption: the image is a finite number (in canonical form). *)
Definition valid_caption (c : MemeCaption) : bool :=
  is_finite (image c) && canonical (image c).

(** Scanning for a fence: [n] back-ticks have just been read.  [None]
    when three in a row are found, else the length of the final run. *)
Fixpoint fence_scan (n : nat) (s : jsstring) : option nat :=
  match s with
  | [] => Some n
  | c :: r =>
      if c =? backtick then
        match n with
        | S (S _) => None
        | _ => fence_scan (S n) r
        end
      else fence_scan O r
  end.

Definition no_backtick (s : jsstring) : bool :=
  forallb (fun c => negb (c =? backtick)) s.

(** The caption [{ image: 1, topText: "```", bottomText: "x" }]. *)
Definition fenced_caption : MemeCaption :=
  {| image := Finite false [1] 0; topText := fence; bottomText := lit "x" |}.

(** The caption [{ image: -0, topText: "a", bottomText: "b" }]. *)
Definition negative_zero_caption : MemeCaption :=
  {| image := Finite true [] 0; topText := lit "a"; bottomText := lit "b" |}.

End Stringify.
Export Stringify.

(** ** Reading the record of requests *)

Module Traces.

(** The requests of the first two steps of a pipeline: news and
    templates. *)
Definition before_caption (rq : request) : bool :=
  match rq with
  | GetNews _ | GetMemes => true
  | _ => false
  end.

Definition is_caption_call (rq : request) : bool :=
  match rq with
  | PostGenerateContent _ _ => true
  | _ => false
  end.

Definition is_render_call (rq : request) : bool :=
  match rq with
  | PostCaptionImage _ => true
  | _ => false
  end.

(** [m], run after the requests [t0] have been sent. *)
Definition prefixed {A} (t0 : list request) (m : M A) : M A :=
  fun w => let (t, r) := m w in (t0 ++ t, r).

(** A run of a pipeline that stopped before the caption step. *)
Definition stopped_early (run : list request * response) : Prop :=
  forallb before_caption (fst run) = true /\ exists e, snd run = Res500 e.

(** What the two full pipelines have in common from the caption step
    on, given the requests [t1] sent so far and the selected article:
    [finish] builds the response from the caption and the outcome of the
    render step. *)
Definition pipeline_tail (env : Env) (w : World) (t1 : list request)
           (title description ids : value)
           (finish : MemeCaption -> value -> response)
  : list request * response :=
  match generateCaption env title description ids w with
  | (tc, Throw e) => (t1 ++ tc, Res500 e)
  | (tc, Return None) =>
      (t1 ++ tc, Res500 (Error (lit "Failed to generate meme caption")))
  | (tc, Return (Some c)) =>
      match generateMeme env (VNumber (image c)) (VString (topText c))
              (VString (bottomText c)) w with
      | (tm, Throw e) => (t1 ++ tc ++ tm, Res500 e)
      | (tm, Return memeUrl) => (t1 ++ tc ++ tm, finish c memeUrl)
      end
  end.

(** The last step of [generate_news_meme]. *)
Definition finish_news (article : value) (c : MemeCaption) (memeUrl : value)
  : response :=
  Res200
    (VObject
       [ success_true;
         (lit "article",
          VObject [ (lit "title", get_own article (lit "title"));
                    (lit "description", get_own article (lit "description")) ]);
         (lit "caption", caption_value c);
         (lit "memeUrl", memeUrl) ]).

(** The last step of [puch_generate_meme]. *)
Definition finish_puch (article : value) (c : MemeCaption) (memeUrl : value)
  : response :=
  if falsy memeUrl then Res500 (Error (lit "Failed to create meme image"))
  else
    Res200
      (VObject
         [ success_true;
           (lit "article",
            VObject [ (lit "title", get_own article (lit "title"));
                      (lit "description", get_own article (lit "description"));
                      (lit "link", or_else (get_own article (lit "link")) VNull) ]);
           (lit "caption", caption_value c);
           (lit "memeUrl", memeUrl) ]).

(** A run of a pipeline either stops before the caption step, with an
    error, or is the common tail from that step on. *)
Definition pipeline_run (env : Env) (w : World)
           (finish : value -> MemeCaption -> value -> response)
           (run : list request * response) : Prop :=
  stopped_early run
  \/ exists t1 article ids,
      forallb before_caption t1 = true
      /\ run = pipeline_tail env w t1 (get_own article (lit "title"))
                 (get_own article (lit "description")) ids (finish article).

End Traces.
Export Traces.

(** ** What the services ask and are answered *)

Module Upstream.

(** What [await fetch(rq)] followed by [await res.json()] gives, whatever
    the HTTP status. *)
Definition body_of (w : World) (rq : request) : completion value :=
  cbind (w rq) json.

(** The four fixed parameters of the news search. *)
Definition news_base (env : Env) : list (jsstring * jsstring) :=
  [ (lit "apikey", env_text env (lit "NEWSDATA_API_KEY"));
    (lit "country", lit "in");
    (lit "language", lit "en"); (lit "size", lit "10") ].

(** The query of the news search for the topic [s]. *)
Definition news_query (env : Env) (s : jsstring) : list (jsstring * jsstring) :=
  news_base env
  ++ if forallb is_whitespace s then [] else [(lit "q", USVString s)].

(** The form of the render call for a caption. *)
Definition caption_form (env : Env) (c : MemeCaption) : list (jsstring * jsstring) :=
  [ (lit "template_id", USVString (Number_toString (image c)));
    (lit "username", env_text env (lit "IMGFLIP_USERNAME"));
    (lit "password", env_text env (lit "IMGFLIP_PASSWORD"));
    (lit "text0", USVString (topText c));
    (lit "text1", USVString (bottomText c)) ].

(** An entry of the catalog whose [id] is [n], as a decimal string (the
    vendor's form) or as a number. *)
Definition has_id (m : value) (n : N) : Prop :=
  is_nullish m = false
  /\ (get_own m (lit "id") = VString (N_to_string n)
      \/ get_own m (lit "id") = VNumber (number_of_N n)).

(** [req.body.topic || req.body.params?.topic || ""] *)
Definition effective_topic (body : value) : value :=
  or_else (or_else (get_own body (lit "topic"))
             (get_opt (get_own body (lit "params")) (lit "topic")))
    (VString []).

End Upstream.
Export Upstream.

(** ** The steps of a pipeline *)

Module Pipeline.

(** The four steps, by the request each sends. *)
Inductive step := News | Templates | Caption | Render.

Definition step_of (rq : request) : step :=
  match rq with
  | GetNews _ => News
  | GetMemes => Templates
  | PostGenerateContent _ _ => Caption
  | PostCaptionImage _ => Render
  end.

Definition pipeline_steps : list step := [News; Templates; Caption; Render].

(** The runs of a pipeline, by the step at which they end.  A run that
    reaches the render step has an article of the news list with a truthy
    title and description, the templates, and a caption; [finish] makes
    the response of the caption and of what the render step returns. *)
Inductive pipeline_end (env : Env) (w : World)
          (finish : value -> MemeCaption -> value -> response)
  : list request * response -> Prop :=
| ends_before_news (e : exn) :
    pipeline_end env w finish ([], Res500 e)
| ends_at_news (p : list (jsstring * jsstring)) (e : exn) :
    pipeline_end env w finish ([GetNews p], Res500 e)
| ends_at_templates (p : list (jsstring * jsstring)) (e : exn) :
    pipeline_end env w finish ([GetNews p; GetMemes], Res500 e)
| ends_at_caption (p : list (jsstring * jsstring)) (q : jsstring) (e : exn) :
    pipeline_end env w finish
      ([GetNews p; GetMemes; PostGenerateContent (gemini_key env) q], Res500 e)
| ends_at_render (p : list (jsstring * jsstring)) (q : jsstring)
                 (topic : value) (news : list value) (article : value)
                 (templates : list ImgflipTemplate) (c : MemeCaption)
                 (rm : completion value) (r : response) :
    fetchIndianNews env topic w = ([GetNews p], Return news) ->
    In article news ->
    ToBoolean (get_own article (lit "title")) = true ->
    ToBoolean (get_own article (lit "description")) = true ->
    fetchImgflipTemplates w = ([GetMemes], Return templates) ->
    generateCaption env (get_own article (lit "title"))
      (get_own article (lit "description")) (template_ids templates) w
    = ([PostGenerateContent (gemini_key env) q], Return (Some c)) ->
    generateMeme env (VNumber (image c)) (VString (topText c))
      (VString (bottomText c)) w
    = ([PostCaptionImage (caption_form env c)], rm) ->
    r = match rm with
        | Return memeUrl => finish article c memeUrl
        | Throw e => Res500 e
        end ->
    pipeline_end env w finish
      ([GetNews p; GetMemes; PostGenerateContent (gemini_key env) q;
        PostCaptionImage (caption_form env c)], r).

(** The two pipelines end alike: with an error each, or with the last
    steps of the two on the same article, caption and URL. *)
Definition same_end (lenient strict : response) : Prop :=
  (exists e e', lenient = Res500 e /\ strict = Res500 e')
  \/ exists article c memeUrl,
      lenient = finish_news article c memeUrl
      /\ strict = finish_puch article c memeUrl.

End Pipeline.
Export Pipeline.

(** ** A caption laid out as JSON *)

Module Layout.

(** The JSON text of a caption with white space [open] after the opening
    brace, [colon] after each colon, [comma] after each comma and [close]
    before the closing brace.  This is the layout of
    [JSON.stringify(c, null, indent)] and of the format that the prompt
    shows; with the four empty it is [JSON.stringify(c)]. *)
Definition layout_caption (open colon comma close : jsstring) (c : MemeCaption)
  : jsstring :=
  lit "{" ++ open
  ++ QuoteJSONString (lit "image") ++ lit ":" ++ colon
  ++ stringify_number (image c) ++ lit "," ++ comma
  ++ QuoteJSONString (lit "topText") ++ lit ":" ++ colon
  ++ QuoteJSONString (topText c) ++ lit "," ++ comma
  ++ QuoteJSONString (lit "bottomText") ++ lit ":" ++ colon
  ++ QuoteJSONString (bottomText c) ++ close ++ lit "}".

End Layout.
Export Layout.

(** ** A scenario: one article about cricket *)

Module Scenario.

Definition credentials : Env :=
  list_to_map [ (lit "NEWSDATA_API_KEY", lit "news-key");
                (lit "GEMINI_API_KEY", lit "gemini-key");
                (lit "IMGFLIP_USERNAME", lit "user");
                (lit "IMGFLIP_PASSWORD", lit "secret") ].

(** The credentials without those that [unset] selects. *)
Definition credentials_except (unset : jsstring -> bool) : Env :=
  list_to_map
    (List.filter (fun kv : jsstring * jsstring => negb (unset (fst kv)))
       [ (lit "NEWSDATA_API_KEY", lit "news-key");
         (lit "GEMINI_API_KEY", lit "gemini-key");
         (lit "IMGFLIP_USERNAME", lit "user");
         (lit "IMGFLIP_PASSWORD", lit "secret") ]).

(** A 200 response with the given parsed body. *)
Definition ok_json (data : value) : completion fetch_response :=
  Return {| ok := true; status := 200; statusText := lit "OK";
            json := Return data |}.

Definition article : value :=
  VObject [ (lit "title", VString (lit "India wins"));
            (lit "description", VString (lit "Historic victory")) ].

Definition catalog : value :=
  VObject [ (lit "success", VBool true);
            (lit "data",
             VObject [ (lit "memes",
                        VArray [ VObject [ (lit "id", VString (lit "1"));
                                           (lit "name", VString (lit "Drake")) ] ]) ]) ].

(** The body of the generative backend whose first candidate's first
    part has the given text. *)
Definition candidates (text : value) : value :=
  VObject [ (lit "candidates",
             VArray [ VObject [ (lit "content",
                VObject [ (lit "parts",
                           VArray [ VObject [ (lit "text", text) ] ]) ]) ] ]) ].

(** The upstream services: one article, one template, a caption text
    and a body of the render call. *)
Definition world (caption_text : value) (rendered : value) : World :=
  fun rq =>
    match rq with
    | GetNews _ => ok_json (VObject [ (lit "results", VArray [article]) ])
    | GetMemes => ok_json catalog
    | PostGenerateContent _ _ => ok_json (candidates caption_text)
    | PostCaptionImage _ => ok_json rendered
    end.

Definition caption_text : value :=
  VString (JSON_stringify_caption
             {| image := Finite false [1] 0;
                topText := lit "When India wins";
                bottomText := lit "Everyone celebrates" |}).

Definition rendered_url : value :=
  VObject [ (lit "success", VBool true);
            (lit "data",
             VObject [ (lit "url", VString (lit "https://i.imgflip.com/abc.jpg")) ]) ].

(** A success body of the render call without a URL. *)
Definition rendered_nothing : value :=
  VObject [ (lit "success", VBool true); (lit "data", VObject []) ].

Definition cricket : Req :=
  {| query := VObject [ (lit "topic", VString (lit "cricket")) ];
     body := VObject [ (lit "topic", VString (lit "cricket")) ] |}.

(** A catalog of 150 templates. *)
Definition big_catalog : value :=
  VObject [ (lit "success", VBool true);
            (lit "data",
             VObject [ (lit "memes",
                        VArray (repeat (VObject [ (lit "id", VString (lit "61579"));
                                                  (lit "name", VString (lit "One Does Not Simply")) ])
                                  150)) ]) ].

Definition big_catalog_world : World :=
  fun rq =>
    match rq with
    | GetMemes => ok_json big_catalog
    | _ => Throw TypeError
    end.

(** The sixth article about cricket, of one. *)
Definition cricket_sixth : Req :=
  {| query := VObject [];
     body := VObject [ (lit "topic", VString (lit "cricket"));
                       (lit "articleIndex", VNumber (Finite false [5] 0)) ] |}.

(** A render request with template 0. *)
Definition render_zero : Req :=
  {| query := VObject [];
     body := VObject [ (lit "templateId", VNumber (Finite false [] 0));
                       (lit "topText", VString (lit "top"));
                       (lit "bottomText", VString (lit "bottom")) ] |}.

(** The news service answers 200 with an error object, without
    [results]. *)
Definition no_results : World :=
  fun rq =>
    match rq with
    | GetNews _ =>
        ok_json (VObject [ (lit "status", VString (lit "error"));
                           (lit "results", VObject [ (lit "message", VString (lit "quota")) ]) ])
    | _ => Throw TypeError
    end.

(** The news service answers 200 with the JSON text [null]. *)
Definition null_news : World :=
  fun rq =>
    match rq with
    | GetNews _ => ok_json VNull
    | _ => Throw TypeError
    end.

End Scenario.

(** ** Further cases *)

Module Cases.
Import Scenario.

(** A server that answers every request with the given status, reason
    and parsed body. *)
Definition answering (status : N) (reason : jsstring) (data : value) : World :=
  fun _ => Return {| ok := (200 <=? status) && (status <=? 299);
                     status := status; statusText := reason;
                     json := Return data |}.

Definition answer (status : N) (reason : jsstring) (data : value) : fetch_response :=
  {| ok := (200 <=? status) && (status <=? 299);
     status := status; statusText := reason; json := Return data |}.



(** What the projection makes of an entry of the big catalog. *)
Definition one_does_not_simply : ImgflipTemplate :=
  {| id := Finite false [6; 1; 5; 7; 9] 0;
     name := VString (lit "One Does Not Simply") |}.

Definition cricket_query : list (jsstring * jsstring) :=
  [ (lit "apikey", lit "news-key"); (lit "country", lit "in");
    (lit "language", lit "en"); (lit "size", lit "10");
    (lit "q", lit "cricket") ].

Definition cricket_caption : MemeCaption :=
  {| image := Finite false [1] 0;
     topText := lit "When India wins";
     bottomText := lit "Everyone celebrates" |}.

(** The prompt for the article about cricket and the one template. *)
Definition cricket_prompt : jsstring :=
  match caption_prompt (VString (lit "India wins"))
          (VString (lit "Historic victory"))
          (VArray [VNumber (Finite false [1] 0)]) with
  | Return p => p
  | Throw _ => []
  end.

Definition cricket_payload : value :=
  VObject
    [ (lit "success", VBool true);
      (lit "article",
       VObject [ (lit "title", VString (lit "India wins"));
                 (lit "description", VString (lit "Historic victory")) ]);
      (lit "caption", caption_value cricket_caption);
      (lit "memeUrl", VString (lit "https://i.imgflip.com/abc.jpg")) ].

Definition cricket_payload_with_link : value :=
  VObject
    [ (lit "success", VBool true);
      (lit "article",
       VObject [ (lit "title", VString (lit "India wins"));
                 (lit "description", VString (lit "Historic victory"));
                 (lit "link", VNull) ]);
      (lit "caption", caption_value cricket_caption);
      (lit "memeUrl", VString (lit "https://i.imgflip.com/abc.jpg")) ].

(** A caption whose template is not one of the catalog. *)
Definition stray_caption : MemeCaption :=
  {| image := Finite false [9; 9; 9] 0;
     topText := lit "top"; bottomText := lit "bottom" |}.

Definition stray_world : World :=
  world (VString (JSON_stringify_caption stray_caption)) rendered_url.

(** The body [{ params: { topic: "cricket" } }]. *)
Definition cricket_in_params : Req :=
  {| query := VObject [];
     body := VObject [ (lit "params",
                        VObject [ (lit "topic", VString (lit "cricket")) ]) ] |}.

Definition empty_body : Req := {| query := VObject []; body := VObject [] |}.

(** The body [{ topic: 5 }]. *)
Definition numeric_topic : Req :=
  {| query := VObject [];
     body := VObject [ (lit "topic", VNumber (Finite false [5] 0)) ] |}.

(** A request for a caption with every field, and one without a list of
    templates. *)
Definition caption_request (availableTemplates : value) : Req :=
  {| query := VObject [];
     body := VObject [ (lit "title", VString (lit "India wins"));
                       (lit "description", VString (lit "Historic victory"));
                       (lit "availableTemplates", availableTemplates) ] |}.

(** The vendor's answer to a render call that it refuses. *)
Definition refused : value :=
  VObject [ (lit "success", VBool false);
            (lit "error_message", VString (lit "No texts specified")) ].

(** Two entries of the catalog, with the id as a string and as a
    number. *)
Definition two_entries : list value :=
  [ VObject [ (lit "id", VString (lit "61579"));
              (lit "name", VString (lit "One Does Not Simply")) ];
    VObject [ (lit "id", VNumber (Finite false [1; 8; 1; 9; 1; 3; 6; 4; 9] 0));
              (lit "name", VString (lit "Drake Hotline Bling")) ] ].

End Cases.

(** * Facts about the string operations *)

Module StringFacts.

Lemma eqb_eq (a b : jsstring) : JsString.eqb a b = true <-> a = b.
Proof.
  revert b; induction a as [|x a IH]; intros [|y b]; simpl; split;
    try congruence; try reflexivity.
  - intros H. apply andb_true_iff in H as [Hx Hab].
    apply N.eqb_eq in Hx. apply IH in Hab. congruence.
  - intros H. injection H as -> ->. rewrite N.eqb_refl. simpl. now apply IH.
Qed.

Lemma is_prefix_app (p q s : jsstring) :
  is_prefix (p ++ q) s = true -> is_prefix p s = true.
Proof.
  revert s; induction p as [|x p IH]; intros s; simpl; [reflexivity|].
  destruct s as [|y s]; [congruence|].
  intros H. apply andb_true_iff in H as [Hx Hp].
  rewrite Hx. simpl. now apply IH.
Qed.

Lemma contains_app (p q s : jsstring) :
  contains (p ++ q) s = true -> contains p s = true.
Proof.
  induction s as [|c s IH]; simpl; intros H;
    apply orb_true_iff in H as [H|H]; apply orb_true_iff.
  - left. now apply is_prefix_app with q.
  - discriminate.
  - left. now apply is_prefix_app with q.
  - right. now apply IH.
Qed.

(** Removing a pattern that does not occur changes nothing. *)
Lemma remove_all_absent (p s : jsstring) :
  contains p s = false -> remove_all p s = s.
Proof.
  unfold remove_all. induction s as [|c s IH]; [reflexivity|].
  intros H. simpl in H. apply orb_false_iff in H as [Hp Hs].
  cbn [remove_all_from]. rewrite Hp. f_equal. now apply IH.
Qed.

Lemma fence_scan_app (a b : jsstring) (n : nat) :
  fence_scan n (a ++ b) =
  match fence_scan n a with
  | Some m => fence_scan m b
  | None => None
  end.
Proof.
  revert n; induction a as [|c a IH]; intros n; simpl; [reflexivity|].
  destruct (c =? backtick); [|apply IH].
  destruct n as [|[|n]]; try apply IH. reflexivity.
Qed.

(** The scan finds a fence exactly when one occurs. *)
Lemma fence_scan_contains (s : jsstring) (n : nat) :
  (n < 3)%nat ->
  fence_scan n s = None <-> contains fence (repeat backtick n ++ s) = true.
Proof.
  revert n; induction s as [|c s IH]; intros n Hn.
  - rewrite app_nil_r. destruct n as [|[|[|n]]]; try lia; simpl; split; discriminate.
  - cbn [fence_scan]. destruct (c =? backtick) eqn:Hc.
    + apply N.eqb_eq in Hc. subst c.
      destruct n as [|[|[|n]]]; try lia.
      * rewrite (IH 1%nat) by lia. reflexivity.
      * rewrite (IH 2%nat) by lia. reflexivity.
      * split; [intros _|reflexivity]. unfold fence, backtick.
        cbn [repeat app contains is_prefix]. now rewrite !N.eqb_refl.
    + rewrite (IH 0%nat) by lia. cbn [repeat app].
      assert (Hb : (backtick =? c) = false) by (rewrite N.eqb_sym; exact Hc).
      unfold fence, backtick in *.
      destruct n as [|[|[|n]]]; try lia;
        cbn [repeat app contains is_prefix]; rewrite ?N.eqb_refl, ?Hb;
        cbn [andb orb]; rewrite ?andb_false_r; reflexivity.
Qed.

Lemma fence_scan_absent (s : jsstring) :
  contains fence s = false <-> fence_scan 0 s <> None.
Proof.
  rewrite (fence_scan_contains s 0) by lia. simpl.
  destruct (contains fence s); split; congruence.
Qed.

Lemma trim_start_head (c : code_unit) (s : jsstring) :
  is_whitespace c = false -> trim_start (c :: s) = c :: s.
Proof. intros H. simpl. now rewrite H. Qed.

Lemma trim_end_last (s : jsstring) (c : code_unit) :
  is_whitespace c = false -> trim_end (s ++ [c]) = s ++ [c].
Proof.
  intros H. induction s as [|x s IH]; simpl.
  - now rewrite H.
  - rewrite IH. destruct (s ++ [c]) eqn:E; [|reflexivity].
    now destruct s.
Qed.

End StringFacts.

(** * Facts about numbers and their literals *)

Module NumberFacts.

Lemma horner_app (a b : list N) (acc : N) :
  horner acc (a ++ b) = horner (horner acc a) b.
Proof. unfold horner. apply fold_left_app. Qed.

Lemma N_digits_from_horner (fuel : nat) :
  forall n acc, n < 2 ^ N.of_nat fuel ->
    horner 0 (N_digits_from fuel n acc) = horner n acc.
Proof.
  induction fuel as [|f IH]; intros n acc Hn.
  - simpl in *. assert (n = 0) by lia. now subst.
  - cbn [N_digits_from]. destruct (n / 10 =? 0) eqn:Hq.
    + apply N.eqb_eq in Hq. unfold horner. cbn [fold_left].
      f_equal. pose proof (N.div_mod n 10). lia.
    + rewrite IH.
      * unfold horner. cbn [fold_left]. f_equal.
        pose proof (N.div_mod n 10). lia.
      * rewrite Nat2N.inj_succ, N.pow_succ_r' in Hn.
        apply N.Div0.div_lt_upper_bound. lia.
Qed.

Lemma N_digits_horner (n : N) : horner 0 (N_digits n) = n.
Proof.
  unfold N_digits. rewrite N_digits_from_horner; [reflexivity|].
  rewrite Nat2N.inj_succ, N2Nat.id.
  destruct n as [|p]; [reflexivity|].
  apply N.log2_spec. lia.
Qed.

Lemma N_digits_from_all (fuel : nat) :
  forall n acc, all_digits acc = true -> all_digits (N_digits_from fuel n acc) = true.
Proof.
  induction fuel as [|f IH]; intros n acc Hacc; [exact Hacc|].
  cbn [N_digits_from].
  assert (H : all_digits (n mod 10 :: acc) = true).
  { unfold all_digits in *. cbn [forallb]. rewrite Hacc, andb_true_r.
    apply N.ltb_lt. apply N.mod_lt. lia. }
  destruct (n / 10 =? 0); [exact H|]. now apply IH.
Qed.

Lemma N_digits_all (n : N) : all_digits (N_digits n) = true.
Proof. unfold N_digits. now apply N_digits_from_all. Qed.

Lemma N_digits_from_cons (fuel : nat) :
  forall n acc, acc <> [] -> N_digits_from fuel n acc <> [].
Proof.
  induction fuel as [|f IH]; intros n acc Hacc; [exact Hacc|].
  cbn [N_digits_from]. destruct (n / 10 =? 0); [discriminate|].
  apply IH. discriminate.
Qed.

Lemma N_digits_cons (n : N) : N_digits n <> [].
Proof.
  unfold N_digits. cbn [N_digits_from].
  destruct (n / 10 =? 0); [discriminate|].
  apply N_digits_from_cons. discriminate.
Qed.

Lemma digit_char_is_digit (d : N) :
  (d <? 10) = true -> is_digit_char (digit_char d) = true.
Proof.
  intros H. apply N.ltb_lt in H. unfold is_digit_char, digit_char.
  apply andb_true_iff. split; apply N.leb_le; lia.
Qed.

Lemma digit_of_digit_char (d : N) : digit_of_char (digit_char d) = d.
Proof. unfold digit_of_char, digit_char. lia. Qed.

Lemma span_digits_stops (rest : jsstring) : stops rest -> span_digits rest = ([], rest).
Proof. destruct rest as [|c r]; simpl; [reflexivity|]. now intros ->. Qed.

Lemma span_digits_map (ds : list N) (rest : jsstring) :
  all_digits ds = true -> stops rest ->
  span_digits (List.map digit_char ds ++ rest) = (ds, rest).
Proof.
  intros Hds Hrest. induction ds as [|d ds IH].
  - now apply span_digits_stops.
  - unfold all_digits in *. cbn [forallb] in Hds.
    apply andb_true_iff in Hds as [Hd Hds].
    cbn [List.map app span_digits].
    rewrite (digit_char_is_digit d Hd), (IH Hds), digit_of_digit_char.
    reflexivity.
Qed.

Lemma all_digits_app (a b : list N) :
  all_digits (a ++ b) = all_digits a && all_digits b.
Proof. unfold all_digits. apply forallb_app. Qed.

Lemma all_digits_zeros (n : nat) : all_digits (repeat 0 n) = true.
Proof. induction n; simpl; auto. Qed.

Lemma map_digit_char_zeros (n : nat) : List.map digit_char (repeat 0 n) = repeat 48 n.
Proof. induction n; simpl; [reflexivity|]. now rewrite IHn. Qed.

Lemma strip_leading_head (d : N) (ds : list N) :
  (d =? 0) = false -> strip_leading_zeros (d :: ds) = d :: ds.
Proof. intros H. simpl. now rewrite H. Qed.

Lemma strip_leading_zeros_repeat (n : nat) (ds : list N) :
  strip_leading_zeros (repeat 0 n ++ ds) = strip_leading_zeros ds.
Proof. induction n; simpl; auto. Qed.

Lemma strip_trailing_last (ds : list N) (d : N) :
  (d =? 0) = false -> strip_trailing_zeros (ds ++ [d]) = ds ++ [d].
Proof.
  intros H. induction ds as [|x ds IH]; simpl.
  - now rewrite H.
  - rewrite IH. destruct (ds ++ [d]) eqn:E; [|reflexivity]. now destruct ds.
Qed.

Lemma strip_trailing_zeros_repeat (ds : list N) (n : nat) :
  strip_trailing_zeros (ds ++ repeat 0 n) = strip_trailing_zeros ds.
Proof.
  induction ds as [|x ds IH]; simpl.
  - induction n; simpl; [reflexivity|]. now rewrite IHn.
  - now rewrite IH.
Qed.

(** A canonical non-zero digit sequence, split at its last digit. *)
Lemma canonical_digits (neg : bool) (d : N) (r : list N) (e : Z) :
  canonical (Finite neg (d :: r) e) = true ->
  all_digits (d :: r) = true /\ (d =? 0) = false /\
  strip_leading_zeros (d :: r) = (d :: r) /\
  strip_trailing_zeros (d :: r) = (d :: r).
Proof.
  unfold canonical. intros H.
  apply andb_true_iff in H as [H Hlast]. apply andb_true_iff in H as [Hall Hd].
  apply negb_true_iff in Hd, Hlast.
  repeat split; auto.
  - now apply strip_leading_head.
  - destruct (exists_last (l := d :: r)) as [l [x E]]; [discriminate|].
    rewrite E in *. rewrite last_last in Hlast. now apply strip_trailing_last.
Qed.

Lemma mk_number_canonical (neg : bool) (d : N) (r : list N) (e : Z) :
  canonical (Finite neg (d :: r) e) = true ->
  mk_number neg (d :: r) e = Finite neg (d :: r) e.
Proof.
  intros H. destruct (canonical_digits _ _ _ _ H) as (_ & _ & Hl & Ht).
  unfold mk_number. rewrite Hl, Ht. f_equal. lia.
Qed.

Lemma parse_int_part_digits (d : N) (ds : list N) (rest : jsstring) :
  (d =? 0) = false -> all_digits (d :: ds) = true -> stops rest ->
  parse_int_part (List.map digit_char (d :: ds) ++ rest) = (d :: ds, rest).
Proof.
  intros Hd Hall Hrest. unfold parse_int_part.
  cbn [List.map app].
  replace (digit_char d =? 48) with false.
  - change (digit_char d :: List.map digit_char ds ++ rest)
      with (List.map digit_char (d :: ds) ++ rest).
    now apply span_digits_map.
  - symmetry. apply N.eqb_neq. apply N.eqb_neq in Hd. unfold digit_char. lia.
Qed.

Lemma parse_frac_part_digits (fs : list N) (rest : jsstring) :
  fs <> [] -> all_digits fs = true -> stops rest ->
  parse_frac_part (46 :: List.map digit_char fs ++ rest) = Some (fs, rest).
Proof.
  intros Hne Hall Hrest. unfold parse_frac_part.
  rewrite N.eqb_refl, span_digits_map by assumption.
  destruct fs; [contradiction|reflexivity].
Qed.

Lemma parse_exponent_signed (x : Z) (rest : jsstring) :
  stops rest ->
  parse_exponent
    (101 :: (if (x <? 0)%Z then [45] else [43])
            ++ N_to_string (Z.to_N (Z.abs x)) ++ rest) = Some (x, rest).
Proof.
  intros Hrest. unfold parse_exponent, N_to_string.
  change ((101 =? 101) || (101 =? 69)) with true. cbv iota.
  assert (Hspan : span_digits (List.map digit_char (N_digits (Z.to_N (Z.abs x))) ++ rest)
                  = (N_digits (Z.to_N (Z.abs x)), rest)).
  { apply span_digits_map; [apply N_digits_all|exact Hrest]. }
  pose proof (N_digits_cons (Z.to_N (Z.abs x))) as Hne.
  pose proof (N_digits_horner (Z.to_N (Z.abs x))) as Hh.
  destruct (x <? 0)%Z eqn:Hx; cbn [app]; cbv beta iota.
  - change (45 =? 45) with true. cbv iota. rewrite Hspan.
    destruct (N_digits (Z.to_N (Z.abs x))) as [|a l] eqn:E; [contradiction|].
    rewrite Hh. f_equal. f_equal. apply Z.ltb_lt in Hx. lia.
  - change (43 =? 45) with false. change (43 =? 43) with true. cbv iota.
    rewrite Hspan.
    destruct (N_digits (Z.to_N (Z.abs x))) as [|a l] eqn:E; [contradiction|].
    rewrite Hh. f_equal. f_equal. apply Z.ltb_ge in Hx. lia.
Qed.

Lemma mk_number_pad (neg : bool) (d : N) (r : list N) (e x : Z) (z t : nat) :
  canonical (Finite neg (d :: r) e) = true ->
  mk_number neg (repeat 0 z ++ (d :: r) ++ repeat 0 t) x
  = Finite neg (d :: r) (x + Z.of_nat t).
Proof.
  intros H. destruct (canonical_digits _ _ _ _ H) as (_ & Hd & _ & Ht).
  unfold mk_number. rewrite strip_leading_zeros_repeat.
  change ((d :: r) ++ repeat 0 t) with (d :: (r ++ repeat 0 t)).
  rewrite (strip_leading_head _ _ Hd).
  change (d :: (r ++ repeat 0 t)) with ((d :: r) ++ repeat 0 t).
  rewrite strip_trailing_zeros_repeat, Ht.
  destruct ((d :: r) ++ repeat 0 t) eqn:E; [discriminate|]. rewrite <- E.
  f_equal. rewrite length_app, repeat_length. lia.
Qed.

Lemma mk_number_lead (neg : bool) (d : N) (r : list N) (e x : Z) (z : nat) :
  canonical (Finite neg (d :: r) e) = true ->
  mk_number neg (repeat 0 z ++ d :: r) x = Finite neg (d :: r) x.
Proof.
  intros H. rewrite <- (app_nil_r (d :: r)) at 1.
  change (@nil N) with (repeat 0 0) at 1.
  rewrite (mk_number_pad neg d r e) by exact H. f_equal. simpl. lia.
Qed.

Lemma mk_number_exact (neg : bool) (d : N) (r : list N) (e x : Z) :
  canonical (Finite neg (d :: r) e) = true ->
  mk_number neg (d :: r) x = Finite neg (d :: r) x.
Proof. intros H. apply (mk_number_lead neg d r e x 0 H). Qed.

Ltac side := solve [assumption | discriminate | reflexivity].

Lemma stops_comma (rest : jsstring) : stops (44 :: rest).
Proof. reflexivity. Qed.

(** The text Number::toString writes for a positive canonical number is
    read back as the number, up to the comma that follows it. *)
Lemma parse_unsigned_toString (neg : bool) (d : N) (r : list N) (e : Z)
      (rest : jsstring) :
  canonical (Finite neg (d :: r) e) = true ->
  parse_unsigned neg (Number_toString (Finite false (d :: r) e) ++ 44 :: rest)
  = Some (Finite neg (d :: r) e, 44 :: rest).
Proof.
  intros Hc. destruct (canonical_digits _ _ _ _ Hc) as (Hall & Hd & _ & _).
  pose proof (stops_comma rest) as Hstop.
  unfold Number_toString.
  change (if false then lit "-" else []) with (@nil code_unit).
  cbn [app].
  set (k := Z.of_nat (List.length (d :: r))).
  set (n := (k + e)%Z).
  assert (Hk : (k = Z.of_nat (List.length (d :: r)))%Z) by reflexivity.
  assert (Hn : (n = k + e)%Z) by reflexivity.
  clearbody k n.
  destruct ((-5 <=? n)%Z && (n <=? 21)%Z) eqn:Hrange.
  - destruct (k <=? n)%Z eqn:Hkn.
    + (* digits, then zeros *)
      apply Z.leb_le in Hkn.
      rewrite <- map_digit_char_zeros, <- List.map_app.
      change ((d :: r) ++ repeat 0 (Z.to_nat (n - k)))
        with (d :: (r ++ repeat 0 (Z.to_nat (n - k)))).
      unfold parse_unsigned. rewrite parse_int_part_digits; try side.
      2:{ change (d :: (r ++ repeat 0 (Z.to_nat (n - k))))
            with ((d :: r) ++ repeat 0 (Z.to_nat (n - k))).
          rewrite all_digits_app, Hall. apply all_digits_zeros. }
      change (parse_frac_part (44 :: rest)) with (Some (@nil N, 44 :: rest)).
      change (parse_exponent (44 :: rest)) with (Some (0%Z, 44 :: rest)).
      cbv iota beta. f_equal. f_equal. rewrite app_nil_r.
      change (d :: (r ++ repeat 0 (Z.to_nat (n - k))))
        with (repeat 0 0 ++ (d :: r) ++ repeat 0 (Z.to_nat (n - k))).
      rewrite (mk_number_pad neg d r e) by exact Hc.
      f_equal. cbn [List.length]. lia.
    + apply Z.leb_gt in Hkn. destruct (0 <? n)%Z eqn:Hpos.
      * (* the point falls inside the digits *)
        apply Z.ltb_lt in Hpos.
        rewrite firstn_map, skipn_map.
        pose proof (firstn_skipn (Z.to_nat n) (d :: r)) as Hsplit.
        assert (Hlen : List.length (skipn (Z.to_nat n) (d :: r))
                       = (List.length (d :: r) - Z.to_nat n)%nat)
          by apply length_skipn.
        assert (Hall' : all_digits (firstn (Z.to_nat n) (d :: r)) = true
                        /\ all_digits (skipn (Z.to_nat n) (d :: r)) = true).
        { rewrite <- Hsplit, all_digits_app in Hall.
          now apply andb_true_iff in Hall. }
        destruct Hall' as [Ha Hb].
        destruct (Z.to_nat n) as [|m] eqn:Em; [lia|].
        cbn [firstn] in *.
        destruct (skipn (S m) (d :: r)) as [|b bs] eqn:Eb.
        { cbn [List.length] in *. lia. }
        unfold parse_unsigned.
        change (lit ".") with [46]. cbn [app].
        rewrite <- app_assoc. cbn [app].
        rewrite parse_int_part_digits; try side.
        rewrite parse_frac_part_digits; try side.
        change (parse_exponent (44 :: rest)) with (Some (0%Z, 44 :: rest)).
        cbv iota beta. f_equal. f_equal. rewrite Hsplit.
        rewrite (mk_number_exact neg d r e) by exact Hc.
        f_equal. cbn [List.length] in *. lia.
      * (* zero, the point, zeros, the digits *)
        apply Z.ltb_ge in Hpos.
        change (lit "0.") with [48; 46]. cbn [app].
        rewrite <- map_digit_char_zeros, <- List.map_app.
        unfold parse_unsigned.
        cbn [parse_int_part]. change (48 =? 48) with true. cbv iota.
        rewrite parse_frac_part_digits; try side.
        2:{ destruct (repeat 0 (Z.to_nat (- n))); discriminate. }
        2:{ rewrite all_digits_app, Hall, all_digits_zeros. reflexivity. }
        change (parse_exponent (44 :: rest)) with (Some (0%Z, 44 :: rest)).
        cbv iota beta. f_equal. f_equal.
        change ([0] ++ repeat 0 (Z.to_nat (- n)) ++ d :: r)
          with (repeat 0 (S (Z.to_nat (- n))) ++ (d :: r)).
        rewrite (mk_number_lead neg d r e) by exact Hc.
        f_equal. rewrite length_app, repeat_length. cbn [List.length] in *. lia.
  - (* exponential notation *)
    cbv zeta.
    change (lit "e") with [101]. change (lit "-") with [45].
    change (lit "+") with [43]. change (lit ".") with [46].
    match goal with
    | |- context [@app ?T [101] ?x] => set (tail := @app T [101] x)
    end.
    assert (Hexp : parse_exponent (tail ++ 44 :: rest) = Some ((n - 1)%Z, 44 :: rest)).
    { unfold tail. rewrite <- !app_assoc. cbn [app].
      now apply parse_exponent_signed. }
    assert (Htail : stops (tail ++ 44 :: rest)) by reflexivity.
    assert (Hfrac : parse_frac_part (tail ++ 44 :: rest)
                    = Some ([], tail ++ 44 :: rest)) by reflexivity.
    clearbody tail.
    destruct r as [|r0 r].
    + unfold parse_unsigned. cbn [app].
      change (digit_char d :: tail ++ 44 :: rest)
        with (List.map digit_char [d] ++ tail ++ 44 :: rest).
      rewrite parse_int_part_digits; try side.
      rewrite Hfrac, Hexp. cbv iota beta. f_equal. f_equal.
      change ([d] ++ []) with [d].
      rewrite (mk_number_exact neg d [] e) by exact Hc.
      f_equal. cbn [List.length] in *. lia.
    + unfold parse_unsigned. cbn [app]. rewrite <- app_assoc.
      change (digit_char d :: 46 :: List.map digit_char (r0 :: r) ++ tail ++ 44 :: rest)
        with (List.map digit_char [d]
              ++ 46 :: List.map digit_char (r0 :: r) ++ tail ++ 44 :: rest).
      assert (Hr : all_digits [d] = true /\ all_digits (r0 :: r) = true).
      { change (d :: r0 :: r) with ([d] ++ r0 :: r) in Hall.
        rewrite all_digits_app in Hall. now apply andb_true_iff in Hall. }
      destruct Hr as [Hd1 Hr].
      rewrite parse_int_part_digits; try side.
      rewrite parse_frac_part_digits; try side.
      rewrite Hexp. cbv iota beta. f_equal. f_equal.
      change ([d] ++ r0 :: r) with (d :: r0 :: r).
      rewrite (mk_number_exact neg d (r0 :: r) e) by exact Hc.
      f_equal. cbn [List.length] in *. lia.
Qed.

Lemma Number_toString_sign (neg : bool) (d : N) (r : list N) (e : Z) :
  Number_toString (Finite neg (d :: r) e)
  = (if neg then [45] else []) ++ Number_toString (Finite false (d :: r) e).
Proof. destruct neg; reflexivity. Qed.

(** The text of a positive number starts with a digit. *)
Lemma Number_toString_head (d : N) (r : list N) (e : Z) :
  exists c u, Number_toString (Finite false (d :: r) e) = c :: u
              /\ (c =? 45) = false.
Proof.
  assert (Hd : (digit_char d =? 45) = false).
  { apply N.eqb_neq. unfold digit_char. lia. }
  unfold Number_toString.
  change (if false then lit "-" else []) with (@nil code_unit).
  cbv zeta. cbn [app List.map].
  destruct ((-5 <=? _)%Z && _).
  - destruct (_ <=? _)%Z; [eauto|].
    destruct (0 <? _)%Z eqn:Hpos.
    + apply Z.ltb_lt in Hpos.
      destruct (Z.to_nat _) eqn:E; [lia|]. cbn [firstn app]. eauto.
    + change (lit "0.") with [48; 46]. cbn [app]. eauto.
  - destruct r; eauto.
Qed.

(** Reading back what Number::toString wrote, for every finite number
    but negative zero. *)
Lemma parse_json_number_toString (x : number) (rest : jsstring) :
  is_finite x = true -> canonical x = true -> is_negative_zero x = false ->
  parse_json_number (Number_toString x ++ 44 :: rest) = Some (x, 44 :: rest).
Proof.
  intros Hfin Hcan Hnz. destruct x as [| |neg [|d r] e]; try discriminate.
  - simpl in Hcan. apply Z.eqb_eq in Hcan. subst e.
    destruct neg; [discriminate|]. reflexivity.
  - rewrite Number_toString_sign. unfold parse_json_number.
    destruct neg.
    + cbn [app parse_sign]. change (45 =? 45) with true. cbv iota.
      now apply parse_unsigned_toString.
    + cbn [app].
      destruct (Number_toString_head d r e) as (c & u & Hu & Hc).
      pose proof (parse_unsigned_toString false d r e rest Hcan) as Hp.
      rewrite Hu in *. cbn [app parse_sign]. rewrite Hc. exact Hp.
Qed.

End NumberFacts.

(** * Facts about JSON text *)

Module JsonFacts.

Lemma radix_digit_hex_char (d : N) :
  d < 16 -> radix_digit 16 (hex_char d) = Some d.
Proof.
  intros H. unfold radix_digit, hex_char.
  destruct (d <? 10) eqn:E.
  - apply N.ltb_lt in E.
    replace ((48 <=? 48 + d) && (48 + d <=? 57)) with true.
    + replace (48 + d - 48) with d by lia.
      replace (d <? 16) with true; [reflexivity|].
      symmetry. apply N.ltb_lt. lia.
    + symmetry. apply andb_true_iff. split; apply N.leb_le; lia.
  - apply N.ltb_ge in E.
    replace ((48 <=? 87 + d) && (87 + d <=? 57)) with false.
    + replace ((97 <=? 87 + d) && (87 + d <=? 102)) with true.
      * replace (87 + d - 87) with d by lia.
        replace (d <? 16) with true; [reflexivity|].
        symmetry. apply N.ltb_lt. lia.
      * symmetry. apply andb_true_iff. split; apply N.leb_le; lia.
    + symmetry. apply andb_false_iff. right. apply N.leb_gt. lia.
Qed.

Lemma hex4_unicode_escape (c : code_unit) :
  c < 65536 ->
  hex4 (hex_char (c / 4096)) (hex_char ((c / 256) mod 16))
       (hex_char ((c / 16) mod 16)) (hex_char (c mod 16)) = Some c.
Proof.
  intros H. unfold hex4.
  rewrite !radix_digit_hex_char.
  - f_equal.
    pose proof (N.div_mod c 16 ltac:(lia)) as H1.
    pose proof (N.div_mod (c / 16) 16 ltac:(lia)) as H2.
    pose proof (N.div_mod (c / 256) 16 ltac:(lia)) as H3.
    rewrite N.Div0.div_div in H2. change (16 * 16) with 256 in H2.
    rewrite N.Div0.div_div in H3. change (256 * 16) with 4096 in H3.
    lia.
  - apply N.mod_lt. lia.
  - apply N.mod_lt. lia.
  - apply N.mod_lt. lia.
  - apply N.Div0.div_lt_upper_bound. lia.
Qed.

Lemma parse_unicode_escape (c : code_unit) (t : jsstring) :
  c < 65536 -> parse_string_body (unicode_escape c ++ t) = read_after c t.
Proof.
  intros H. unfold unicode_escape. cbn [app parse_string_body].
  change (92 =? 34) with false. change (92 =? 92) with true.
  change (117 =? 117) with true. cbv iota.
  now rewrite hex4_unicode_escape.
Qed.

Lemma parse_raw_unit (c : code_unit) (t : jsstring) :
  (c =? 34) = false -> (c =? 92) = false -> (c <? 32) = false ->
  parse_string_body (c :: t) = read_after c t.
Proof. intros H1 H2 H3. cbn [parse_string_body]. now rewrite H1, H2, H3. Qed.

Lemma parse_quote_unit (c : code_unit) (t : jsstring) :
  parse_string_body (quote_unit c ++ t) = read_after c t.
Proof.
  unfold quote_unit.
  repeat match goal with
         | |- context [if ?a =? ?b then _ else _] =>
             destruct (a =? b) eqn:?
         end;
    try (match goal with H : (c =? _) = true |- _ => apply N.eqb_eq in H; subst c end;
         reflexivity).
  destruct (c <? 32) eqn:Hlt.
  - apply parse_unicode_escape. apply N.ltb_lt in Hlt. lia.
  - now apply parse_raw_unit.
Qed.

Lemma surrogate_raw (c : code_unit) :
  is_high_surrogate c || is_low_surrogate c = true ->
  (c =? 34) = false /\ (c =? 92) = false /\ (c <? 32) = false /\ c < 65536.
Proof.
  unfold is_high_surrogate, is_low_surrogate. intros H.
  assert (55296 <= c <= 57343).
  { apply orb_true_iff in H as [H|H]; apply andb_true_iff in H as [H1 H2];
      apply N.leb_le in H1, H2; lia. }
  repeat split; try (apply N.eqb_neq; lia); try (apply N.ltb_ge; lia); lia.
Qed.

(** A quoted string is read back as the string. *)
Lemma parse_string_body_quote (s rest : jsstring) :
  parse_string_body (quote_units s ++ dquote :: rest) = Some (s, rest).
Proof.
  remember (List.length s) as n eqn:Hn.
  revert s Hn. induction n as [n IH] using lt_wf_ind. intros s Hn.
  destruct s as [|c r]; [reflexivity|].
  cbn [quote_units].
  destruct (is_high_surrogate c) eqn:Hh.
  - destruct (surrogate_raw c) as (H1 & H2 & H3 & H4); [now rewrite Hh|].
    destruct r as [|d r'].
    + rewrite parse_unicode_escape by exact H4. reflexivity.
    + destruct (is_low_surrogate d) eqn:Hl.
      * destruct (surrogate_raw d) as (G1 & G2 & G3 & _);
          [now rewrite Hl, orb_true_r|].
        cbn [app]. rewrite parse_raw_unit by assumption. unfold read_after.
        rewrite parse_raw_unit by assumption. unfold read_after.
        rewrite (IH (List.length r')); [reflexivity| |reflexivity].
        subst n. simpl. lia.
      * rewrite <- app_assoc, parse_unicode_escape by exact H4.
        unfold read_after.
        rewrite (IH (List.length (d :: r'))); [reflexivity| |reflexivity].
        subst n. simpl. lia.
  - destruct (is_low_surrogate c) eqn:Hl.
    + destruct (surrogate_raw c) as (_ & _ & _ & H4);
        [now rewrite Hl, orb_true_r|].
      rewrite <- app_assoc, parse_unicode_escape by exact H4.
      unfold read_after.
      rewrite (IH (List.length r)); [reflexivity| |reflexivity].
      subst n. simpl. lia.
    + rewrite <- app_assoc, parse_quote_unit. unfold read_after.
      rewrite (IH (List.length r)); [reflexivity| |reflexivity].
      subst n. simpl. lia.
Qed.

(** ** Fuel *)

Lemma skip_ws_length (s : jsstring) :
  (List.length (skip_ws s) <= List.length s)%nat.
Proof.
  induction s as [|c s IH]; simpl; [lia|].
  destruct (is_json_ws c); simpl; lia.
Qed.

Lemma parse_string_body_length (s : jsstring) :
  forall str rest, parse_string_body s = Some (str, rest) ->
                   (List.length rest < List.length s)%nat.
Proof.
  remember (List.length s) as n eqn:Hn. revert s Hn.
  induction n as [n IH] using lt_wf_ind. intros s Hn str rest.
  destruct s as [|c r]; [discriminate|]. cbn [parse_string_body].
  destruct (c =? 34); [intros H; injection H as <- <-; subst n; simpl; lia|].
  destruct (c =? 92).
  - destruct r as [|e r1]; [discriminate|].
    destruct (e =? 117).
    + destruct r1 as [|h1 [|h2 [|h3 [|h4 r2]]]]; try discriminate.
      destruct (hex4 h1 h2 h3 h4); [|discriminate].
      destruct (parse_string_body r2) as [[str' rest']|] eqn:E; [|discriminate].
      intros H. injection H as <- <-.
      apply (IH (List.length r2)) in E; [|subst n; simpl; lia|reflexivity].
      subst n. simpl. lia.
    + destruct (simple_escape e); [|discriminate].
      destruct (parse_string_body r1) as [[str' rest']|] eqn:E; [|discriminate].
      intros H. injection H as <- <-.
      apply (IH (List.length r1)) in E; [|subst n; simpl; lia|reflexivity].
      subst n. simpl. lia.
  - destruct (c <? 32); [discriminate|].
    destruct (parse_string_body r) as [[str' rest']|] eqn:E; [|discriminate].
    intros H. injection H as <- <-.
    apply (IH (List.length r)) in E; [|subst n; simpl; lia|reflexivity].
    subst n. simpl. lia.
Qed.

Lemma span_digits_length (s : jsstring) :
  forall ds rest, span_digits s = (ds, rest) ->
                  (List.length ds + List.length rest = List.length s)%nat.
Proof.
  induction s as [|c s IH]; intros ds rest; cbn [span_digits].
  - intros H. injection H as <- <-. reflexivity.
  - destruct (is_digit_char c).
    + destruct (span_digits s) as [ds' rest']. intros H. injection H as <- <-.
      specialize (IH _ _ eq_refl). simpl. lia.
    + intros H. injection H as <- <-. reflexivity.
Qed.

Lemma parse_exponent_length (s : jsstring) :
  forall x rest, parse_exponent s = Some (x, rest) ->
                 (List.length rest <= List.length s)%nat.
Proof.
  intros x rest. unfold parse_exponent.
  destruct s as [|c s1]; [intros H; injection H as <- <-; lia|].
  destruct ((c =? 101) || (c =? 69));
    [|intros H; injection H as <- <-; lia].
  destruct s1 as [|g s1'].
  - cbn. discriminate.
  - destruct (g =? 45); [|destruct (g =? 43)];
      (destruct (span_digits _) as [[|d ds] rest'] eqn:Es; [discriminate|];
       apply span_digits_length in Es;
       intros H; injection H as <- <-; simpl in *; lia).
Qed.

Lemma parse_json_number_length (s : jsstring) :
  forall x rest, parse_json_number s = Some (x, rest) ->
                 (List.length rest < List.length s)%nat.
Proof.
  intros x rest. unfold parse_json_number, parse_unsigned.
  destruct (parse_sign s) as [neg s1] eqn:Esign.
  assert (Hs1 : (List.length s1 <= List.length s)%nat).
  { unfold parse_sign in Esign. destruct s as [|c r];
      [injection Esign as <- <-; lia|].
    destruct (c =? 45); injection Esign as <- <-; simpl; lia. }
  destruct (parse_int_part s1) as [[|d ds] s2] eqn:Eint; [discriminate|].
  assert (Hs2 : (List.length s2 < List.length s1)%nat).
  { unfold parse_int_part in Eint. destruct s1 as [|c r]; [discriminate|].
    destruct (c =? 48).
    - injection Eint as <- <- <-. simpl. lia.
    - apply span_digits_length in Eint. simpl in *. lia. }
  destruct (parse_frac_part s2) as [[frac s3]|] eqn:Efrac; [|discriminate].
  assert (Hs3 : (List.length s3 <= List.length s2)%nat).
  { unfold parse_frac_part in Efrac.
    destruct s2 as [|c r]; [injection Efrac as <- <-; lia|].
    destruct (c =? 46); [|injection Efrac as <- <-; lia].
    destruct (span_digits r) as [[|f fs] r'] eqn:Es; [discriminate|].
    injection Efrac as <- <-. apply span_digits_length in Es. simpl in *. lia. }
  destruct (parse_exponent s3) as [[y s4]|] eqn:Eexp; [|discriminate].
  apply parse_exponent_length in Eexp.
  intros H. injection H as <- <-. lia.
Qed.

Lemma is_prefix_length (p s : jsstring) :
  is_prefix p s = true -> (List.length p <= List.length s)%nat.
Proof.
  revert s. induction p as [|x p IH]; intros [|y s]; simpl; try lia;
    try discriminate.
  intros H. apply andb_true_iff in H as [_ H]. apply IH in H. lia.
Qed.

Lemma parse_fuel (fuel : nat) :
  (forall s, (2 * List.length s < fuel)%nat -> progress s (parse_value fuel s))
  /\ (forall s, (2 * List.length s + 1 < fuel)%nat ->
                progress s (parse_elements fuel s))
  /\ (forall s, (2 * List.length s + 1 < fuel)%nat ->
                progress s (parse_members fuel s)).
Proof.
  induction fuel as [|f (IHv & IHe & IHm)];
    [repeat split; intros; lia|].
  repeat split; intros s Hf.
  - (* a value *)
    cbn [parse_value]. pose proof (skip_ws_length s) as Hs.
    destruct (skip_ws s) as [|c r]; [exact I|]. cbn [List.length] in Hs.
    destruct (c =? 123).
    { pose proof (skip_ws_length r) as Hr.
      destruct (skip_ws r) as [|c' r']; [exact I|]. cbn [List.length] in Hr.
      destruct (c' =? 125); [cbn; lia|].
      specialize (IHm (c' :: r')). cbn [List.length] in IHm.
      destruct (parse_members f (c' :: r')); cbn in *;
        [specialize (IHm ltac:(lia)); lia | exact I | apply IHm; lia]. }
    destruct (c =? 91).
    { pose proof (skip_ws_length r) as Hr.
      destruct (skip_ws r) as [|c' r']; [exact I|]. cbn [List.length] in Hr.
      destruct (c' =? 93); [cbn; lia|].
      specialize (IHe (c' :: r')). cbn [List.length] in IHe.
      destruct (parse_elements f (c' :: r')); cbn in *;
        [specialize (IHe ltac:(lia)); lia | exact I | apply IHe; lia]. }
    destruct (c =? 34).
    { destruct (parse_string_body r) as [[str rest]|] eqn:E; [|exact I].
      apply parse_string_body_length in E. cbn. lia. }
    destruct (is_prefix (lit "true") (c :: r)) eqn:Et.
    { apply is_prefix_length in Et. cbn in Et |- *.
      rewrite length_skipn. cbn [List.length]. lia. }
    destruct (is_prefix (lit "false") (c :: r)) eqn:Ef.
    { apply is_prefix_length in Ef. cbn in Ef |- *.
      rewrite length_skipn. cbn [List.length]. lia. }
    destruct (is_prefix (lit "null") (c :: r)) eqn:En.
    { apply is_prefix_length in En. cbn in En |- *.
      rewrite length_skipn. cbn [List.length]. lia. }
    destruct (parse_json_number (c :: r)) as [[x rest]|] eqn:E; [|exact I].
    apply parse_json_number_length in E. cbn in *. lia.
  - (* the elements of an array *)
    cbn [parse_elements]. specialize (IHv s ltac:(lia)).
    destruct (parse_value f s) as [v r| |]; cbn in IHv; [|exact I|exact IHv].
    pose proof (skip_ws_length r) as Hr.
    destruct (skip_ws r) as [|c r']; [exact I|]. cbn [List.length] in Hr.
    destruct (c =? 44).
    { specialize (IHe r' ltac:(lia)).
      destruct (parse_elements f r'); cbn in *; [lia|exact I|exact IHe]. }
    destruct (c =? 93); cbn; [lia|exact I].
  - (* the members of an object *)
    cbn [parse_members]. pose proof (skip_ws_length s) as Hs.
    destruct (skip_ws s) as [|q r]; [exact I|]. cbn [List.length] in Hs.
    destruct (q =? 34); [|exact I].
    destruct (parse_string_body r) as [[k r1]|] eqn:E; [|exact I].
    apply parse_string_body_length in E.
    pose proof (skip_ws_length r1) as Hr1.
    destruct (skip_ws r1) as [|colon r2]; [exact I|]. cbn [List.length] in Hr1.
    destruct (colon =? 58); [|exact I].
    specialize (IHv r2 ltac:(lia)).
    destruct (parse_value f r2) as [v r3| |]; cbn in IHv; [|exact I|exact IHv].
    pose proof (skip_ws_length r3) as Hr3.
    destruct (skip_ws r3) as [|c r4]; [exact I|]. cbn [List.length] in Hr3.
    destruct (c =? 44).
    { specialize (IHm r4 ltac:(lia)).
      destruct (parse_members f r4); cbn in *; [lia|exact I|exact IHm]. }
    destruct (c =? 125); cbn; [lia|exact I].
Qed.

(** [JSON_parse] gives its parser enough fuel: the parser either
    returns a value or finds the text malformed. *)
Lemma JSON_parse_fuel (text : jsstring) :
  parse_value (fuel_for text) text <> OutOfFuel.
Proof.
  destruct (parse_fuel (fuel_for text)) as (Hv & _ & _).
  specialize (Hv text ltac:(unfold fuel_for; lia)).
  intros E. now rewrite E in Hv.
Qed.

(** ** Fences in serialised text *)

Lemma no_backtick_app (a b : jsstring) :
  no_backtick (a ++ b) = no_backtick a && no_backtick b.
Proof. apply forallb_app. Qed.

Lemma fence_scan_no_backtick (a t : jsstring) (n : nat) :
  a <> [] -> no_backtick a = true -> fence_scan n (a ++ t) = fence_scan 0 t.
Proof.
  revert n. induction a as [|c a IH]; intros n Hne Ha; [contradiction|].
  unfold no_backtick in Ha. cbn [forallb] in Ha.
  apply andb_true_iff in Ha as [Hc Ha]. apply negb_true_iff in Hc.
  cbn [app fence_scan]. rewrite Hc.
  destruct a as [|c' a']; [reflexivity|].
  apply IH; [discriminate|exact Ha].
Qed.

Lemma hex_char_no_backtick (d : N) : (hex_char d =? backtick) = false.
Proof.
  unfold hex_char, backtick. apply N.eqb_neq.
  destruct (d <? 10) eqn:E; [apply N.ltb_lt in E|apply N.ltb_ge in E]; lia.
Qed.

Lemma unicode_escape_no_backtick (c : code_unit) :
  no_backtick (unicode_escape c) = true.
Proof.
  unfold unicode_escape, no_backtick. cbn [forallb].
  rewrite !hex_char_no_backtick. reflexivity.
Qed.

Lemma fence_scan_quote_unit (c : code_unit) (t : jsstring) (n : nat) :
  fence_scan n (quote_unit c ++ t) = fence_scan n (c :: t).
Proof.
  unfold quote_unit.
  repeat match goal with
         | |- context [if ?a =? ?b then _ else _] =>
             destruct (a =? b) eqn:?
         end;
    try (match goal with H : (c =? _) = true |- _ => apply N.eqb_eq in H; subst c end;
         reflexivity).
  destruct (c <? 32) eqn:Hlt; [|reflexivity].
  rewrite fence_scan_no_backtick;
    [|discriminate|apply unicode_escape_no_backtick].
  cbn [fence_scan]. replace (c =? backtick) with false; [reflexivity|].
  symmetry. apply N.eqb_neq. apply N.ltb_lt in Hlt. unfold backtick. lia.
Qed.

Lemma fence_scan_surrogate_escape (c : code_unit) (t : jsstring) (n : nat) :
  is_high_surrogate c || is_low_surrogate c = true ->
  fence_scan n (unicode_escape c ++ t) = fence_scan n (c :: t).
Proof.
  intros H. rewrite fence_scan_no_backtick;
    [|discriminate|apply unicode_escape_no_backtick].
  cbn [fence_scan]. replace (c =? backtick) with false; [reflexivity|].
  symmetry. apply N.eqb_neq.
  unfold is_high_surrogate, is_low_surrogate, backtick in *.
  apply orb_true_iff in H as [H|H]; apply andb_true_iff in H as [H1 H2];
    apply N.leb_le in H1, H2; lia.
Qed.

(** Quoting neither makes nor breaks a fence. *)
Lemma fence_scan_quote_units (s t : jsstring) :
  forall n, fence_scan n (quote_units s ++ t) = fence_scan n (s ++ t).
Proof.
  remember (List.length s) as m eqn:Hm.
  revert s Hm. induction m as [m IH] using lt_wf_ind. intros s Hm n.
  destruct s as [|c r]; [reflexivity|].
  cbn [quote_units].
  assert (Hr : forall k, fence_scan k (quote_units r ++ t) = fence_scan k (r ++ t)).
  { apply (IH (List.length r)); [subst m; simpl; lia|reflexivity]. }
  assert (Hcons : forall k x, fence_scan k (x :: quote_units r ++ t)
                              = fence_scan k (x :: r ++ t)).
  { intros k x. cbn [fence_scan].
    destruct (x =? backtick); [destruct k as [|[|k]]|]; now rewrite ?Hr. }
  destruct (is_high_surrogate c) eqn:Hh.
  - destruct r as [|d r'].
    + rewrite fence_scan_surrogate_escape by now rewrite Hh. reflexivity.
    + destruct (is_low_surrogate d) eqn:Hl.
      * assert (Hr' : forall k, fence_scan k (quote_units r' ++ t)
                                = fence_scan k (r' ++ t)).
        { apply (IH (List.length r')); [subst m; simpl; lia|reflexivity]. }
        cbn [app fence_scan].
        destruct (c =? backtick), (d =? backtick); destruct n as [|[|n]];
          now rewrite ?Hr'.
      * rewrite <- app_assoc, fence_scan_surrogate_escape by now rewrite Hh.
        apply Hcons.
  - destruct (is_low_surrogate c) eqn:Hl.
    + rewrite <- app_assoc, fence_scan_surrogate_escape
        by now rewrite Hl, orb_true_r.
      apply Hcons.
    + rewrite <- app_assoc, fence_scan_quote_unit. apply Hcons.
Qed.

(** After a quoted fence-free string the scan starts afresh. *)
Lemma fence_scan_quoted (s t : jsstring) (n : nat) :
  contains fence s = false ->
  fence_scan n (QuoteJSONString s ++ t) = fence_scan 0 t.
Proof.
  intros H. apply StringFacts.fence_scan_absent in H.
  unfold QuoteJSONString. cbn [app fence_scan].
  change (dquote =? backtick) with false. cbv iota.
  rewrite <- app_assoc, fence_scan_quote_units, StringFacts.fence_scan_app.
  destruct (fence_scan 0 s); [reflexivity|contradiction].
Qed.

Lemma no_backtick_digits (ds : list N) :
  all_digits ds = true -> no_backtick (List.map digit_char ds) = true.
Proof.
  unfold all_digits, no_backtick. induction ds as [|d ds IH]; [reflexivity|].
  cbn [forallb List.map]. intros H. apply andb_true_iff in H as [Hd Hds].
  rewrite (IH Hds), andb_true_r. apply negb_true_iff, N.eqb_neq.
  apply N.ltb_lt in Hd. unfold digit_char, backtick. lia.
Qed.

Lemma no_backtick_split (s : jsstring) (n : nat) :
  no_backtick s = true ->
  no_backtick (firstn n s) = true /\ no_backtick (skipn n s) = true.
Proof.
  intros H. rewrite <- (firstn_skipn n s), no_backtick_app in H.
  now apply andb_true_iff in H.
Qed.

Lemma no_backtick_zeros (n : nat) : no_backtick (repeat 48 n) = true.
Proof. induction n; [reflexivity|]. simpl. exact IHn. Qed.

Lemma Number_toString_no_backtick (x : number) :
  canonical x = true -> no_backtick (Number_toString x) = true.
Proof.
  intros Hc. destruct x as [|neg|neg [|d r] e]; try reflexivity.
  - destruct neg; reflexivity.
  - destruct (NumberFacts.canonical_digits _ _ _ _ Hc) as (Hall & _).
    pose proof (no_backtick_digits _ Hall) as Hs.
    rewrite NumberFacts.Number_toString_sign, no_backtick_app.
    apply andb_true_iff. split; [destruct neg; reflexivity|].
    unfold Number_toString.
    change (if false then lit "-" else []) with (@nil code_unit).
    cbv zeta. cbn [app].
    destruct ((-5 <=? _)%Z && _).
    + destruct (_ <=? _)%Z.
      * rewrite no_backtick_app, Hs. apply no_backtick_zeros.
      * destruct (0 <? _)%Z.
        -- destruct (no_backtick_split _ (Z.to_nat (Z.of_nat (List.length (d :: r)) + e)) Hs)
             as [Ha Hb].
           now rewrite !no_backtick_app, Ha, Hb.
        -- now rewrite !no_backtick_app, Hs, no_backtick_zeros.
    + assert (Ht : forall y,
                 no_backtick (lit "e" ++ (if (y <? 0)%Z then lit "-" else lit "+")
                              ++ N_to_string (Z.to_N (Z.abs y))) = true).
      { intros y. rewrite !no_backtick_app. unfold N_to_string.
        rewrite (no_backtick_digits _ (NumberFacts.N_digits_all _)).
        destruct (y <? 0)%Z; reflexivity. }
      cbn [List.map] in Hs.
      change (digit_char d :: List.map digit_char r)
        with ([digit_char d] ++ List.map digit_char r) in Hs.
      rewrite no_backtick_app in Hs. apply andb_true_iff in Hs as [Hd Hr].
      destruct r as [|r0 r].
      * change (digit_char d :: ?t) with ([digit_char d] ++ t).
        now rewrite no_backtick_app, Hd, Ht.
      * change (digit_char d :: ?t) with ([digit_char d] ++ t).
        rewrite (no_backtick_app [digit_char d]), Hd.
        rewrite (no_backtick_app (lit ".")).
        rewrite (no_backtick_app (List.map digit_char (r0 :: r))), Hr, Ht.
        reflexivity.
Qed.

(** The serialisation of a caption holds a fence only where a text
    field does. *)
Lemma stringify_no_fence (c : MemeCaption) :
  canonical (image c) = true ->
  contains fence (topText c) = false ->
  contains fence (bottomText c) = false ->
  contains fence (JSON_stringify_caption c) = false.
Proof.
  intros Hc Ht Hb. apply StringFacts.fence_scan_absent.
  unfold JSON_stringify_caption.
  change (lit "{") with [123]. change (lit ":") with [58].
  change (lit ",") with [44]. change (lit "}") with [125].
  assert (Hnum : forall t n, fence_scan n (stringify_number (image c) ++ 44 :: t)
                             = fence_scan 0 t).
  { intros t n.
    change (stringify_number (image c) ++ 44 :: t)
      with (stringify_number (image c) ++ [44] ++ t).
    rewrite app_assoc. apply fence_scan_no_backtick.
    - destruct (stringify_number (image c)); discriminate.
    - rewrite no_backtick_app, andb_true_r. unfold stringify_number.
      destruct (is_finite (image c)); [|reflexivity].
      now apply Number_toString_no_backtick. }
  cbn [app fence_scan]. change (123 =? backtick) with false. cbv iota.
  rewrite fence_scan_quoted by reflexivity.
  cbn [app fence_scan]. change (58 =? backtick) with false. cbv iota.
  rewrite Hnum.
  rewrite fence_scan_quoted by reflexivity.
  cbn [app fence_scan]. change (58 =? backtick) with false. cbv iota.
  rewrite fence_scan_quoted by exact Ht.
  cbn [app fence_scan]. change (44 =? backtick) with false. cbv iota.
  rewrite fence_scan_quoted by reflexivity.
  cbn [app fence_scan]. change (58 =? backtick) with false. cbv iota.
  rewrite fence_scan_quoted by exact Hb.
  discriminate.
Qed.

(** ** Parsing a serialised caption *)

Lemma parse_value_quoted (f : nat) (s t : jsstring) :
  parse_value (S f) (QuoteJSONString s ++ t) = Parsed (VString s) t.
Proof.
  unfold QuoteJSONString. rewrite <- app_comm_cons, <- app_assoc.
  cbn [parse_value skip_ws app].
  change (is_json_ws dquote) with false. cbv iota.
  change (dquote =? 123) with false. change (dquote =? 91) with false.
  change (dquote =? 34) with true. cbv iota.
  now rewrite parse_string_body_quote.
Qed.

Lemma parse_members_quoted (f : nat) (key t : jsstring) :
  parse_members (S f) (QuoteJSONString key ++ 58 :: t) =
  match parse_value f t with
  | Parsed v r3 =>
      match skip_ws r3 with
      | [] => Malformed
      | c :: r4 =>
          if c =? 44 then
            match parse_members f r4 with
            | Parsed ms rest => Parsed ((key, v) :: ms) rest
            | Malformed => Malformed
            | OutOfFuel => OutOfFuel
            end
          else if c =? 125 then Parsed [(key, v)] r4
          else Malformed
      end
  | Malformed => Malformed
  | OutOfFuel => OutOfFuel
  end.
Proof.
  unfold QuoteJSONString. rewrite <- app_comm_cons, <- app_assoc.
  cbn [parse_members skip_ws app].
  change (is_json_ws dquote) with false. cbv iota.
  change (dquote =? 34) with true. cbv iota.
  rewrite parse_string_body_quote.
  cbn [skip_ws]. change (is_json_ws 58) with false. cbv iota.
  change (58 =? 58) with true. cbv iota. reflexivity.
Qed.

(** A text that starts with a minus sign or a digit is parsed as a
    number. *)
Lemma parse_value_number_head (f : nat) (c : code_unit) (u : jsstring) :
  (c =? 45) || is_digit_char c = true ->
  parse_value (S f) (c :: u) =
  match parse_json_number (c :: u) with
  | Some (x, rest) => Parsed (VNumber x) rest
  | None => Malformed
  end.
Proof.
  intros H.
  assert (Hc : c = 45 \/ 48 <= c <= 57).
  { apply orb_true_iff in H as [H|H].
    - left. now apply N.eqb_eq.
    - right. unfold is_digit_char in H. apply andb_true_iff in H as [H1 H2].
      apply N.leb_le in H1, H2. lia. }
  cbn [parse_value skip_ws]. unfold is_json_ws.
  change (lit "true") with [116; 114; 117; 101].
  change (lit "false") with [102; 97; 108; 115; 101].
  change (lit "null") with [110; 117; 108; 108].
  repeat first
    [ match goal with
      | |- context [c =? ?k] =>
          replace (c =? k) with false by (symmetry; apply N.eqb_neq; lia)
      | |- context [?k =? c] =>
          replace (k =? c) with false by (symmetry; apply N.eqb_neq; lia)
      end
    | progress cbn [orb andb is_prefix] ].
  reflexivity.
Qed.

Lemma Number_toString_first (x : number) :
  is_finite x = true -> canonical x = true ->
  exists c u, Number_toString x = c :: u /\ (c =? 45) || is_digit_char c = true.
Proof.
  intros Hf Hc. destruct x as [| |neg [|d r] e]; try discriminate.
  - exists 48, []. split; reflexivity.
  - rewrite NumberFacts.Number_toString_sign.
    destruct neg; [exists 45; eexists; split; reflexivity|].
    destruct (NumberFacts.canonical_digits _ _ _ _ Hc) as (Hall & _).
    assert (Hd : is_digit_char (digit_char d) = true).
    { apply NumberFacts.digit_char_is_digit.
      unfold all_digits in Hall. cbn [forallb] in Hall.
      now apply andb_true_iff in Hall. }
    unfold Number_toString.
    change (if false then lit "-" else []) with (@nil code_unit).
    cbv zeta. cbn [app List.map].
    destruct ((-5 <=? _)%Z && _).
    + destruct (_ <=? _)%Z.
      * do 2 eexists. split; [reflexivity|]. now rewrite Hd, orb_true_r.
      * destruct (0 <? _)%Z eqn:Hpos.
        -- apply Z.ltb_lt in Hpos.
           destruct (Z.to_nat _) eqn:E; [lia|]. cbn [firstn app].
           do 2 eexists. split; [reflexivity|]. now rewrite Hd, orb_true_r.
        -- exists 48. eexists. split; reflexivity.
    + destruct r; do 2 eexists; (split; [reflexivity|]);
        now rewrite Hd, orb_true_r.
Qed.

Lemma parse_value_number (f : nat) (x : number) (t : jsstring) :
  is_finite x = true -> canonical x = true -> is_negative_zero x = false ->
  parse_value (S f) (stringify_number x ++ 44 :: t) = Parsed (VNumber x) (44 :: t).
Proof.
  intros Hf Hc Hz. unfold stringify_number. rewrite Hf.
  pose proof (NumberFacts.parse_json_number_toString x t Hf Hc Hz) as Hp.
  destruct (Number_toString_first x Hf Hc) as (c & u & Hu & Hhead).
  rewrite Hu in *. cbn [app] in *.
  rewrite (parse_value_number_head f c _ Hhead), Hp. reflexivity.
Qed.

(** [JSON.parse(JSON.stringify(c))] is the object [c], unless its image
    is negative zero. *)
Lemma JSON_parse_stringify (c : MemeCaption) :
  valid_caption c = true -> is_negative_zero (image c) = false ->
  JSON_parse (JSON_stringify_caption c) = Return (caption_value c).
Proof.
  intros Hv Hz. unfold valid_caption in Hv.
  apply andb_true_iff in Hv as [Hf Hc].
  unfold JSON_parse.
  assert (Hfuel : exists f, fuel_for (JSON_stringify_caption c) = (5 + f)%nat).
  { exists (fuel_for (JSON_stringify_caption c) - 5)%nat.
    unfold fuel_for, JSON_stringify_caption, QuoteJSONString.
    rewrite !length_app. simpl. lia. }
  destruct Hfuel as [f ->].
  unfold JSON_stringify_caption.
  change (lit "{") with [123]. change (lit ":") with [58].
  change (lit ",") with [44]. change (lit "}") with [125].
  cbn [app Nat.add].
  assert (Hobj : forall g r, parse_value (S g) (123 :: QuoteJSONString (lit "image") ++ r)
                 = match parse_members g (QuoteJSONString (lit "image") ++ r) with
                   | Parsed ms rest => Parsed (VObject ms) rest
                   | Malformed => Malformed
                   | OutOfFuel => OutOfFuel
                   end).
  { intros g r. reflexivity. }
  rewrite Hobj, parse_members_quoted, parse_value_number by assumption.
  cbn [skip_ws]. change (is_json_ws 44) with false. cbv iota.
  change (44 =? 44) with true. cbv iota.
  rewrite parse_members_quoted, parse_value_quoted.
  cbn [skip_ws]. change (is_json_ws 44) with false. cbv iota.
  change (44 =? 44) with true. cbv iota.
  rewrite parse_members_quoted, parse_value_quoted.
  reflexivity.
Qed.

End JsonFacts.

(** * Caption parsing *)

Section CaptionParsing.

Local Open Scope completion_scope.

Lemma parseMemeCaption_outcome (caption : value) :
  parseMemeCaption caption =
  match parseMemeCaption_try caption with
  | Return r => Return r
  | Throw _ => Return None
  end.
Proof. reflexivity. Qed.

(** What a non-null result is made of. *)
Lemma parseMemeCaption_some (s : jsstring) (c : MemeCaption) :
  parseMemeCaption (VString s) = Return (Some c) ->
  exists parsed,
    JSON_parse (trim (remove_all fence (remove_all fence_json s))) = Return parsed
    /\ ToNumber (get_own parsed (lit "image")) = Return (image c)
    /\ ToString (get_own parsed (lit "topText")) = Return (topText c)
    /\ ToString (get_own parsed (lit "bottomText")) = Return (bottomText c).
Proof.
  unfold parseMemeCaption, parseMemeCaption_try, clean_caption. cbn [cbind].
  destruct (JSON_parse _) as [parsed|e] eqn:Hp; [|discriminate].
  cbn [cbind try_catch]. intros H. exists parsed. split; [reflexivity|].
  assert (Hget : forall k, get parsed k = Return (get_own parsed k)
                           \/ is_nullish parsed = true).
  { intros k. destruct parsed; auto. }
  destruct (Hget (lit "image")) as [Hi|Hnull];
    [|destruct parsed; discriminate].
  destruct (Hget (lit "topText")) as [Ht|Hnull];
    [|destruct parsed; discriminate].
  destruct (Hget (lit "bottomText")) as [Hb|Hnull];
    [|destruct parsed; discriminate].
  rewrite Hi, Ht, Hb in H. cbn [cbind] in H.
  destruct (ToNumber _) as [x|]; [|discriminate]. cbn [cbind] in H.
  destruct (ToString (get_own parsed (lit "topText"))) as [top|];
    [|discriminate]. cbn [cbind] in H.
  destruct (ToString (get_own parsed (lit "bottomText"))) as [bottom|];
    [|discriminate]. cbn [cbind] in H.
  injection H as <-. repeat split; reflexivity.
Qed.

(** C2, as amended: a non-null result of caption parsing has
    [topText = String(json.topText)], [bottomText = String(json.bottomText)],
    both strings, and [image = Number(json.image)], a number that is the
    member itself when the member is a number and NaN when the parsed
    value has no [image] member; nothing makes it finite or integral. *)
Theorem parsed_caption_fields (s : jsstring) (c : MemeCaption) :
  parseMemeCaption (VString s) = Return (Some c) ->
  exists parsed,
    JSON_parse (trim (remove_all fence (remove_all fence_json s))) = Return parsed
    /\ ToNumber (get_own parsed (lit "image")) = Return (image c)
    /\ ToString (get_own parsed (lit "topText")) = Return (topText c)
    /\ ToString (get_own parsed (lit "bottomText")) = Return (bottomText c)
    /\ (forall x, get_own parsed (lit "image") = VNumber x -> image c = x)
    /\ (get_own parsed (lit "image") = VUndefined -> image c = NaN).
Proof.
  intros H.
  destruct (parseMemeCaption_some s c H) as (parsed & Hp & Hi & Ht & Hb).
  exists parsed. repeat split; try assumption.
  - intros x Hx. rewrite Hx in Hi. now injection Hi.
  - intros Hu. rewrite Hu in Hi. now injection Hi.
Qed.

(** C2, counterexample: [parseMemeCaption("{}")] is not null and its
    image is NaN, which is not a finite integer. *)
Lemma parsed_caption_image_NaN :
  parseMemeCaption (VString (lit "{}"))
  = Return (Some {| image := NaN; topText := lit "undefined";
                    bottomText := lit "undefined" |})
  /\ finite_integer NaN = false.
Proof. split; reflexivity. Qed.

(** The image can also be a fraction. *)
Lemma parsed_caption_image_fraction :
  parseMemeCaption (VString (lit "{" ++ quoted "image" ++ lit ":1.5}"))
     = Return (Some {| image := Finite false [1; 5] (-1);
                       topText := lit "undefined";
                       bottomText := lit "undefined" |})
  /\ finite_integer (Finite false [1; 5] (-1)) = false.
Proof. repeat split; reflexivity. Qed.

Lemma parsed_caption_witness :
  exists parsed,
    JSON_parse (trim (remove_all fence (remove_all fence_json (lit "{}")))) = Return parsed
    /\ ToNumber (get_own parsed (lit "image")) = Return NaN
    /\ ToString (get_own parsed (lit "topText")) = Return (lit "undefined")
    /\ ToString (get_own parsed (lit "bottomText")) = Return (lit "undefined")
    /\ (forall x, get_own parsed (lit "image") = VNumber x -> NaN = x)
    /\ (get_own parsed (lit "image") = VUndefined -> NaN = NaN).
Proof.
  apply (parsed_caption_fields (lit "{}")
           {| image := NaN; topText := lit "undefined";
              bottomText := lit "undefined" |}).
  reflexivity.
Defined.

(** C5: caption parsing returns a caption or null on every input and
    never throws; whatever is thrown inside its [try] block, a syntax
    error of [JSON.parse] in particular, turns into null. *)
Theorem parseMemeCaption_never_throws (s : jsstring) :
  (exists r, parseMemeCaption (VString s) = Return r)
  /\ (forall e, parseMemeCaption_try (VString s) = Throw e ->
                parseMemeCaption (VString s) = Return None)
  /\ (forall e, JSON_parse (trim (remove_all fence (remove_all fence_json s))) = Throw e ->
                parseMemeCaption (VString s) = Return None).
Proof.
  rewrite parseMemeCaption_outcome. repeat split.
  - destruct (parseMemeCaption_try (VString s)); eauto.
  - now intros e ->.
  - intros e He. unfold parseMemeCaption_try, clean_caption. cbn [cbind].
    now rewrite He.
Qed.

(** The same holds when the argument is not a string at all. *)
Lemma parseMemeCaption_total (caption : value) :
  exists r, parseMemeCaption caption = Return r.
Proof.
  rewrite parseMemeCaption_outcome.
  destruct (parseMemeCaption_try caption); eauto.
Qed.

(** Unbalanced braces, text that is not JSON, and the JSON text [null]. *)
Example parseMemeCaption_malformed :
  parseMemeCaption (VString (lit "{" ++ quoted "image" ++ lit ": 1")) = Return None
  /\ parseMemeCaption (VString (lit "}{")) = Return None
  /\ parseMemeCaption (VString (lit "Sure! Here is your meme:")) = Return None
  /\ parseMemeCaption (VString (lit "null")) = Return None
  /\ parseMemeCaption (VString []) = Return None.
Proof. repeat split; reflexivity. Qed.

(** C6, as amended: for every valid caption [c] whose text fields hold
    no run of three back-ticks and whose image is not negative zero,
    parsing the JSON serialisation of [c] gives [c] back. *)
Theorem caption_roundtrip (c : MemeCaption) :
  valid_caption c = true ->
  is_negative_zero (image c) = false ->
  contains fence (topText c) = false ->
  contains fence (bottomText c) = false ->
  parseMemeCaption (VString (JSON_stringify_caption c)) = Return (Some c).
Proof.
  intros Hv Hz Ht Hb.
  assert (Hc : canonical (image c) = true).
  { unfold valid_caption in Hv. now apply andb_true_iff in Hv. }
  pose proof (JsonFacts.stringify_no_fence c Hc Ht Hb) as Hfence.
  assert (Hjson : contains fence_json (JSON_stringify_caption c) = false).
  { destruct (contains fence_json _) eqn:E; [|reflexivity].
    change fence_json with (fence ++ lit "json") in E.
    apply StringFacts.contains_app in E. congruence. }
  unfold parseMemeCaption, parseMemeCaption_try, clean_caption. cbn [cbind].
  rewrite (StringFacts.remove_all_absent _ _ Hjson).
  rewrite (StringFacts.remove_all_absent _ _ Hfence).
  assert (Htrim : trim (JSON_stringify_caption c) = JSON_stringify_caption c).
  { unfold trim, JSON_stringify_caption.
    change (lit "{") with [123]. change (lit "}") with [125]. cbn [app].
    rewrite StringFacts.trim_start_head by reflexivity.
    rewrite !app_comm_cons, !app_assoc.
    apply StringFacts.trim_end_last. reflexivity. }
  rewrite Htrim, (JsonFacts.JSON_parse_stringify c Hv Hz).
  destruct c as [i t b]. reflexivity.
Qed.

Lemma caption_roundtrip_witness :
  parseMemeCaption
    (VString (JSON_stringify_caption
                {| image := Finite false [1; 8; 1; 9; 1; 3; 6; 4; 9] 0;
                   topText := lit "When India wins";
                   bottomText := lit "Everyone celebrates" |}))
  = Return (Some {| image := Finite false [1; 8; 1; 9; 1; 3; 6; 4; 9] 0;
                    topText := lit "When India wins";
                    bottomText := lit "Everyone celebrates" |}).
Proof.
  apply (caption_roundtrip
           {| image := Finite false [1; 8; 1; 9; 1; 3; 6; 4; 9] 0;
              topText := lit "When India wins";
              bottomText := lit "Everyone celebrates" |});
    reflexivity.
Defined.

(** C6, counterexample: the valid caption with [topText] three
    back-ticks serialises to a text from which [parseMemeCaption] strips
    them: the result is not null and its [topText] is empty. *)
Lemma caption_roundtrip_fails_on_fence :
  valid_caption fenced_caption = true
  /\ parseMemeCaption (VString (JSON_stringify_caption fenced_caption))
     = Return (Some {| image := Finite false [1] 0; topText := [];
                       bottomText := lit "x" |})
  /\ topText fenced_caption = [backtick; backtick; backtick].
Proof. repeat split; reflexivity. Qed.

(** Negative zero is serialised as [0] and comes back as positive zero. *)
Lemma caption_roundtrip_fails_on_negative_zero :
  valid_caption negative_zero_caption = true
  /\ parseMemeCaption (VString (JSON_stringify_caption negative_zero_caption))
     = Return (Some {| image := Finite false [] 0; topText := lit "a";
                       bottomText := lit "b" |})
  /\ image negative_zero_caption = Finite true [] 0.
Proof. repeat split; reflexivity. Qed.

End CaptionParsing.

(** * The service methods and their requests *)

Module ServiceFacts.

(** Case analysis on an innermost scrutinee of the goal. *)
Ltac break_match :=
  match goal with
  | |- context [match ?x with _ => _ end] =>
      lazymatch x with
      | context [match _ with _ => _ end] => fail
      | _ => destruct x eqn:?
      end
  end.

Lemma fetchIndianNews_trace (env : Env) (topic : value) (w : World) :
  forallb before_caption (fst (fetchIndianNews env topic w)) = true.
Proof.
  unfold fetchIndianNews, bind, lift, fetch, throw, ret.
  repeat (break_match; cbn [fst snd app forallb before_caption andb]);
    reflexivity.
Qed.

Lemma fetchImgflipTemplates_trace (w : World) :
  fst (fetchImgflipTemplates w) = [GetMemes].
Proof.
  unfold fetchImgflipTemplates, bind, lift, fetch, throw, ret.
  repeat (break_match; cbn [fst snd app]); reflexivity.
Qed.

(** [generateCaption] sends at most one request, which its prompt
    determines, and its outcome depends on the arguments through the
    prompt only. *)
Lemma generateCaption_trace (env : Env) (t d ids : value) (w : World) :
  fst (generateCaption env t d ids w) = []
  \/ exists p, caption_prompt t d ids = Return p
               /\ fst (generateCaption env t d ids w)
                  = [PostGenerateContent (gemini_key env) p].
Proof.
  unfold generateCaption, bind, lift, fetch, throw, ret.
  destruct (caption_prompt t d ids) as [p|e]; [right|left; reflexivity].
  exists p. split; [reflexivity|].
  repeat (break_match; cbn [fst snd app]); reflexivity.
Qed.

Lemma generateCaption_prompt (env : Env) (t d ids t' d' ids' : value)
      (p : jsstring) (w : World) :
  caption_prompt t d ids = Return p ->
  caption_prompt t' d' ids' = Return p ->
  generateCaption env t d ids w = generateCaption env t' d' ids' w.
Proof.
  intros H H'. unfold generateCaption, bind, lift. now rewrite H, H'.
Qed.

Lemma generateMeme_trace (env : Env) (tid top bot : value) (w : World) :
  fst (generateMeme env tid top bot w) = []
  \/ exists params, render_params env tid top bot = Return params
                    /\ fst (generateMeme env tid top bot w)
                       = [PostCaptionImage params].
Proof.
  unfold generateMeme, bind, lift, fetch, throw, ret.
  destruct (render_params env tid top bot) as [p|e]; [right|left; reflexivity].
  exists p. split; [reflexivity|].
  repeat (break_match; cbn [fst snd app]); reflexivity.
Qed.

Lemma generateMeme_params (env : Env) (tid top bot tid' top' bot' : value)
      (params : list (jsstring * jsstring)) (w : World) :
  render_params env tid top bot = Return params ->
  render_params env tid' top' bot' = Return params ->
  generateMeme env tid top bot w = generateMeme env tid' top' bot' w.
Proof.
  intros H H'. unfold generateMeme, bind, lift. now rewrite H, H'.
Qed.

End ServiceFacts.

Module FlowFacts.
Import ServiceFacts.

Lemma respond_prefixed (m : M value) (w : World) :
  respond m w = respond (prefixed [] m) w.
Proof. unfold respond, prefixed. now destruct (m w). Qed.

Lemma respond_bind {A} (t0 : list request) (m : M A) (k : A -> M value)
      (w : World) :
  respond (prefixed t0 (bind m k)) w =
  match m w with
  | (t1, Return a) => respond (prefixed (t0 ++ t1) (k a)) w
  | (t1, Throw e) => (t0 ++ t1, Res500 e)
  end.
Proof.
  unfold respond, prefixed, bind.
  destruct (m w) as [t1 [a|e]]; [|reflexivity].
  destruct (k a w) as [t2 [b|e]]; now rewrite app_assoc.
Qed.

Lemma respond_throw (t0 : list request) (e : exn) (w : World) :
  respond (prefixed t0 (throw e)) w = (t0 ++ [], Res500 e).
Proof. reflexivity. Qed.

Lemma stopped_early_intro (t : list request) (e : exn) :
  forallb before_caption t = true -> stopped_early (t, Res500 e).
Proof. intros H. split; [exact H|eauto]. Qed.

Lemma pipeline_from_templates (env : Env) (w : World) (tn : list request)
      (article : value) (finish : value -> MemeCaption -> value -> response)
      (rest : MemeCaption -> M value) :
  forallb before_caption tn = true ->
  (forall c, rest c w =
             match generateMeme env (VNumber (image c)) (VString (topText c))
                     (VString (bottomText c)) w with
             | (tm, Return u) =>
                 match finish article c u with
                 | Res200 payload => (tm, Return payload)
                 | Res500 e => (tm, Throw e)
                 end
             | (tm, Throw e) => (tm, Throw e)
             end) ->
  pipeline_run env w finish
    (respond
       (prefixed tn
          (bind fetchImgflipTemplates
             (fun templates =>
                bind (generateCaption env (get_own article (lit "title"))
                        (get_own article (lit "description"))
                        (template_ids templates))
                  (fun caption =>
                     match caption with
                     | None => throw (Error (lit "Failed to generate meme caption"))
                     | Some c => rest c
                     end)))) w).
Proof.
  intros Htn Hrest. rewrite respond_bind.
  pose proof (fetchImgflipTemplates_trace w) as Htt.
  destruct (fetchImgflipTemplates w) as [tt [templates|e]]; cbn [fst] in Htt;
    subst tt.
  2:{ left. apply stopped_early_intro. now rewrite forallb_app, Htn. }
  right. exists (tn ++ [GetMemes]), article, (template_ids templates).
  split; [rewrite forallb_app, Htn; reflexivity|].
  rewrite respond_bind. unfold pipeline_tail.
  destruct (generateCaption env _ _ _ w) as [tc [[c|]|e]].
  - unfold respond, prefixed. rewrite Hrest.
    destruct (generateMeme env _ _ _ w) as [tm [u|e]].
    + destruct (finish article c u); now rewrite <- !app_assoc.
    + now rewrite <- !app_assoc.
  - rewrite respond_throw. now rewrite app_nil_r.
  - reflexivity.
Qed.

Ltac stop :=
  left; apply stopped_early_intro;
  rewrite ?forallb_app; cbn [forallb andb];
  repeat match goal with H : forallb _ _ = true |- _ => rewrite H end;
  reflexivity.

Lemma generate_news_meme_pipeline (env : Env) (req : Req) (w : World) :
  pipeline_run env w finish_news (generate_news_meme env req w).
Proof.
  unfold generate_news_meme. rewrite respond_prefixed.
  rewrite respond_bind. cbn [lift].
  destruct (validateEnvVars env) as [[]|e]; [|stop].
  rewrite respond_bind. cbn [lift].
  destruct (get (body req) (lit "topic")) as [t|e]; [|stop].
  cbv zeta. rewrite respond_bind. cbn [lift].
  destruct (get (body req) (lit "articleIndex")) as [i|e]; [|stop].
  rewrite respond_bind.
  pose proof (fetchIndianNews_trace env (or_else t (VString [])) w) as Htn.
  destruct (fetchIndianNews env _ w) as [tn [news|e]]; cbn [fst app] in *;
    [|stop].
  destruct (_ =? _)%nat; [rewrite respond_throw; stop|].
  rewrite respond_bind. cbn [lift].
  destruct (ToString (or_else i zero)) as [key|e]; [|stop].
  set (article := get_own (VArray news) key).
  destruct (_ || _); [rewrite respond_throw; stop|].
  apply pipeline_from_templates; [now rewrite forallb_app, Htn|].
  intros c. unfold bind, ret.
  destruct (generateMeme env _ _ _ w) as [tm [u|e]]; [|reflexivity].
  cbn. now rewrite app_nil_r.
Qed.

Lemma puch_generate_meme_pipeline (env : Env) (req : Req) (w : World) :
  pipeline_run env w finish_puch (puch_generate_meme env req w).
Proof.
  unfold puch_generate_meme. rewrite respond_prefixed.
  rewrite respond_bind. cbn [lift].
  destruct (validateEnvVars env) as [[]|e]; [|stop].
  rewrite respond_bind. cbn [lift].
  destruct (get (body req) (lit "topic")) as [t|e]; [|stop].
  cbv zeta. rewrite respond_bind. cbn [lift].
  destruct (get (body req) (lit "articleIndex")) as [i|e]; [|stop].
  set (topic := or_else (or_else t _) _).
  destruct (falsy topic); [rewrite respond_throw; stop|].
  rewrite respond_bind.
  pose proof (fetchIndianNews_trace env topic w) as Htn.
  destruct (fetchIndianNews env _ w) as [tn [news|e]]; cbn [fst app] in *;
    [|stop].
  destruct (_ =? _)%nat.
  { rewrite respond_bind. cbn [lift].
    destruct (ToString topic); [rewrite respond_throw|]; stop. }
  rewrite respond_bind. cbn [lift].
  destruct (ToString (or_else i zero)) as [key|e]; [|stop].
  set (article := get_own (VArray news) key).
  destruct (_ || _); [rewrite respond_throw; stop|].
  apply pipeline_from_templates; [now rewrite forallb_app, Htn|].
  intros c. unfold bind, ret, throw, finish_puch.
  destruct (generateMeme env _ _ _ w) as [tm [u|e]]; [|reflexivity].
  destruct (falsy u); cbn; now rewrite app_nil_r.
Qed.

Lemma before_caption_in (t : list request) (rq : request) :
  forallb before_caption t = true -> In rq t -> before_caption rq = true.
Proof. intros H Hin. rewrite forallb_forall in H. now apply H. Qed.

(** In the common tail, a caption step that returns null ends the run
    with the error, and no render call is sent. *)
Lemma pipeline_tail_null_caption (env : Env) (w : World) (t1 : list request)
      (title description ids : value)
      (finish : MemeCaption -> value -> response)
      (t d ids' : value) (p : jsstring) :
  forallb before_caption t1 = true ->
  caption_prompt t d ids' = Return p ->
  In (PostGenerateContent (gemini_key env) p)
     (fst (pipeline_tail env w t1 title description ids finish)) ->
  snd (generateCaption env t d ids' w) = Return None ->
  snd (pipeline_tail env w t1 title description ids finish)
  = Res500 (Error (lit "Failed to generate meme caption"))
  /\ forall params,
      ~ In (PostCaptionImage params)
           (fst (pipeline_tail env w t1 title description ids finish)).
Proof.
  intros Ht1 Hp Hin Hnull. unfold pipeline_tail in *.
  pose proof (generateCaption_trace env title description ids w) as Htc.
  pose proof (generateCaption_prompt env t d ids' title description ids p w Hp) as Hsame.
  destruct (generateCaption env title description ids w) as [tc rc].
  cbn [fst] in Htc.
  assert (Hrc : In (PostGenerateContent (gemini_key env) p) tc -> rc = Return None).
  { intros Hev. destruct Htc as [->|(p' & Hp' & ->)]; [contradiction|].
    destruct Hev as [Hev|[]]. injection Hev as <-.
    rewrite (Hsame Hp') in Hnull. exact Hnull. }
  assert (Hno1 : forall rq, In rq t1 -> is_caption_call rq = false
                                        /\ is_render_call rq = false).
  { intros rq Hrq. pose proof (before_caption_in _ _ Ht1 Hrq).
    destruct rq; try discriminate; split; reflexivity. }
  assert (Hnoc : forall params, ~ In (PostCaptionImage params) tc).
  { intros params Hev.
    destruct Htc as [->|(p' & _ & ->)]; [contradiction|].
    destruct Hev as [Hev|[]]. discriminate. }
  assert (Hfinal : rc = Return None).
  { destruct rc as [[c|]|e]; [| reflexivity |].
    - pose proof (generateMeme_trace env (VNumber (image c))
                    (VString (topText c)) (VString (bottomText c)) w) as Htm.
      destruct (generateMeme env _ _ _ w) as [tm [u|e]]; cbn [fst] in *;
        (apply in_app_or in Hin as [Hin|Hin];
         [apply Hno1 in Hin as [Hin _]; discriminate|]);
        (apply in_app_or in Hin as [Hin|Hin]; [now apply Hrc|]);
        (destruct Htm as [->|(q & _ & ->)]; [contradiction|]);
        destruct Hin as [Hin|[]]; discriminate.
    - cbn [fst] in Hin. apply in_app_or in Hin as [Hin|Hin];
        [apply Hno1 in Hin as [Hin _]; discriminate|now apply Hrc]. }
  subst rc. cbn [fst snd]. split; [reflexivity|].
  intros params Hev. apply in_app_or in Hev as [Hev|Hev].
  - apply Hno1 in Hev as [_ Hev]. discriminate.
  - now apply (Hnoc params).
Qed.

(** In the common tail, a render step that returns null hands null to
    the last step. *)
Lemma pipeline_tail_null_url (env : Env) (w : World) (t1 : list request)
      (title description ids : value)
      (finish : MemeCaption -> value -> response)
      (tid top bot : value) (params : list (jsstring * jsstring)) :
  forallb before_caption t1 = true ->
  render_params env tid top bot = Return params ->
  In (PostCaptionImage params)
     (fst (pipeline_tail env w t1 title description ids finish)) ->
  snd (generateMeme env tid top bot w) = Return VNull ->
  exists c, snd (pipeline_tail env w t1 title description ids finish)
            = finish c VNull.
Proof.
  intros Ht1 Hp Hin Hnull. unfold pipeline_tail in *.
  pose proof (generateCaption_trace env title description ids w) as Htc.
  destruct (generateCaption env title description ids w) as [tc rc].
  cbn [fst] in Htc.
  assert (Hno1 : ~ In (PostCaptionImage params) t1).
  { intros Hrq. pose proof (before_caption_in _ _ Ht1 Hrq). discriminate. }
  assert (Hnoc : ~ In (PostCaptionImage params) tc).
  { intros Hev. destruct Htc as [->|(p' & _ & ->)]; [contradiction|].
    destruct Hev as [Hev|[]]. discriminate. }
  destruct rc as [[c|]|e].
  - exists c.
    pose proof (generateMeme_trace env (VNumber (image c))
                  (VString (topText c)) (VString (bottomText c)) w) as Htm.
    pose proof (generateMeme_params env tid top bot (VNumber (image c))
                  (VString (topText c)) (VString (bottomText c)) params w Hp)
      as Hsame.
    destruct (generateMeme env (VNumber (image c)) _ _ w) as [tm rm].
    assert (Hrm : rm = Return VNull).
    { assert (Hev : In (PostCaptionImage params) tm).
      { destruct rm; cbn [fst] in Hin;
          apply in_app_or in Hin as [Hin|Hin]; try contradiction;
          apply in_app_or in Hin as [Hin|Hin]; try contradiction; exact Hin. }
      cbn [fst] in Htm. destruct Htm as [->|(q & Hq & ->)]; [contradiction|].
      destruct Hev as [Hev|[]]. injection Hev as <-.
      rewrite (Hsame Hq) in Hnull. exact Hnull. }
    subst rm. reflexivity.
  - cbn [fst] in Hin. apply in_app_or in Hin as [Hin|Hin]; contradiction.
  - cbn [fst] in Hin. apply in_app_or in Hin as [Hin|Hin]; contradiction.
Qed.

Lemma stopped_early_no_caption (run : list request * response)
      (k p : jsstring) :
  stopped_early run -> ~ In (PostGenerateContent k p) (fst run).
Proof.
  intros [H _] Hin. pose proof (before_caption_in _ _ H Hin). discriminate.
Qed.

Lemma stopped_early_no_render (run : list request * response)
      (params : list (jsstring * jsstring)) :
  stopped_early run -> ~ In (PostCaptionImage params) (fst run).
Proof.
  intros [H _] Hin. pose proof (before_caption_in _ _ H Hin). discriminate.
Qed.

End FlowFacts.

(** * The routes *)

Section RouteTheorems.

Import FlowFacts.

(** C1: in either full pipeline, when the caption step [generateCaption]
    was reached (its request is on record) and returns null, the response
    is the error "Failed to generate meme caption" and no render request
    is ever sent. *)
Theorem null_caption_aborts (env : Env) (req : Req) (w : World)
        (flow : handler) (title description ids : value) (prompt : jsstring) :
  flow = generate_news_meme \/ flow = puch_generate_meme ->
  caption_prompt title description ids = Return prompt ->
  In (PostGenerateContent (gemini_key env) prompt) (fst (flow env req w)) ->
  snd (generateCaption env title description ids w) = Return None ->
  snd (flow env req w) = Res500 (Error (lit "Failed to generate meme caption"))
  /\ forall params, ~ In (PostCaptionImage params) (fst (flow env req w)).
Proof.
  intros Hflow Hp Hin Hnull.
  assert (Hrun : exists finish, pipeline_run env w finish (flow env req w)).
  { destruct Hflow as [-> | ->].
    - exists finish_news. apply generate_news_meme_pipeline.
    - exists finish_puch. apply puch_generate_meme_pipeline. }
  destruct Hrun as [finish [Hearly | (t1 & article & ids' & Ht1 & Hrun)]].
  - exfalso. now apply (stopped_early_no_caption _ _ _ Hearly) in Hin.
  - rewrite Hrun in *.
    now apply (pipeline_tail_null_caption env w t1 _ _ ids' _
                 title description ids prompt).
Qed.

Lemma null_caption_aborts_witness :
  snd (generate_news_meme Scenario.credentials Scenario.cricket
         (Scenario.world (VString (lit "I cannot help with that"))
            Scenario.rendered_url))
  = Res500 (Error (lit "Failed to generate meme caption"))
  /\ forall params,
      ~ In (PostCaptionImage params)
           (fst (generate_news_meme Scenario.credentials Scenario.cricket
                   (Scenario.world (VString (lit "I cannot help with that"))
                      Scenario.rendered_url))).
Proof.
  eapply (null_caption_aborts Scenario.credentials Scenario.cricket _
            generate_news_meme (VString (lit "India wins"))
            (VString (lit "Historic victory"))
            (VArray [VNumber (Finite false [1] 0)])).
  - left. reflexivity.
  - vm_compute. reflexivity.
  - vm_compute. right. right. left. reflexivity.
  - vm_compute. reflexivity.
Defined.

(** C3: when the render step [generateMeme] was reached (its request is
    on record) and returns null, [puch_generate_meme] answers with the
    error "Failed to create meme image", while [generate_news_meme]
    answers with success and a null [memeUrl]. *)
Theorem missing_url_outcome (env : Env) (req : Req) (w : World)
        (templateId topText bottomText : value)
        (params : list (jsstring * jsstring)) :
  render_params env templateId topText bottomText = Return params ->
  snd (generateMeme env templateId topText bottomText w) = Return VNull ->
  (In (PostCaptionImage params) (fst (puch_generate_meme env req w)) ->
   snd (puch_generate_meme env req w)
   = Res500 (Error (lit "Failed to create meme image")))
  /\ (In (PostCaptionImage params) (fst (generate_news_meme env req w)) ->
      exists article c,
        snd (generate_news_meme env req w)
        = Res200 (VObject [ success_true;
                            (lit "article", article);
                            (lit "caption", caption_value c);
                            (lit "memeUrl", VNull) ])).
Proof.
  intros Hp Hnull. split; intros Hin.
  - destruct (puch_generate_meme_pipeline env req w)
      as [Hearly | (t1 & article & ids & Ht1 & Hrun)].
    + exfalso. now apply (stopped_early_no_render _ _ Hearly) in Hin.
    + rewrite Hrun in *.
      destruct (pipeline_tail_null_url env w t1 _ _ ids _ _ _ _ params
                  Ht1 Hp Hin Hnull) as [c ->].
      reflexivity.
  - destruct (generate_news_meme_pipeline env req w)
      as [Hearly | (t1 & article & ids & Ht1 & Hrun)].
    + exfalso. now apply (stopped_early_no_render _ _ Hearly) in Hin.
    + rewrite Hrun in *.
      destruct (pipeline_tail_null_url env w t1 _ _ ids _ _ _ _ params
                  Ht1 Hp Hin Hnull) as [c ->].
      unfold finish_news. eauto.
Qed.

Lemma missing_url_outcome_witness :
  snd (puch_generate_meme Scenario.credentials Scenario.cricket
         (Scenario.world Scenario.caption_text Scenario.rendered_nothing))
  = Res500 (Error (lit "Failed to create meme image"))
  /\ exists article c,
      snd (generate_news_meme Scenario.credentials Scenario.cricket
             (Scenario.world Scenario.caption_text Scenario.rendered_nothing))
      = Res200 (VObject [ success_true;
                          (lit "article", article);
                          (lit "caption", caption_value c);
                          (lit "memeUrl", VNull) ]).
Proof.
  assert (H := missing_url_outcome Scenario.credentials Scenario.cricket
                 (Scenario.world Scenario.caption_text Scenario.rendered_nothing)
                 (VNumber (Finite false [1] 0))
                 (VString (lit "When India wins"))
                 (VString (lit "Everyone celebrates"))
                 [ (lit "template_id", lit "1"); (lit "username", lit "user");
                   (lit "password", lit "secret");
                   (lit "text0", lit "When India wins");
                   (lit "text1", lit "Everyone celebrates") ]
                 ltac:(vm_compute; reflexivity) ltac:(vm_compute; reflexivity)).
  destruct H as [Hpuch Hnews]. split.
  - apply Hpuch. vm_compute. right. right. right. left. reflexivity.
  - apply Hnews. vm_compute. right. right. right. left. reflexivity.
Defined.






Lemma map_completion_projects (l : list value) :
  forall ts, map_completion project_template l = Return ts ->
             Forall2 projects l ts.
Proof.
  induction l as [|m l IH]; intros ts; cbn [map_completion].
  - intros H. injection H as <-. constructor.
  - unfold project_template at 1.
    destruct (get m (lit "id")) as [i|] eqn:Hi; [|discriminate].
    destruct (get m (lit "name")) as [n|] eqn:Hn; [|discriminate].
    cbn [cbind].
    destruct (ToNumber i) as [x|] eqn:Hx; [|discriminate]. cbn [cbind].
    destruct (map_completion project_template l) as [ts'|]; [|discriminate].
    cbn [cbind]. intros H. injection H as <-.
    constructor; [|now apply IH].
    assert (Hown : i = get_own m (lit "id") /\ n = get_own m (lit "name")).
    { destruct m; try discriminate; injection Hi as <-; injection Hn as <-;
        split; reflexivity. }
    destruct Hown as [-> ->]. split; [exact Hx|reflexivity].
Qed.

Lemma map_completion_entries (l : list value) :
  forall ts, map_completion project_template l = Return ts ->
             forallb template_entry l = true.
Proof.
  induction l as [|m l IH]; intros ts; cbn [map_completion forallb];
    [reflexivity|].
  unfold project_template at 1.
  destruct (get m (lit "id")) as [i|] eqn:Hi; [|discriminate].
  destruct (get m (lit "name")) as [n|] eqn:Hn; [|discriminate].
  cbn [cbind].
  destruct (ToNumber i) as [x|] eqn:Hx; [|discriminate]. cbn [cbind].
  destruct (map_completion project_template l) as [ts'|]; [|discriminate].
  cbn [cbind]. intros _. rewrite (IH ts' eq_refl), andb_true_r.
  unfold template_entry.
  assert (Hown : is_nullish m = false /\ i = get_own m (lit "id")).
  { destruct m; try discriminate; injection Hi as <-; split; reflexivity. }
  destruct Hown as [-> ->]. now rewrite Hx.
Qed.

(** Whenever [fetchImgflipTemplates] returns, the answer was [ok] and its
    body had a truthy success flag and a list under [data.memes]; the
    result is the projection, in order, of the first 100 entries of that
    list, none of which is [null]: 100 templates at most. *)
Lemma templates_at_most_100 (w : World) (templates : list ImgflipTemplate) :
  snd (fetchImgflipTemplates w) = Return templates ->
  exists res payload memes,
    w GetMemes = Return res
    /\ ok res = true
    /\ json res = Return payload
    /\ ToBoolean (get_own payload (lit "success")) = true
    /\ get_opt (get_own payload (lit "data")) (lit "memes") = VArray memes
    /\ forallb template_entry (firstn 100 memes) = true
    /\ Forall2 projects (firstn 100 memes) templates
    /\ List.length templates = Nat.min 100 (List.length memes)
    /\ (List.length templates <= 100)%nat.
Proof.
  unfold fetchImgflipTemplates, bind, fetch, lift, throw.
  destruct (w GetMemes) as [res|]; [|discriminate].
  destruct (ok res) eqn:Hok; cbn [negb]; [|discriminate].
  destruct (json res) as [payload|] eqn:Hjson; [|discriminate].
  destruct (get payload (lit "success")) as [success|] eqn:Hs; [|discriminate].
  destruct (ToBoolean success) eqn:Hb; cbn [negb]; [|discriminate].
  destruct (get payload (lit "data")) as [data|] eqn:Hd; [|discriminate].
  destruct (get data (lit "memes")) as [memes|] eqn:Hm; [|discriminate].
  unfold slice_and_project. destruct memes as [| | | | |l|]; try discriminate.
  destruct (map_completion project_template (firstn 100 l)) as [ts|] eqn:E;
    [|discriminate].
  cbn [snd]. intros H. injection H as <-.
  assert (Hown : success = get_own payload (lit "success")
                 /\ data = get_own payload (lit "data")).
  { destruct payload; try discriminate; injection Hs as <-; injection Hd as <-;
      split; reflexivity. }
  destruct Hown as [-> ->].
  assert (Hmemes : get_opt (get_own payload (lit "data")) (lit "memes") = VArray l).
  { destruct (get_own payload (lit "data")); try discriminate;
      cbn [get get_opt] in *; now injection Hm. }
  pose proof (map_completion_entries _ _ E) as Hentries.
  apply map_completion_projects in E.
  pose proof (Forall2_length E) as Hlen. rewrite length_firstn in Hlen.
  exists res, payload, l. repeat split; try assumption; try reflexivity; lia.
Qed.

Lemma templates_at_most_100_witness :
  exists res payload memes,
    Scenario.big_catalog_world GetMemes = Return res
    /\ ok res = true
    /\ json res = Return payload
    /\ ToBoolean (get_own payload (lit "success")) = true
    /\ get_opt (get_own payload (lit "data")) (lit "memes") = VArray memes
    /\ forallb template_entry (firstn 100 memes) = true
    /\ Forall2 projects (firstn 100 memes) (repeat Cases.one_does_not_simply 100)
    /\ List.length (repeat Cases.one_does_not_simply 100)
       = Nat.min 100 (List.length memes)
    /\ (List.length (repeat Cases.one_does_not_simply 100) <= 100)%nat.
Proof.
  apply (templates_at_most_100 Scenario.big_catalog_world
           (repeat Cases.one_does_not_simply 100)).
  vm_compute. reflexivity.
Defined.

(** ** The news search *)

(** A body that is not [null] and has no list under [results] gives
    the empty sequence. *)
Lemma fetchIndianNews_defaults (env : Env) (topic : value) (w : World)
      (params : list (jsstring * jsstring)) (res : fetch_response)
      (data : value) :
  news_params env topic = Return params ->
  w (GetNews params) = Return res ->
  ok res = true ->
  json res = Return data ->
  is_nullish data = false ->
  (forall l, get_own data (lit "results") <> VArray l) ->
  fetchIndianNews env topic w = ([GetNews params], Return []).
Proof.
  intros Hp Hw Hok Hjson Hdata Hresults.
  unfold fetchIndianNews, bind, fetch, lift, throw, ret.
  rewrite Hp, Hw, Hok. cbn [negb]. rewrite Hjson.
  replace (get data (lit "results")) with (Return (get_own data (lit "results")))
    by (destruct data; try discriminate; reflexivity).
  destruct (get_own data (lit "results")) eqn:E; try reflexivity.
  now destruct (Hresults elems).
Qed.

Lemma fetchIndianNews_defaults_witness :
  fetchIndianNews Scenario.credentials (VString (lit "cricket")) Scenario.no_results
  = ([GetNews [ (lit "apikey", lit "news-key"); (lit "country", lit "in");
                (lit "language", lit "en"); (lit "size", lit "10");
                (lit "q", lit "cricket") ]],
     Return []).
Proof.
  apply (fetchIndianNews_defaults Scenario.credentials (VString (lit "cricket"))
           Scenario.no_results _
           {| ok := true; status := 200; statusText := lit "OK";
              json := Return (VObject [ (lit "status", VString (lit "error"));
                                        (lit "results",
                                         VObject [ (lit "message", VString (lit "quota")) ]) ]) |}
           (VObject [ (lit "status", VString (lit "error"));
                      (lit "results",
                       VObject [ (lit "message", VString (lit "quota")) ]) ]));
    try (vm_compute; reflexivity).
  intros l. vm_compute. discriminate.
Defined.

(** C7 fails on the code: when the news service answers with HTTP
    success and the JSON text [null], the parsed body has no [results]
    list, yet [fetchIndianNews] throws a TypeError instead of returning
    the empty sequence (reading [data.results] is not guarded the way
    [generateCaption] guards [data?.candidates]), and the route answers
    500. *)
Theorem fetchIndianNews_null_body_throws :
  fetchIndianNews Scenario.credentials (VString (lit "cricket")) Scenario.null_news
  = ([GetNews [ (lit "apikey", lit "news-key"); (lit "country", lit "in");
                (lit "language", lit "en"); (lit "size", lit "10");
                (lit "q", lit "cricket") ]],
     Throw TypeError)
  /\ snd (fetch_indian_news Scenario.credentials Scenario.cricket Scenario.null_news)
     = Res500 TypeError.
Proof. split; vm_compute; reflexivity. Qed.

(** ** Credentials *)

Lemma missing_spec (env : Env) (key : jsstring) :
  In key (missing env)
  <-> In key required
      /\ (env_get env key = VUndefined \/ env_get env key = VString []).
Proof.
  unfold missing. rewrite filter_In.
  assert (Hget : env_get env key = VUndefined
                 \/ exists s, env_get env key = VString s).
  { unfold env_get. destruct (_ !! _); eauto. }
  split; intros [Hin H]; (split; [exact Hin|]).
  - destruct Hget as [Hu | [[|c s] Hs]]; auto.
    rewrite Hs in H. discriminate.
  - destruct H as [-> | ->]; reflexivity.
Qed.

Lemma validateEnvVars_outcome (env : Env) :
  validateEnvVars env =
  match missing env with
  | [] => Return tt
  | _ :: _ =>
      Throw (Error (lit "Missing required environment variables: "
                    ++ join (lit ", ") (missing env)))
  end.
Proof. unfold validateEnvVars. now destruct (missing env). Qed.

(** A route that starts with the check sends nothing and answers with
    the error of the check when it throws. *)
Lemma credential_route_fails (env : Env) (e : exn) :
  validateEnvVars env = Throw e ->
  Forall (fun route : handler => forall req w, route env req w = ([], Res500 e))
         credential_routes.
Proof.
  intros H. unfold credential_routes.
  repeat constructor; intros req w;
    unfold fetch_indian_news, generate_meme_caption, create_meme,
      generate_news_meme, puch_generate_meme, respond, bind, lift;
    now rewrite H.
Qed.

(** C8: the keys listed are exactly the required keys that are unset or
    empty, in the order of [required]; when there is one, every route
    that checks credentials answers with the error that lists them,
    having sent nothing; when there is none, the check returns. *)
Theorem missing_credentials_reported (env : Env) :
  (forall key, In key (missing env)
               <-> In key required
                   /\ (env_get env key = VUndefined \/ env_get env key = VString []))
  /\ (missing env = [] -> validateEnvVars env = Return tt)
  /\ (missing env <> [] ->
      Forall (fun route : handler =>
                forall req w,
                  route env req w
                  = ([], Res500 (Error (lit "Missing required environment variables: "
                                        ++ join (lit ", ") (missing env)))))
             credential_routes).
Proof.
  split; [apply missing_spec|]. rewrite validateEnvVars_outcome.
  split; intros H.
  - now rewrite H.
  - apply credential_route_fails. rewrite validateEnvVars_outcome.
    destruct (missing env); [contradiction|reflexivity].
Qed.

(** With the generative-text key unset and the renderer password empty,
    exactly these two are listed; with all four set, the check returns. *)
Example missing_credentials_listed :
  validateEnvVars
    (<[lit "IMGFLIP_PASSWORD" := []]> (delete (lit "GEMINI_API_KEY") Scenario.credentials))
  = Throw (Error (lit "Missing required environment variables: GEMINI_API_KEY, IMGFLIP_PASSWORD"))
  /\ validateEnvVars Scenario.credentials = Return tt.
Proof. split; vm_compute; reflexivity. Qed.

(** Every subset of the four credentials: when exactly the keys that
    [unset] selects are missing, exactly these are listed. *)
Lemma every_subset_reported (unset : jsstring -> bool) :
  missing (Scenario.credentials_except unset) = List.filter unset required.
Proof.
  unfold Scenario.credentials_except, missing, required.
  cbn [List.filter fst].
  destruct (unset (lit "NEWSDATA_API_KEY")), (unset (lit "GEMINI_API_KEY")),
    (unset (lit "IMGFLIP_USERNAME")), (unset (lit "IMGFLIP_PASSWORD"));
    vm_compute; reflexivity.
Qed.

(** ** Required fields of the render-only route *)

(** C9: with the credentials in place, a request to [/create_meme] in
    which [templateId], [topText] or [bottomText] is falsy (absent, 0, NaN,
    the empty string, null, false) is answered with "Missing required
    parameters", and the renderer is not called. *)
Theorem create_meme_requires_truthy (env : Env) (req : Req) (w : World)
        (templateId topText bottomText : value) :
  validateEnvVars env = Return tt ->
  get (body req) (lit "templateId") = Return templateId ->
  get (body req) (lit "topText") = Return topText ->
  get (body req) (lit "bottomText") = Return bottomText ->
  falsy templateId || falsy topText || falsy bottomText = true ->
  create_meme env req w = ([], Res500 (Error (lit "Missing required parameters"))).
Proof.
  intros Henv H1 H2 H3 Hfalsy.
  unfold create_meme, respond, bind, lift, throw.
  now rewrite Henv, H1, H2, H3, Hfalsy.
Qed.

Lemma create_meme_requires_truthy_witness :
  create_meme Scenario.credentials Scenario.render_zero
    (Scenario.world Scenario.caption_text Scenario.rendered_url)
  = ([], Res500 (Error (lit "Missing required parameters"))).
Proof.
  apply (create_meme_requires_truthy Scenario.credentials Scenario.render_zero
           (Scenario.world Scenario.caption_text Scenario.rendered_url)
           (VNumber (Finite false [] 0)) (VString (lit "top"))
           (VString (lit "bottom")));
    vm_compute; reflexivity.
Defined.

(** Template 0 and the empty string are values of the declared field
    types, and falsy. *)
Example falsy_well_typed :
  falsy (VNumber (Finite false [] 0)) = true /\ falsy (VString []) = true
  /\ falsy (VNumber (Finite false [1] 0)) = false
  /\ falsy (VString (lit "0")) = false.
Proof. repeat split; reflexivity. Qed.

(** Whatever the credentials, such a request never reaches the
    renderer. *)
Lemma create_meme_falsy_no_render (env : Env) (req : Req) (w : World)
      (templateId topText bottomText : value) :
  get (body req) (lit "templateId") = Return templateId ->
  get (body req) (lit "topText") = Return topText ->
  get (body req) (lit "bottomText") = Return bottomText ->
  falsy templateId || falsy topText || falsy bottomText = true ->
  fst (create_meme env req w) = []
  /\ exists e, snd (create_meme env req w) = Res500 e.
Proof.
  intros H1 H2 H3 Hfalsy.
  unfold create_meme, respond, bind, lift, throw.
  rewrite H1, H2, H3, Hfalsy.
  destruct (validateEnvVars env) as [[]|e]; cbn; eauto.
Qed.

(** ** The template route *)

(** C10: [/get_meme_templates] does not look at the credentials: with
    any of them, or none, it sends the catalog request and answers the
    same; every other route, when a credential is missing, answers with
    the error of the check and sends nothing. *)
Theorem get_meme_templates_unchecked (env : Env) (req : Req) (w : World) :
  get_meme_templates env req w = get_meme_templates ∅ req w
  /\ fst (get_meme_templates ∅ req w) = [GetMemes]
  /\ Forall (fun route : handler =>
               forall req' w',
                 route ∅ req' w'
                 = ([], Res500 (Error (lit "Missing required environment variables: NEWSDATA_API_KEY, GEMINI_API_KEY, IMGFLIP_USERNAME, IMGFLIP_PASSWORD"))))
            credential_routes
  /\ (missing env <> [] ->
      Forall (fun route : handler =>
                forall req' w', fst (route env req' w') = [])
             credential_routes).
Proof.
  split; [reflexivity|]. split; [|split].
  - unfold get_meme_templates, respond, bind, ret.
    pose proof (ServiceFacts.fetchImgflipTemplates_trace w) as Ht.
    destruct (fetchImgflipTemplates w) as [t [ts|e]]; cbn [fst] in *; subst t;
      reflexivity.
  - apply credential_route_fails. reflexivity.
  - intros H.
    assert (Hthrow : exists e, validateEnvVars env = Throw e).
    { rewrite validateEnvVars_outcome. destruct (missing env); [contradiction|eauto]. }
    destruct Hthrow as [e He].
    pose proof (credential_route_fails env e He) as Hroutes.
    rewrite Forall_forall in *.
    intros route Hin req' w'. now rewrite (Hroutes route Hin).
Qed.

(** ** The selected article *)

(** When the news search returned articles and the selected one, if any,
    has no truthy [title] or [description], [generate_news_meme] answers
    "Invalid article" and [puch_generate_meme] "Selected article is missing
    title/description"; nothing is sent after the news request. *)
Lemma invalid_article_rejected (env : Env) (req : Req) (w : World)
      (t i : value) (tn : list request) (news : list value) (key : jsstring) :
  validateEnvVars env = Return tt ->
  get (body req) (lit "topic") = Return t ->
  ToBoolean t = true ->
  get (body req) (lit "articleIndex") = Return i ->
  fetchIndianNews env t w = (tn, Return news) ->
  news <> [] ->
  ToString (or_else i zero) = Return key ->
  falsy (get_opt (get_own (VArray news) key) (lit "title"))
  || falsy (get_opt (get_own (VArray news) key) (lit "description")) = true ->
  generate_news_meme env req w = (tn, Res500 (Error (lit "Invalid article")))
  /\ puch_generate_meme env req w
     = (tn, Res500 (Error (lit "Selected article is missing title/description"))).
Proof.
  intros Henv Ht Htruthy Hi Hnews Hne Hkey Hfalsy.
  assert (Hlen : (List.length news =? 0)%nat = false).
  { destruct news; [contradiction|reflexivity]. }
  assert (Htopic : forall d, or_else t d = t).
  { intros d. unfold or_else. now rewrite Htruthy. }
  split.
  - unfold generate_news_meme, respond, bind, lift, throw.
    rewrite Henv, Ht, Hi. cbv zeta. rewrite Htopic, Hnews, Hlen, Hkey, Hfalsy.
    cbn [app]. now rewrite !app_nil_r.
  - unfold puch_generate_meme, respond, bind, lift, throw.
    rewrite Henv, Ht, Hi. cbv zeta. rewrite !Htopic.
    unfold falsy at 1. rewrite Htruthy. cbn [negb].
    rewrite Hnews, Hlen, Hkey, Hfalsy.
    cbn [app]. now rewrite !app_nil_r.
Qed.

Lemma invalid_article_rejected_witness :
  generate_news_meme Scenario.credentials Scenario.cricket_sixth
    (Scenario.world Scenario.caption_text Scenario.rendered_url)
  = ([GetNews [ (lit "apikey", lit "news-key"); (lit "country", lit "in");
                (lit "language", lit "en"); (lit "size", lit "10");
                (lit "q", lit "cricket") ]],
     Res500 (Error (lit "Invalid article")))
  /\ puch_generate_meme Scenario.credentials Scenario.cricket_sixth
       (Scenario.world Scenario.caption_text Scenario.rendered_url)
     = ([GetNews [ (lit "apikey", lit "news-key"); (lit "country", lit "in");
                   (lit "language", lit "en"); (lit "size", lit "10");
                   (lit "q", lit "cricket") ]],
        Res500 (Error (lit "Selected article is missing title/description"))).
Proof.
  apply (invalid_article_rejected Scenario.credentials Scenario.cricket_sixth
           (Scenario.world Scenario.caption_text Scenario.rendered_url)
           (VString (lit "cricket")) (VNumber (Finite false [5] 0)) _
           [Scenario.article] (lit "5"));
    try (vm_compute; reflexivity).
  discriminate.
Defined.

(** ** The scenario, end to end *)

(** One article about cricket, one template, a caption and a rendered
    image: both pipelines answer with the article, the caption and the URL,
    after four requests. *)
Example cricket_meme :
  snd (generate_news_meme Scenario.credentials Scenario.cricket
         (Scenario.world Scenario.caption_text Scenario.rendered_url))
  = Res200
      (VObject
         [ (lit "success", VBool true);
           (lit "article",
            VObject [ (lit "title", VString (lit "India wins"));
                      (lit "description", VString (lit "Historic victory")) ]);
           (lit "caption",
            VObject [ (lit "image", VNumber (Finite false [1] 0));
                      (lit "topText", VString (lit "When India wins"));
                      (lit "bottomText", VString (lit "Everyone celebrates")) ]);
           (lit "memeUrl", VString (lit "https://i.imgflip.com/abc.jpg")) ])
  /\ List.map is_render_call
       (fst (puch_generate_meme Scenario.credentials Scenario.cricket
               (Scenario.world Scenario.caption_text Scenario.rendered_url)))
     = [false; false; false; true].
Proof. split; vm_compute; reflexivity. Qed.

End RouteTheorems.

(** * Integers: template ids and article indices *)

Module IntegerFacts.
Import NumberFacts.

Lemma N_digits_from_head (fuel : nat) :
  forall n acc, n <> 0 -> n < 2 ^ N.of_nat fuel ->
    exists d r, N_digits_from fuel n acc = d :: r /\ (d =? 0) = false.
Proof.
  induction fuel as [|f IH]; intros n acc Hn Hlt.
  - change (2 ^ N.of_nat 0) with 1 in Hlt. lia.
  - cbn [N_digits_from]. destruct (n / 10 =? 0) eqn:Hq.
    + apply N.eqb_eq in Hq. exists (n mod 10), acc. split; [reflexivity|].
      apply N.eqb_neq. pose proof (N.div_mod n 10). lia.
    + apply N.eqb_neq in Hq. apply IH; [exact Hq|].
      rewrite Nat2N.inj_succ, N.pow_succ_r' in Hlt.
      apply N.Div0.div_lt_upper_bound. lia.
Qed.

Lemma N_digits_head (n : N) :
  n <> 0 -> exists d r, N_digits n = d :: r /\ (d =? 0) = false.
Proof.
  intros Hn. apply N_digits_from_head; [exact Hn|].
  rewrite Nat2N.inj_succ, N2Nat.id.
  apply N.log2_spec. lia.
Qed.

Lemma N_digits_zero : N_digits 0 = [0].
Proof. reflexivity. Qed.

Lemma horner_lower (ds : list N) :
  forall acc, acc * 10 ^ N.of_nat (List.length ds) <= horner acc ds.
Proof.
  unfold horner.
  induction ds as [|d ds IH]; intros acc; cbn [fold_left List.length].
  - change (10 ^ N.of_nat 0) with 1. lia.
  - etransitivity; [|apply IH].
    rewrite Nat2N.inj_succ, N.pow_succ_r'.
    generalize (10 ^ N.of_nat (List.length ds)). intros p. nia.
Qed.

Lemma N_digits_length (n : N) (k : nat) :
  n < 10 ^ N.of_nat k -> (0 < k)%nat -> (List.length (N_digits n) <= k)%nat.
Proof.
  intros Hlt Hk.
  destruct (N.eq_dec n 0) as [->|Hn];
    [rewrite N_digits_zero; cbn [List.length]; lia|].
  destruct (N_digits_head n Hn) as (d & r & Hds & Hd).
  pose proof (N_digits_horner n) as Hh. rewrite Hds in *.
  apply N.eqb_neq in Hd.
  assert (Hlow : 10 ^ N.of_nat (List.length r) <= n).
  { rewrite <- Hh. unfold horner. cbn [fold_left].
    etransitivity; [|apply horner_lower]. nia. }
  cbn [List.length].
  destruct (le_lt_dec (S (List.length r)) k) as [|Hgt]; [assumption|exfalso].
  assert (10 ^ N.of_nat k <= 10 ^ N.of_nat (List.length r)).
  { apply N.pow_le_mono_r; lia. }
  lia.
Qed.

Lemma strip_trailing_split (ds : list N) :
  ds = strip_trailing_zeros ds
       ++ repeat 0 (List.length ds - List.length (strip_trailing_zeros ds)).
Proof.
  induction ds as [|d ds IH]; [reflexivity|].
  cbn [strip_trailing_zeros].
  destruct (strip_trailing_zeros ds) as [|x t] eqn:E.
  - cbn [app List.length] in IH. rewrite Nat.sub_0_r in IH.
    destruct (d =? 0) eqn:Hd.
    + apply N.eqb_eq in Hd. subst d. cbn [app List.length].
      rewrite Nat.sub_0_r. cbn [repeat]. now rewrite <- IH.
    + cbn [app List.length]. replace (S (List.length ds) - 1)%nat with (List.length ds) by lia.
      now rewrite <- IH.
  - cbn [app List.length] in *.
    replace (S (List.length ds) - S (S (List.length t)))%nat
      with (List.length ds - S (List.length t))%nat by lia.
    now rewrite <- IH.
Qed.

Lemma strip_trailing_head (d : N) (r : list N) :
  (d =? 0) = false -> exists r2, strip_trailing_zeros (d :: r) = d :: r2.
Proof.
  intros Hd. cbn [strip_trailing_zeros].
  destruct (strip_trailing_zeros r); rewrite ?Hd; eauto.
Qed.

(** A natural number below 10^21 prints as its decimal digits. *)
Lemma Number_toString_of_N (n : N) :
  n < 10 ^ 21 -> Number_toString (number_of_N n) = N_to_string n.
Proof.
  intros Hlt. destruct (N.eq_dec n 0) as [->|Hn]; [reflexivity|].
  pose proof (N_digits_length n 21 Hlt ltac:(lia)) as Hlen.
  destruct (N_digits_head n Hn) as (d & r & Hds & Hd).
  unfold number_of_N, N_to_string, mk_number. rewrite Hds in *.
  rewrite (strip_leading_head d r Hd).
  pose proof (strip_trailing_split (d :: r)) as Hsplit.
  destruct (strip_trailing_head d r Hd) as [r2 Hr2].
  rewrite Hr2 in *. cbv zeta.
  set (t := (List.length (d :: r) - List.length (d :: r2))%nat) in *.
  assert (Ht : (List.length (d :: r) = List.length (d :: r2) + t)%nat).
  { rewrite Hsplit at 1. now rewrite length_app, repeat_length. }
  unfold Number_toString.
  replace (Z.of_nat (List.length (d :: r2)) + (0 + Z.of_nat t))%Z
    with (Z.of_nat (List.length (d :: r))) by lia.
  cbn [List.length] in Hlen, Ht.
  replace ((-5 <=? Z.of_nat (List.length (d :: r)))%Z
           && (Z.of_nat (List.length (d :: r)) <=? 21)%Z) with true
    by (cbn [List.length]; symmetry; apply andb_true_iff; split; apply Z.leb_le; lia).
  replace (Z.of_nat (List.length (d :: r2)) <=? Z.of_nat (List.length (d :: r)))%Z
    with true by (cbn [List.length]; symmetry; apply Z.leb_le; lia).
  cbn [app].
  replace (Z.to_nat (Z.of_nat (List.length (d :: r)) - Z.of_nat (List.length (d :: r2))))
    with t by (cbn [List.length] in *; lia).
  rewrite Hsplit, map_app, map_digit_char_zeros. reflexivity.
Qed.

Lemma is_digit_char_not_whitespace (c : code_unit) :
  is_digit_char c = true -> is_whitespace c = false.
Proof.
  unfold is_digit_char, is_whitespace. intros H.
  apply andb_true_iff in H as [H1 H2].
  apply N.leb_le in H1. apply N.leb_le in H2.
  repeat (apply orb_false_iff; split);
    try (apply N.eqb_neq; lia).
  apply andb_false_iff. left. apply N.leb_gt. lia.
Qed.

Lemma forallb_digit_chars (ds : list N) :
  all_digits ds = true -> forallb is_digit_char (List.map digit_char ds) = true.
Proof.
  induction ds as [|d ds IH]; [reflexivity|].
  cbn [all_digits forallb List.map]. intros H.
  apply andb_true_iff in H as [Hd Hds].
  rewrite (digit_char_is_digit d Hd). now apply IH.
Qed.

Lemma map_digit_of_digit_char (ds : list N) :
  List.map digit_of_char (List.map digit_char ds) = ds.
Proof.
  induction ds as [|d ds IH]; [reflexivity|].
  cbn [List.map]. now rewrite digit_of_digit_char, IH.
Qed.

(** The decimal digits of [n] are the array index [n]. *)
Lemma array_index_of_N (n : N) : array_index (N_to_string n) = Some (N.to_nat n).
Proof.
  unfold array_index, N_to_string.
  pose proof (N_digits_all n) as Hall.
  pose proof (N_digits_horner n) as Hh.
  destruct (N_digits n) as [|d r] eqn:Hds; [now destruct (N_digits_cons n)|].
  cbn [List.map].
  change (digit_char d :: List.map digit_char r)
    with (List.map digit_char (d :: r)).
  change (digit_of_char (digit_char d) :: List.map digit_of_char (List.map digit_char r))
    with (List.map digit_of_char (List.map digit_char (d :: r))).
  rewrite (forallb_digit_chars _ Hall), map_digit_of_digit_char, Hh.
  assert (Himp : implb (digit_char d =? 48)
                   (match List.map digit_char r with [] => true | _ => false end)
                 = true).
  { destruct (digit_char d =? 48) eqn:Hd; [|reflexivity].
    apply N.eqb_eq in Hd. unfold digit_char in Hd.
    assert (d = 0) by lia. subst d.
    destruct (N.eq_dec n 0) as [->|Hn].
    - rewrite N_digits_zero in Hds. injection Hds as <-. reflexivity.
    - destruct (N_digits_head n Hn) as (d' & r' & Hds' & Hd').
      rewrite Hds in Hds'. injection Hds' as <- <-. discriminate. }
  cbn [List.map] in *. now rewrite Himp.
Qed.

Lemma trim_digit_string (ds : list N) :
  all_digits ds = true -> trim (List.map digit_char ds) = List.map digit_char ds.
Proof.
  intros Hall. destruct ds as [|d r]; [reflexivity|].
  pose proof (forallb_digit_chars _ Hall) as Hchars.
  unfold trim. cbn [List.map] in *.
  rewrite StringFacts.trim_start_head.
  2:{ apply is_digit_char_not_whitespace. cbn [forallb] in Hchars.
      now apply andb_true_iff in Hchars. }
  assert (Hne : digit_char d :: List.map digit_char r <> []) by discriminate.
  destruct (exists_last Hne) as (s & c & Hs). rewrite Hs in *.
  apply StringFacts.trim_end_last. apply is_digit_char_not_whitespace.
  rewrite forallb_app in Hchars. apply andb_true_iff in Hchars as [_ Hc].
  cbn [forallb] in Hc. now rewrite andb_true_r in Hc.
Qed.

Lemma parse_str_decimal_digits (d : N) (r : list N) :
  all_digits (d :: r) = true ->
  parse_str_decimal (List.map digit_char (d :: r)) = mk_number false (d :: r) 0.
Proof.
  intros Hall. unfold parse_str_decimal.
  assert (Hd : (d <? 10) = true).
  { cbn [all_digits forallb] in Hall. now apply andb_true_iff in Hall. }
  apply N.ltb_lt in Hd.
  cbn [List.map].
  replace (digit_char d =? 45) with false
    by (symmetry; apply N.eqb_neq; unfold digit_char; lia).
  replace (digit_char d =? 43) with false
    by (symmetry; apply N.eqb_neq; unfold digit_char; lia).
  replace (JsString.eqb (digit_char d :: List.map digit_char r) (lit "Infinity"))
    with false.
  2:{ symmetry. change (lit "Infinity") with (73 :: lit "nfinity").
      cbn [JsString.eqb].
      replace (digit_char d =? 73) with false
        by (symmetry; apply N.eqb_neq; unfold digit_char; lia).
      reflexivity. }
  change (digit_char d :: List.map digit_char r)
    with (List.map digit_char (d :: r)).
  rewrite <- (app_nil_r (List.map digit_char (d :: r))).
  rewrite (span_digits_map (d :: r) [] Hall I).
  rewrite app_nil_r. cbn [parse_exponent List.length].
  reflexivity.
Qed.

(** [Number] of the decimal digits of [n] is [n]. *)
Lemma StringToNumber_of_N (n : N) : StringToNumber (N_to_string n) = number_of_N n.
Proof.
  unfold StringToNumber, N_to_string, number_of_N.
  pose proof (N_digits_all n) as Hall.
  rewrite (trim_digit_string _ Hall).
  destruct (N_digits n) as [|d r] eqn:Hds; [now destruct (N_digits_cons n)|].
  cbn [List.map].
  assert (Hnone :
    (if digit_char d =? 48 then
       match List.map digit_char r with
       | p :: (_ :: _) as body =>
           match non_decimal_radix p with
           | Some radix => Some (parse_radix radix 0 body)
           | None => None
           end
       | _ => None
       end
     else None) = None).
  { destruct (digit_char d =? 48); [|reflexivity].
    destruct r as [|p [|q r]]; try reflexivity.
    cbn [List.map].
    assert (Hp : (p <? 10) = true).
    { cbn [all_digits forallb] in Hall.
      apply andb_true_iff in Hall as [_ Hall].
      now apply andb_true_iff in Hall. }
    apply N.ltb_lt in Hp. unfold non_decimal_radix, digit_char.
    repeat match goal with
           | |- context [?a =? ?b] =>
               replace (a =? b) with false by (symmetry; apply N.eqb_neq; lia)
           end.
    reflexivity. }
  rewrite Hnone.
  change (digit_char d :: List.map digit_char r)
    with (List.map digit_char (d :: r)).
  now apply parse_str_decimal_digits.
Qed.

End IntegerFacts.

(** * Cleaning the caption text *)

Module CleaningFacts.
Import StringFacts.

Lemma is_prefix_self (p s : jsstring) : is_prefix p (p ++ s) = true.
Proof.
  induction p as [|c p IH]; [reflexivity|].
  cbn [app is_prefix]. now rewrite N.eqb_refl, IH.
Qed.

Lemma remove_all_from_skip (p a b : jsstring) :
  remove_all_from p (List.length a) (a ++ b) = remove_all_from p O b.
Proof. induction a as [|c a IH]; [reflexivity|exact IH]. Qed.

(** A match at the head is dropped. *)
Lemma remove_all_match (p s : jsstring) :
  p <> [] -> remove_all p (p ++ s) = remove_all p s.
Proof.
  intros Hp. unfold remove_all. destruct p as [|c p]; [contradiction|].
  change ((c :: p) ++ s) with (c :: (p ++ s)). cbn [remove_all_from].
  change (c :: (p ++ s)) with ((c :: p) ++ s).
  rewrite is_prefix_self. cbn [List.length Nat.pred].
  apply remove_all_from_skip.
Qed.

(** Where no match starts, the code unit is kept. *)
Lemma remove_all_keep (p : jsstring) (c : code_unit) (s : jsstring) :
  is_prefix p (c :: s) = false -> remove_all p (c :: s) = c :: remove_all p s.
Proof. intros H. unfold remove_all. cbn [remove_all_from]. now rewrite H. Qed.

Lemma is_prefix_fence (s : jsstring) :
  is_prefix fence s = true -> exists r, s = fence ++ r.
Proof.
  unfold fence. destruct s as [|a [|b [|c r]]]; cbn [is_prefix];
    rewrite ?andb_false_r; try discriminate.
  intros H. apply andb_true_iff in H as [Ha H].
  apply andb_true_iff in H as [Hb H].
  apply andb_true_iff in H as [Hc _].
  apply N.eqb_eq in Ha, Hb, Hc. subst. now exists r.
Qed.

(** Once the fences are removed, none is left: a run of back-ticks
    loses three at a time and ends shorter than three. *)
Lemma remove_fence_scan (m : nat) :
  forall s n, (List.length s <= m)%nat -> (n <= 2)%nat ->
    (0 < n -> is_prefix (repeat backtick (3 - n)) s = false)%nat ->
    fence_scan n (remove_all fence s) <> None.
Proof.
  induction m as [|m IH]; intros s n Hlen Hn Hrun.
  - destruct s; [|cbn in Hlen; lia]. discriminate.
  - destruct s as [|c s]; [discriminate|].
    destruct (is_prefix fence (c :: s)) eqn:Hp.
    + destruct (is_prefix_fence _ Hp) as [r Hr]. rewrite Hr in *.
      rewrite remove_all_match by discriminate.
      assert (n = 0)%nat as ->.
      { destruct n as [|[|[|n]]]; try lia; try reflexivity;
          (specialize (Hrun ltac:(lia)); discriminate). }
      apply IH; [|lia|lia].
      unfold fence in Hlen. cbn [app List.length] in Hlen. lia.
    + rewrite (remove_all_keep _ _ _ Hp). cbn [fence_scan].
      cbn [List.length] in Hlen.
      destruct (c =? backtick) eqn:Hc.
      * apply N.eqb_eq in Hc. subst c.
        destruct n as [|[|[|n]]]; try lia.
        -- apply IH; [lia|lia|]. intros _.
           unfold fence, backtick in *. cbn [Nat.sub repeat is_prefix] in *.
           destruct s as [|a [|b s]]; try reflexivity; cbn [is_prefix] in *.
           ++ now rewrite andb_false_r.
           ++ rewrite N.eqb_refl in Hp. cbn [andb] in Hp.
              rewrite andb_true_r in Hp. now rewrite andb_true_r.
        -- apply IH; [lia|lia|]. intros _.
           specialize (Hrun ltac:(lia)).
           unfold backtick in *. cbn [Nat.sub repeat is_prefix] in *.
           rewrite N.eqb_refl in Hrun. cbn [andb] in Hrun.
           destruct s as [|a s]; [reflexivity|]. exact Hrun.
        -- specialize (Hrun ltac:(lia)).
           unfold backtick in *. cbn [Nat.sub repeat is_prefix] in Hrun.
           now rewrite N.eqb_refl in Hrun.
      * destruct n as [|[|[|n]]]; try lia; (apply IH; [lia|lia|lia]).
Qed.

Lemma remove_fence_none_left (s : jsstring) :
  contains fence (remove_all fence s) = false.
Proof.
  apply fence_scan_absent.
  apply (remove_fence_scan (List.length s)); [lia|lia|lia].
Qed.

Lemma is_prefix_app_r (p a b : jsstring) :
  is_prefix p a = true -> is_prefix p (a ++ b) = true.
Proof.
  revert a; induction p as [|x p IH]; intros [|y a]; cbn [is_prefix app];
    try reflexivity; try discriminate.
  intros H. apply andb_true_iff in H as [Hx Hp]. rewrite Hx. now apply IH.
Qed.

Lemma contains_app_l (p a b : jsstring) :
  contains p a = true -> contains p (a ++ b) = true.
Proof.
  induction a as [|c a IH]; cbn [contains app]; intros H.
  - rewrite orb_false_r in H. destruct p; [|discriminate].
    destruct b; reflexivity.
  - apply orb_true_iff in H as [H|H]; apply orb_true_iff.
    + left. now apply (is_prefix_app_r p (c :: a) b).
    + right. now apply IH.
Qed.

Lemma contains_app_r (p a b : jsstring) :
  contains p b = true -> contains p (a ++ b) = true.
Proof.
  intros H. induction a as [|c a IH]; [exact H|].
  cbn [contains app]. rewrite IH. apply orb_true_r.
Qed.

Lemma absent_app (p a b : jsstring) :
  contains p (a ++ b) = false -> contains p a = false /\ contains p b = false.
Proof.
  intros H. split.
  - destruct (contains p a) eqn:E; [|reflexivity].
    now rewrite (contains_app_l p a b E) in H.
  - destruct (contains p b) eqn:E; [|reflexivity].
    now rewrite (contains_app_r p a b E) in H.
Qed.

(** ** trim *)

Lemma trim_start_split (s : jsstring) :
  exists ws, s = ws ++ trim_start s /\ forallb is_whitespace ws = true.
Proof.
  induction s as [|c s (ws & Hs & Hws)]; [now exists []|].
  cbn [trim_start]. destruct (is_whitespace c) eqn:Hc.
  - exists (c :: ws). cbn [app forallb]. rewrite Hc, Hws. now rewrite <- Hs.
  - now exists [].
Qed.

Lemma trim_end_split (s : jsstring) :
  exists ws, s = trim_end s ++ ws /\ forallb is_whitespace ws = true.
Proof.
  induction s as [|c s (ws & Hs & Hws)]; [now exists []|].
  cbn [trim_end]. destruct (trim_end s) as [|x t] eqn:E.
  - cbn [app] in Hs. subst s. destruct (is_whitespace c) eqn:Hc.
    + exists (c :: ws). cbn [app forallb]. now rewrite Hc, Hws.
    + now exists ws.
  - exists ws. split; [|exact Hws]. cbn [app] in *. now f_equal.
Qed.

Lemma trim_start_whitespace (ws s : jsstring) :
  forallb is_whitespace ws = true -> trim_start (ws ++ s) = trim_start s.
Proof.
  induction ws as [|c ws IH]; [reflexivity|].
  cbn [forallb app trim_start]. intros H. apply andb_true_iff in H as [Hc Hws].
  rewrite Hc. now apply IH.
Qed.

Lemma trim_end_whitespace (s ws : jsstring) :
  forallb is_whitespace ws = true -> trim_end (s ++ ws) = trim_end s.
Proof.
  intros Hws. induction s as [|c s IH].
  - cbn [app]. induction ws as [|w ws IHw]; [reflexivity|].
    cbn [forallb] in Hws. apply andb_true_iff in Hws as [Hw Hws].
    cbn [trim_end]. rewrite (IHw Hws). cbn. now rewrite Hw.
  - cbn [app trim_end]. now rewrite IH.
Qed.

Lemma trim_start_all_whitespace (s : jsstring) :
  trim_start s = [] <-> forallb is_whitespace s = true.
Proof.
  induction s as [|c s IH]; [split; reflexivity|].
  cbn [trim_start forallb]. destruct (is_whitespace c); [exact IH|].
  split; discriminate.
Qed.

Lemma trim_end_head (c : code_unit) (s : jsstring) :
  is_whitespace c = false -> exists r, trim_end (c :: s) = c :: r.
Proof.
  intros Hc. cbn [trim_end]. destruct (trim_end s); rewrite ?Hc; eauto.
Qed.

(** [s.trim()] is empty exactly when [s] is blank. *)
Lemma trim_blank (s : jsstring) :
  trim s = [] <-> forallb is_whitespace s = true.
Proof.
  unfold trim. rewrite <- trim_start_all_whitespace.
  destruct (trim_start s) as [|c r] eqn:E; [split; reflexivity|].
  assert (Hc : is_whitespace c = false).
  { destruct s as [|x s]; [discriminate|].
    clear -E. induction (x :: s) as [|y l IH]; [discriminate|].
    cbn [trim_start] in E. destruct (is_whitespace y) eqn:Hy; [auto|].
    injection E as -> _. exact Hy. }
  destruct (trim_end_head c r Hc) as [t ->]. split; discriminate.
Qed.

Lemma trim_start_head_spec (s : jsstring) (c : code_unit) (r : jsstring) :
  trim_start s = c :: r -> is_whitespace c = false.
Proof.
  induction s as [|y l IH]; [discriminate|].
  cbn [trim_start]. destruct (is_whitespace y) eqn:Hy; [exact IH|].
  intros E. injection E as -> _. exact Hy.
Qed.

Lemma trim_end_fixed (s : jsstring) : trim_end (trim_end s) = trim_end s.
Proof.
  induction s as [|c s IH]; [reflexivity|].
  cbn [trim_end]. destruct (trim_end s) as [|x t] eqn:E.
  - destruct (is_whitespace c) eqn:Hc; [reflexivity|]. cbn. now rewrite Hc.
  - cbn [trim_end]. cbn [trim_end] in IH. now rewrite IH.
Qed.

Lemma trim_fixed (s : jsstring) : trim (trim s) = trim s.
Proof.
  unfold trim. destruct (trim_start s) as [|c r] eqn:E; [reflexivity|].
  pose proof (trim_start_head_spec s c r E) as Hc.
  destruct (trim_end_head c r Hc) as [t Ht]. rewrite Ht.
  rewrite (trim_start_head c t Hc), <- Ht. apply trim_end_fixed.
Qed.

(** White space around a text does not change what [trim] gives. *)
Lemma trim_padding (lead s trail : jsstring) :
  forallb is_whitespace lead = true -> forallb is_whitespace trail = true ->
  trim (lead ++ s ++ trail) = trim s.
Proof.
  intros Hl Ht. unfold trim. rewrite (trim_start_whitespace _ _ Hl).
  induction s as [|c s IH].
  - cbn [app]. apply trim_start_all_whitespace in Ht. now rewrite Ht.
  - cbn [app trim_start]. destruct (is_whitespace c); [exact IH|].
    change (c :: s ++ trail) with ((c :: s) ++ trail).
    now apply trim_end_whitespace.
Qed.

Lemma trim_absent (p s : jsstring) :
  contains p s = false -> contains p (trim s) = false.
Proof.
  intros H. unfold trim.
  destruct (trim_start_split s) as (ws1 & Hs & _).
  destruct (trim_end_split (trim_start s)) as (ws2 & Hu & _).
  rewrite Hs in H. apply absent_app in H as [_ H].
  rewrite Hu in H. now apply absent_app in H as [H _].
Qed.

Lemma fence_json_absent (s : jsstring) :
  contains fence s = false -> contains fence_json s = false.
Proof.
  intros H. destruct (contains fence_json s) eqn:E; [|reflexivity].
  change fence_json with (fence ++ lit "json") in E.
  apply contains_app in E. congruence.
Qed.

(** ** What follows white space or fence-free text *)

Lemma whitespace_not_backtick (w : code_unit) :
  is_whitespace w = true -> (backtick =? w) = false.
Proof.
  intros H. destruct (backtick =? w) eqn:E; [|reflexivity].
  apply N.eqb_eq in E. subst w. discriminate.
Qed.

(** [p] starts with a back-tick: no match starts in white space. *)
Lemma remove_all_whitespace (p ws s : jsstring) :
  forallb is_whitespace ws = true ->
  remove_all (backtick :: p) (ws ++ s) = ws ++ remove_all (backtick :: p) s.
Proof.
  induction ws as [|w ws IH]; [reflexivity|].
  cbn [forallb app]. intros H. apply andb_true_iff in H as [Hw Hws].
  rewrite remove_all_keep, IH; [reflexivity|exact Hws|].
  cbn [is_prefix]. now rewrite (whitespace_not_backtick w Hw).
Qed.

(** No match of a pattern that starts with a fence starts in text that
    holds no fence and is followed by white space. *)
Lemma remove_all_fence_free (p s : jsstring) (w : code_unit) (t : jsstring) :
  contains fence s = false -> is_whitespace w = true ->
  remove_all (fence ++ p) (s ++ w :: t) = s ++ remove_all (fence ++ p) (w :: t).
Proof.
  intros Hs Hw. pose proof (whitespace_not_backtick w Hw) as Hb.
  induction s as [|c s IH]; [reflexivity|].
  cbn [contains] in Hs. apply orb_false_iff in Hs as [Hp Hs].
  cbn [app]. rewrite remove_all_keep, (IH Hs); [reflexivity|].
  destruct (is_prefix (fence ++ p) (c :: s ++ w :: t)) eqn:E; [|reflexivity].
  apply is_prefix_app in E. exfalso.
  unfold fence, backtick in *.
  destruct s as [|a [|b s]]; cbn [app is_prefix] in *.
  - rewrite Hb, andb_false_r in E. discriminate.
  - rewrite Hb, !andb_false_r in E. discriminate.
  - rewrite !andb_true_r in *. congruence.
Qed.

End CleaningFacts.

Section CaptionCleaning.
Import StringFacts CleaningFacts.

Lemma clean_caption_text (s : jsstring) :
  contains fence s = false -> clean_caption (VString s) = Return (trim s).
Proof.
  intros H. unfold clean_caption.
  rewrite (remove_all_absent _ _ (fence_json_absent s H)).
  now rewrite (remove_all_absent _ _ H).
Qed.

(** The text handed to [JSON.parse] holds no fence and no white space
    at either end, and cleaning it again changes nothing. *)
Theorem clean_caption_settles (s : jsstring) :
  exists t,
    clean_caption (VString s) = Return t
    /\ contains fence t = false
    /\ contains fence_json t = false
    /\ trim t = t
    /\ clean_caption (VString t) = Return t.
Proof.
  exists (trim (remove_all fence (remove_all fence_json s))).
  assert (H : contains fence (trim (remove_all fence (remove_all fence_json s)))
              = false)
    by apply trim_absent, remove_fence_none_left.
  repeat split; try assumption.
  - now apply fence_json_absent.
  - apply trim_fixed.
  - rewrite (clean_caption_text _ H). now rewrite trim_fixed.
Qed.

Lemma contains_backtick_whitespace (p ws : jsstring) :
  forallb is_whitespace ws = true -> contains (backtick :: p) ws = false.
Proof.
  induction ws as [|w ws IH]; [reflexivity|].
  cbn [forallb]. intros H. apply andb_true_iff in H as [Hw Hws].
  cbn [contains is_prefix]. rewrite (whitespace_not_backtick w Hw).
  now apply IH.
Qed.

Lemma whitespace_not_j (w : code_unit) :
  is_whitespace w = true -> (106 =? w) = false.
Proof.
  intros H. destruct (106 =? w) eqn:E; [|reflexivity].
  apply N.eqb_eq in E. subst w. discriminate.
Qed.

(** A fence followed by white space, or by nothing, is no [```json]. *)
Lemma fence_json_not_in_fence (ws : jsstring) :
  forallb is_whitespace ws = true -> contains fence_json (fence ++ ws) = false.
Proof.
  intros Hws.
  pose proof (contains_backtick_whitespace (List.tl fence_json) ws Hws) as Hrest.
  unfold fence, fence_json, backtick in *. cbn [List.tl] in Hrest.
  destruct ws as [|w ws]; [reflexivity|].
  cbn [forallb] in Hws. apply andb_true_iff in Hws as [Hw _].
  pose proof (whitespace_not_backtick w Hw) as Hb. unfold backtick in Hb.
  pose proof (whitespace_not_j w Hw) as Hj.
  cbn [app contains is_prefix] in *. rewrite !N.eqb_refl, Hb, Hj in *.
  cbn [andb orb] in *. rewrite ?andb_false_r. cbn [orb]. exact Hrest.
Qed.

Lemma remove_fence_json_after_fence (w : code_unit) (t : jsstring) :
  is_whitespace w = true ->
  remove_all fence_json (fence ++ w :: t) = fence ++ remove_all fence_json (w :: t).
Proof.
  intros Hw.
  pose proof (whitespace_not_backtick w Hw) as Hb. unfold backtick in Hb.
  pose proof (whitespace_not_j w Hw) as Hj.
  unfold fence, fence_json. cbn [app].
  do 3 (rewrite remove_all_keep;
        [|cbn [is_prefix]; rewrite ?N.eqb_refl, ?Hb, ?Hj; cbn [andb];
          rewrite ?andb_false_r; reflexivity]).
  reflexivity.
Qed.

Lemma remove_fence_json_whitespace (ws s : jsstring) :
  forallb is_whitespace ws = true ->
  remove_all fence_json (ws ++ s) = ws ++ remove_all fence_json s.
Proof. apply (remove_all_whitespace (List.tl fence_json)). Qed.

Lemma remove_fence_whitespace (ws s : jsstring) :
  forallb is_whitespace ws = true ->
  remove_all fence (ws ++ s) = ws ++ remove_all fence s.
Proof. apply (remove_all_whitespace (List.tl fence)). Qed.

Lemma fence_not_in_whitespace (ws : jsstring) :
  forallb is_whitespace ws = true -> contains fence ws = false.
Proof. apply (contains_backtick_whitespace (List.tl fence)). Qed.

(** The text between an opening [```json] (or [```]) line and a closing
    [```] line is cleaned as the text alone. *)
Lemma clean_fenced (lead opening ws1 s ws2 trail : jsstring) :
  opening = fence_json \/ opening = fence ->
  forallb is_whitespace lead = true ->
  forallb is_whitespace ws1 = true -> ws1 <> [] ->
  forallb is_whitespace ws2 = true -> ws2 <> [] ->
  forallb is_whitespace trail = true ->
  contains fence s = false ->
  clean_caption (VString (lead ++ opening ++ ws1 ++ s ++ ws2 ++ fence ++ trail))
  = clean_caption (VString s).
Proof.
  intros Hopen Hlead Hws1 Hne1 Hws2 Hne2 Htrail Hs.
  rewrite (clean_caption_text s Hs). unfold clean_caption. f_equal.
  destruct ws1 as [|w1 ws1]; [contradiction|].
  destruct ws2 as [|w2 ws2]; [contradiction|].
  assert (Hw1 : is_whitespace w1 = true)
    by (cbn [forallb] in Hws1; now apply andb_true_iff in Hws1).
  assert (Hw2 : is_whitespace w2 = true)
    by (cbn [forallb] in Hws2; now apply andb_true_iff in Hws2).
  assert (Hjson :
    remove_all fence_json ((w1 :: ws1) ++ s ++ (w2 :: ws2) ++ fence ++ trail)
    = (w1 :: ws1) ++ s ++ (w2 :: ws2) ++ fence ++ trail).
  { rewrite (remove_fence_json_whitespace _ _ Hws1).
    cbn [app]. rewrite (remove_all_fence_free (lit "json") s w2 _ Hs Hw2).
    change (w2 :: ws2 ++ fence ++ trail) with ((w2 :: ws2) ++ fence ++ trail).
    rewrite (remove_fence_json_whitespace _ _ Hws2).
    now rewrite (remove_all_absent _ _ (fence_json_not_in_fence trail Htrail)). }
  assert (Hfence :
    remove_all fence ((w1 :: ws1) ++ s ++ (w2 :: ws2) ++ fence ++ trail)
    = (w1 :: ws1) ++ s ++ (w2 :: ws2) ++ trail).
  { rewrite (remove_fence_whitespace _ _ Hws1).
    cbn [app]. rewrite (remove_all_fence_free [] s w2 _ Hs Hw2).
    change (w2 :: ws2 ++ fence ++ trail) with ((w2 :: ws2) ++ fence ++ trail).
    rewrite (remove_fence_whitespace _ _ Hws2).
    rewrite remove_all_match by discriminate.
    now rewrite (remove_all_absent _ _ (fence_not_in_whitespace trail Htrail)). }
  assert (Hboth :
    remove_all fence
      (remove_all fence_json
         (lead ++ opening ++ (w1 :: ws1) ++ s ++ (w2 :: ws2) ++ fence ++ trail))
    = lead ++ (w1 :: ws1) ++ s ++ (w2 :: ws2) ++ trail).
  { rewrite (remove_fence_json_whitespace _ _ Hlead).
    destruct Hopen as [-> | ->].
    - rewrite remove_all_match by discriminate. rewrite Hjson.
      rewrite (remove_fence_whitespace _ _ Hlead).
      now rewrite Hfence.
    - change ((w1 :: ws1) ++ s ++ (w2 :: ws2) ++ fence ++ trail)
        with (w1 :: (ws1 ++ s ++ (w2 :: ws2) ++ fence ++ trail)).
      rewrite (remove_fence_json_after_fence w1 _ Hw1).
      change (w1 :: (ws1 ++ s ++ (w2 :: ws2) ++ fence ++ trail))
        with ((w1 :: ws1) ++ s ++ (w2 :: ws2) ++ fence ++ trail).
      rewrite Hjson.
      rewrite (remove_fence_whitespace _ _ Hlead).
      rewrite remove_all_match by discriminate. now rewrite Hfence. }
  rewrite Hboth.
  replace (lead ++ (w1 :: ws1) ++ s ++ (w2 :: ws2) ++ trail)
    with ((lead ++ w1 :: ws1) ++ s ++ ((w2 :: ws2) ++ trail))
    by now rewrite <- !app_assoc.
  apply trim_padding; rewrite forallb_app.
  - now rewrite Hlead, Hws1.
  - now rewrite Hws2, Htrail.
Qed.

(** The text between an opening [```json] (or [```]) line and a closing
    [```] line is cleaned, and parsed, as the text alone. *)
Theorem fenced_caption_unwrapped
        (lead opening ws1 s ws2 trail : jsstring) :
  opening = fence_json \/ opening = fence ->
  forallb is_whitespace lead = true ->
  forallb is_whitespace ws1 = true -> ws1 <> [] ->
  forallb is_whitespace ws2 = true -> ws2 <> [] ->
  forallb is_whitespace trail = true ->
  contains fence s = false ->
  clean_caption (VString (lead ++ opening ++ ws1 ++ s ++ ws2 ++ fence ++ trail))
  = clean_caption (VString s)
  /\ parseMemeCaption
       (VString (lead ++ opening ++ ws1 ++ s ++ ws2 ++ fence ++ trail))
     = parseMemeCaption (VString s).
Proof.
  intros Hopen Hlead Hws1 Hne1 Hws2 Hne2 Htrail Hs.
  pose proof (clean_fenced lead opening ws1 s ws2 trail
                Hopen Hlead Hws1 Hne1 Hws2 Hne2 Htrail Hs) as Hclean.
  split; [exact Hclean|].
  unfold parseMemeCaption, parseMemeCaption_try. now rewrite Hclean.
Qed.

Lemma fenced_caption_unwrapped_witness :
  clean_caption
    (VString ([] ++ fence_json ++ [10] ++ lit "{ }" ++ [10] ++ fence ++ [10]))
  = clean_caption (VString (lit "{ }"))
  /\ parseMemeCaption
       (VString ([] ++ fence_json ++ [10] ++ lit "{ }" ++ [10] ++ fence ++ [10]))
     = parseMemeCaption (VString (lit "{ }")).
Proof.
  apply (fenced_caption_unwrapped [] fence_json [10] (lit "{ }") [10] [10]);
    try reflexivity; try discriminate.
  left. reflexivity.
Defined.

Lemma parse_value_defined (fuel : nat) (s rest : jsstring) (v : value) :
  parse_value fuel s = Parsed v rest -> v <> VUndefined.
Proof.
  destruct fuel as [|f]; [discriminate|]. cbn [parse_value].
  repeat match goal with
         | |- context [match ?x with _ => _ end] =>
             lazymatch x with
             | context [match _ with _ => _ end] => fail
             | _ => destruct x
             end
         end;
    intros H; try discriminate; injection H as <- _; discriminate.
Qed.

Lemma JSON_parse_defined (text : jsstring) (v : value) :
  JSON_parse text = Return v -> v <> VUndefined.
Proof.
  unfold JSON_parse.
  destruct (parse_value (fuel_for text) text) as [v' rest| |] eqn:E;
    try discriminate.
  destruct (skip_ws rest); [|discriminate].
  intros H. injection H as <-. now apply parse_value_defined in E.
Qed.

(** [parseMemeCaption] returns null in three cases only: the cleaned
    text is not JSON, it is the JSON text [null], or one of the three
    members cannot be converted. *)
Theorem parseMemeCaption_null_iff (s : jsstring) :
  parseMemeCaption (VString s) = Return None
  <-> (exists e, JSON_parse (trim (remove_all fence (remove_all fence_json s)))
                 = Throw e)
      \/ JSON_parse (trim (remove_all fence (remove_all fence_json s)))
         = Return VNull
      \/ exists parsed e,
          JSON_parse (trim (remove_all fence (remove_all fence_json s)))
          = Return parsed
          /\ (ToNumber (get_own parsed (lit "image")) = Throw e
              \/ ToString (get_own parsed (lit "topText")) = Throw e
              \/ ToString (get_own parsed (lit "bottomText")) = Throw e).
Proof.
  unfold parseMemeCaption, parseMemeCaption_try, clean_caption. cbn [cbind].
  destruct (JSON_parse _) as [parsed|e0] eqn:Hp.
  2:{ cbn [cbind try_catch]. split; [intros _; left; eauto|reflexivity]. }
  pose proof (JSON_parse_defined _ _ Hp) as Hdef. cbn [cbind].
  destruct (is_nullish parsed) eqn:Hnull.
  { destruct parsed; try discriminate; [contradiction|].
    cbn. split; [intros _; right; left; reflexivity|reflexivity]. }
  assert (Hget : forall k, get parsed k = Return (get_own parsed k)).
  { intros k. destruct parsed; try discriminate; reflexivity. }
  rewrite !Hget. cbn [cbind].
  destruct (ToNumber (get_own parsed (lit "image"))) as [x|e1] eqn:Hi;
    cbn [cbind try_catch].
  2:{ split; [intros _; right; right; eauto 6|reflexivity]. }
  destruct (ToString (get_own parsed (lit "topText"))) as [t|e2] eqn:Ht;
    cbn [cbind try_catch].
  2:{ split; [intros _; right; right; eauto 6|reflexivity]. }
  destruct (ToString (get_own parsed (lit "bottomText"))) as [b|e3] eqn:Hb;
    cbn [cbind try_catch].
  2:{ split; [intros _; right; right; eauto 7|reflexivity]. }
  split; [discriminate|].
  intros [[e H] | [H | (p & e & H & H')]].
  - discriminate.
  - injection H as ->. discriminate.
  - injection H as <-. rewrite Hi, Ht, Hb in H'.
    destruct H' as [H'|[H'|H']]; discriminate.
Qed.

End CaptionCleaning.

(** * A caption as the prompt asks for it *)

Module LayoutFacts.
Import StringFacts JsonFacts CleaningFacts.

Lemma json_ws_whitespace (c : code_unit) :
  is_json_ws c = true -> is_whitespace c = true.
Proof.
  unfold is_json_ws. intros H.
  repeat (apply orb_true_iff in H as [H|H]);
    apply N.eqb_eq in H; subst c; reflexivity.
Qed.

Lemma json_ws_not_backtick (c : code_unit) :
  is_json_ws c = true -> (c =? backtick) = false.
Proof.
  intros H. rewrite N.eqb_sym.
  now apply whitespace_not_backtick, json_ws_whitespace.
Qed.

Lemma skip_ws_app (ws s : jsstring) :
  forallb is_json_ws ws = true -> skip_ws (ws ++ s) = skip_ws s.
Proof.
  induction ws as [|w ws IH]; [reflexivity|].
  cbn [forallb app skip_ws]. intros H. apply andb_true_iff in H as [Hw Hws].
  rewrite Hw. now apply IH.
Qed.

Lemma parse_value_ws (f : nat) (ws s : jsstring) :
  forallb is_json_ws ws = true ->
  parse_value (S f) (ws ++ s) = parse_value (S f) s.
Proof. intros H. cbn [parse_value]. now rewrite (skip_ws_app ws s H). Qed.

Lemma parse_members_ws (f : nat) (ws s : jsstring) :
  forallb is_json_ws ws = true ->
  parse_members (S f) (ws ++ s) = parse_members (S f) s.
Proof. intros H. cbn [parse_members]. now rewrite (skip_ws_app ws s H). Qed.

Lemma fence_scan_ws (ws t : jsstring) :
  forallb is_json_ws ws = true -> fence_scan 0 (ws ++ t) = fence_scan 0 t.
Proof.
  induction ws as [|w ws IH]; [reflexivity|].
  cbn [forallb app fence_scan]. intros H. apply andb_true_iff in H as [Hw Hws].
  rewrite (json_ws_not_backtick w Hw). now apply IH.
Qed.

Lemma trim_braces (m : jsstring) : trim (123 :: m ++ [125]) = 123 :: m ++ [125].
Proof.
  unfold trim. rewrite trim_start_head by reflexivity.
  change (123 :: m ++ [125]) with ((123 :: m) ++ [125]).
  now apply trim_end_last.
Qed.

Section Pieces.

Variables (open colon comma close : jsstring) (c : MemeCaption).
Hypothesis Hopen : forallb is_json_ws open = true.
Hypothesis Hcolon : forallb is_json_ws colon = true.
Hypothesis Hcomma : forallb is_json_ws comma = true.
Hypothesis Hclose : forallb is_json_ws close = true.
Hypothesis Hvalid : valid_caption c = true.
Hypothesis Hzero : is_negative_zero (image c) = false.

Lemma layout_braces :
  exists m, layout_caption open colon comma close c = 123 :: m ++ [125].
Proof.
  unfold layout_caption. change (lit "{") with [123]. change (lit "}") with [125].
  eexists. cbn [app]. f_equal. rewrite !app_assoc. reflexivity.
Qed.

Lemma layout_parses :
  JSON_parse (layout_caption open colon comma close c) = Return (caption_value c).
Proof.
  pose proof Hvalid as Hv. unfold valid_caption in Hv.
  apply andb_true_iff in Hv as [Hf Hc].
  unfold JSON_parse.
  assert (Hfuel : exists f, fuel_for (layout_caption open colon comma close c)
                            = (5 + f)%nat).
  { exists (fuel_for (layout_caption open colon comma close c) - 5)%nat.
    unfold fuel_for, layout_caption, QuoteJSONString.
    rewrite !length_app. simpl. lia. }
  destruct Hfuel as [f ->].
  unfold layout_caption.
  change (lit "{") with [123]. change (lit ":") with [58].
  change (lit ",") with [44]. change (lit "}") with [125].
  cbn [app Nat.add].
  assert (Hobj : forall g r,
    parse_value (S g) (123 :: open ++ QuoteJSONString (lit "image") ++ r)
    = match parse_members g (QuoteJSONString (lit "image") ++ r) with
      | Parsed ms rest => Parsed (VObject ms) rest
      | Malformed => Malformed
      | OutOfFuel => OutOfFuel
      end).
  { intros g r. cbn [parse_value skip_ws].
    change (is_json_ws 123) with false. cbv iota.
    change (123 =? 123) with true. cbv iota.
    rewrite (skip_ws_app open _ Hopen). reflexivity. }
  rewrite Hobj, parse_members_quoted.
  rewrite (parse_value_ws _ colon _ Hcolon), parse_value_number by assumption.
  cbn [skip_ws]. change (is_json_ws 44) with false. cbv iota.
  change (44 =? 44) with true. cbv iota.
  rewrite (parse_members_ws _ comma _ Hcomma), parse_members_quoted.
  rewrite (parse_value_ws _ colon _ Hcolon), parse_value_quoted.
  cbn [skip_ws]. change (is_json_ws 44) with false. cbv iota.
  change (44 =? 44) with true. cbv iota.
  rewrite (parse_members_ws _ comma _ Hcomma), parse_members_quoted.
  rewrite (parse_value_ws _ colon _ Hcolon), parse_value_quoted.
  rewrite (skip_ws_app close _ Hclose). reflexivity.
Qed.

Hypothesis Htop : contains fence (topText c) = false.
Hypothesis Hbottom : contains fence (bottomText c) = false.

Lemma layout_no_fence :
  contains fence (layout_caption open colon comma close c) = false.
Proof.
  pose proof Hvalid as Hv. unfold valid_caption in Hv.
  apply andb_true_iff in Hv as [Hf Hc].
  apply fence_scan_absent. unfold layout_caption.
  change (lit "{") with [123]. change (lit ":") with [58].
  change (lit ",") with [44]. change (lit "}") with [125].
  assert (Hnum : forall t, fence_scan 0 (stringify_number (image c) ++ 44 :: t)
                           = fence_scan 0 t).
  { intros t.
    change (stringify_number (image c) ++ 44 :: t)
      with (stringify_number (image c) ++ [44] ++ t).
    rewrite app_assoc. apply fence_scan_no_backtick.
    - destruct (stringify_number (image c)); discriminate.
    - rewrite no_backtick_app, andb_true_r. unfold stringify_number.
      rewrite Hf. now apply Number_toString_no_backtick. }
  cbn [app fence_scan]. change (123 =? backtick) with false. cbv iota.
  rewrite (fence_scan_ws open _ Hopen), fence_scan_quoted by reflexivity.
  cbn [app fence_scan]. change (58 =? backtick) with false. cbv iota.
  rewrite (fence_scan_ws colon _ Hcolon), Hnum.
  rewrite (fence_scan_ws comma _ Hcomma), fence_scan_quoted by reflexivity.
  cbn [app fence_scan]. change (58 =? backtick) with false. cbv iota.
  rewrite (fence_scan_ws colon _ Hcolon), fence_scan_quoted by exact Htop.
  cbn [app fence_scan]. change (44 =? backtick) with false. cbv iota.
  rewrite (fence_scan_ws comma _ Hcomma), fence_scan_quoted by reflexivity.
  cbn [app fence_scan]. change (58 =? backtick) with false. cbv iota.
  rewrite (fence_scan_ws colon _ Hcolon), fence_scan_quoted by exact Hbottom.
  rewrite (fence_scan_ws close _ Hclose). discriminate.
Qed.

Lemma layout_cleaned :
  clean_caption (VString (layout_caption open colon comma close c))
  = Return (layout_caption open colon comma close c).
Proof.
  rewrite (clean_caption_text _ layout_no_fence).
  destruct layout_braces as [m ->]. now rewrite trim_braces.
Qed.

End Pieces.

End LayoutFacts.

Section LaidOutCaption.
Import LayoutFacts.

(** A valid caption written as JSON in the layout that the prompt
    shows, with any white space after the opening brace, the colons and the
    commas and before the closing brace, is parsed back to the caption;
    and so it is when the text comes in a [```json] block.  (As for the
    compact form, the text fields hold no fence and the image is not
    negative zero.) *)
Theorem laid_out_caption_parses (open colon comma close : jsstring)
        (c : MemeCaption) :
  forallb is_json_ws open = true ->
  forallb is_json_ws colon = true ->
  forallb is_json_ws comma = true ->
  forallb is_json_ws close = true ->
  valid_caption c = true ->
  is_negative_zero (image c) = false ->
  contains fence (topText c) = false ->
  contains fence (bottomText c) = false ->
  parseMemeCaption (VString (layout_caption open colon comma close c))
  = Return (Some c)
  /\ parseMemeCaption
       (VString (fence_json ++ [10] ++ layout_caption open colon comma close c
                 ++ [10] ++ fence))
     = Return (Some c).
Proof.
  intros Hopen Hcolon Hcomma Hclose Hvalid Hzero Htop Hbottom.
  pose proof (layout_parses open colon comma close c
                Hopen Hcolon Hcomma Hclose Hvalid Hzero) as Hparse.
  pose proof (layout_cleaned open colon comma close c
                Hopen Hcolon Hcomma Hclose Hvalid Htop Hbottom) as Hclean.
  pose proof (layout_no_fence open colon comma close c
                Hopen Hcolon Hcomma Hclose Hvalid Htop Hbottom) as Hfence.
  assert (Hbare :
    parseMemeCaption (VString (layout_caption open colon comma close c))
    = Return (Some c)).
  { unfold parseMemeCaption, parseMemeCaption_try. rewrite Hclean.
    cbn [cbind]. rewrite Hparse. destruct c as [i t b]. reflexivity. }
  split; [exact Hbare|].
  rewrite <- Hbare. unfold parseMemeCaption, parseMemeCaption_try.
  replace (fence_json ++ [10] ++ layout_caption open colon comma close c
           ++ [10] ++ fence)
    with ([] ++ fence_json ++ [10] ++ layout_caption open colon comma close c
          ++ [10] ++ fence ++ []) by now rewrite app_nil_r.
  rewrite (clean_fenced [] fence_json [10] _ [10] []);
    try reflexivity; try discriminate; [left; reflexivity|exact Hfence].
Qed.

Lemma laid_out_caption_parses_witness :
  parseMemeCaption
    (VString (layout_caption [10; 32; 32] [32] [10; 32; 32] [10]
                Cases.cricket_caption))
  = Return (Some Cases.cricket_caption)
  /\ parseMemeCaption
       (VString (fence_json ++ [10]
                 ++ layout_caption [10; 32; 32] [32] [10; 32; 32] [10]
                      Cases.cricket_caption
                 ++ [10] ++ fence))
     = Return (Some Cases.cricket_caption).
Proof.
  apply (laid_out_caption_parses [10; 32; 32] [32] [10; 32; 32] [10]
           Cases.cricket_caption);
    reflexivity.
Defined.

End LaidOutCaption.

(** * The service methods, one by one *)

(** * The conversion to a USVString *)

Module UsvFacts.

Lemma lead_not_trail (c : code_unit) :
  is_lead_surrogate c = true -> is_trail_surrogate c = false.
Proof.
  unfold is_lead_surrogate, is_trail_surrogate.
  rewrite andb_true_iff, andb_false_iff, !N.leb_le, N.leb_gt. lia.
Qed.

Lemma lead_not_replacement (c : code_unit) :
  is_lead_surrogate c = true -> c <> replacement_character.
Proof.
  unfold is_lead_surrogate, replacement_character.
  rewrite andb_true_iff, !N.leb_le. lia.
Qed.

Lemma trail_not_replacement (c : code_unit) :
  is_trail_surrogate c = true -> c <> replacement_character.
Proof.
  unfold is_trail_surrogate, replacement_character.
  rewrite andb_true_iff, !N.leb_le. lia.
Qed.

(** Induction that follows the conversion: one code unit, or a pair. *)
Lemma jsstring_pair_ind (P : jsstring -> Prop) :
  P [] ->
  (forall c, P [c]) ->
  (forall c d s, P s -> P (d :: s) -> P (c :: d :: s)) ->
  forall s, P s.
Proof.
  intros Hnil Hone Hstep s.
  enough (H : P s /\ forall c, P (c :: s)) by apply H.
  induction s as [|d s [IH1 IH2]]; split; auto.
Qed.

Lemma USVString_other (c : code_unit) (s : jsstring) :
  is_lead_surrogate c = false ->
  USVString (c :: s)
  = (if is_trail_surrogate c then replacement_character else c) :: USVString s.
Proof.
  intros H. cbn [USVString]. rewrite H. now destruct (is_trail_surrogate c).
Qed.

Lemma USVString_lead (c d : code_unit) (s : jsstring) :
  is_lead_surrogate c = true ->
  USVString (c :: d :: s)
  = if is_trail_surrogate d then c :: d :: USVString s
    else replacement_character :: USVString (d :: s).
Proof.
  intros H. destruct (is_trail_surrogate d) eqn:Hd;
    cbn [USVString]; rewrite H, Hd; reflexivity.
Qed.

Lemma isWellFormed_lead (c d : code_unit) (s : jsstring) :
  is_lead_surrogate c = true ->
  isWellFormed (c :: d :: s) = is_trail_surrogate d && isWellFormed s.
Proof. intros H. cbn [isWellFormed]. now rewrite H. Qed.

Lemma isWellFormed_other (c : code_unit) (s : jsstring) :
  is_lead_surrogate c = false ->
  isWellFormed (c :: s) = negb (is_trail_surrogate c) && isWellFormed s.
Proof. intros H. cbn [isWellFormed]. now rewrite H. Qed.

Lemma USVString_length (s : jsstring) :
  List.length (USVString s) = List.length s.
Proof.
  induction s as [|c|c d s IH1 IH2] using jsstring_pair_ind.
  - reflexivity.
  - cbn. now destruct (is_lead_surrogate c), (is_trail_surrogate c).
  - destruct (is_lead_surrogate c) eqn:Hc.
    + rewrite USVString_lead by exact Hc. destruct (is_trail_surrogate d);
        cbn [List.length]; [now rewrite IH1|].
      f_equal. exact IH2.
    + rewrite USVString_other by exact Hc. cbn [List.length]. now rewrite IH2.
Qed.

(** The result of the conversion has no lone surrogate. *)
Lemma USVString_isWellFormed (s : jsstring) :
  isWellFormed (USVString s) = true.
Proof.
  induction s as [|c|c d s IH1 IH2] using jsstring_pair_ind.
  - reflexivity.
  - cbn [USVString].
    destruct (is_lead_surrogate c) eqn:Hc; [reflexivity|].
    destruct (is_trail_surrogate c) eqn:Ht; [reflexivity|].
    cbn. now rewrite Hc, Ht.
  - destruct (is_lead_surrogate c) eqn:Hc.
    + rewrite USVString_lead by exact Hc. destruct (is_trail_surrogate d) eqn:Hd.
      * now rewrite isWellFormed_lead, Hd, IH1.
      * now rewrite isWellFormed_other, IH2.
    + rewrite USVString_other by exact Hc.
      destruct (is_trail_surrogate c) eqn:Ht.
      * now rewrite isWellFormed_other, IH2.
      * now rewrite isWellFormed_other, Ht, IH2.
Qed.

(** The conversion leaves a string as it is exactly when the string is
    well formed. *)
Lemma USVString_fixed (s : jsstring) :
  USVString s = s <-> isWellFormed s = true.
Proof.
  induction s as [|c|c d s IH1 IH2] using jsstring_pair_ind.
  - split; reflexivity.
  - cbn. destruct (is_lead_surrogate c) eqn:Hc.
    { split; [|discriminate]. intros H. injection H as H.
      exfalso. apply (lead_not_replacement _ Hc). symmetry. exact H. }
    destruct (is_trail_surrogate c) eqn:Ht; cbn; split; try reflexivity;
      try discriminate.
    intros H. injection H as H. exfalso. apply (trail_not_replacement _ Ht). symmetry. exact H.
  - destruct (is_lead_surrogate c) eqn:Hc.
    + rewrite USVString_lead, isWellFormed_lead by exact Hc.
      destruct (is_trail_surrogate d) eqn:Hd; cbn [andb].
      * rewrite <- IH1. split; [intros H; now injection H|intros ->; reflexivity].
      * split; [|discriminate]. intros H. injection H as H _.
        exfalso. apply (lead_not_replacement _ Hc). symmetry. exact H.
    + rewrite USVString_other, isWellFormed_other by exact Hc.
      destruct (is_trail_surrogate c) eqn:Ht; cbn [negb andb].
      * split; [|discriminate]. intros H. injection H as H _.
        exfalso. apply (trail_not_replacement _ Ht). symmetry. exact H.
      * rewrite <- IH2. split; [intros H; now injection H|intros ->; reflexivity].
Qed.

(** A lone surrogate is replaced, whichever half it is and wherever it
    stands; a pair is kept. *)
Example USVString_surrogates :
  USVString [104; 55357; 105] = [104; 65533; 105]
  /\ USVString [104; 105; 56832] = [104; 105; 65533]
  /\ USVString [55357; 55357; 56832] = [65533; 55357; 56832]
  /\ USVString [104; 55357; 56832; 105] = [104; 55357; 56832; 105].
Proof. repeat split; reflexivity. Qed.

End UsvFacts.

Module PlainFacts.

Lemma plain_isWellFormed (s : jsstring) :
  Forall (fun c => c < 55296) s -> isWellFormed s = true.
Proof.
  induction 1 as [|c s Hc _ IH]; [reflexivity|].
  cbn [isWellFormed].
  assert (Hl : is_lead_surrogate c = false).
  { unfold is_lead_surrogate. apply andb_false_iff. left. apply N.leb_gt. lia. }
  assert (Ht : is_trail_surrogate c = false).
  { unfold is_trail_surrogate. apply andb_false_iff. left. apply N.leb_gt. lia. }
  now rewrite Hl, Ht, IH.
Qed.

Lemma plain_digits (ds : list N) :
  all_digits ds = true -> Forall (fun c => c < 128) (List.map digit_char ds).
Proof.
  unfold all_digits. induction ds as [|d ds IH]; cbn [forallb List.map];
    [constructor|].
  intros H. apply andb_true_iff in H as [Hd Hds]. constructor; [|now apply IH].
  apply N.ltb_lt in Hd. unfold digit_char. lia.
Qed.

Lemma plain_zeros (n : nat) : Forall (fun c => c < 128) (repeat 48 n).
Proof. induction n; cbn [repeat]; constructor; [lia|assumption]. Qed.

(** The text of a number is made of ASCII characters. *)
Lemma Number_toString_plain (x : number) :
  canonical x = true -> Forall (fun c => c < 128) (Number_toString x).
Proof.
  intros Hc. destruct x as [|neg|neg [|d r] e].
  - vm_compute. repeat constructor.
  - destruct neg; vm_compute; repeat constructor.
  - vm_compute. repeat constructor.
  - destruct (NumberFacts.canonical_digits _ _ _ _ Hc) as (Hall & _).
    pose proof (plain_digits _ Hall) as Hs.
    rewrite NumberFacts.Number_toString_sign. apply Forall_app. split.
    { destruct neg; repeat constructor. }
    unfold Number_toString.
    change (if false then lit "-" else []) with (@nil code_unit).
    cbv zeta. cbn [app].
    destruct ((-5 <=? _)%Z && _).
    + destruct (_ <=? _)%Z.
      * apply Forall_app. split; [exact Hs|apply plain_zeros].
      * destruct (0 <? _)%Z.
        -- apply Forall_app. split; [now apply Forall_take|].
           apply Forall_app. split; [repeat constructor|now apply Forall_drop].
        -- apply Forall_app. split; [repeat constructor|].
           apply Forall_app. split; [apply plain_zeros|exact Hs].
    + assert (Ht : forall y,
                 Forall (fun c => c < 128)
                   (lit "e" ++ (if (y <? 0)%Z then lit "-" else lit "+")
                    ++ N_to_string (Z.to_N (Z.abs y)))).
      { intros y. apply Forall_app. split; [repeat constructor|].
        apply Forall_app. split; [destruct (y <? 0)%Z; repeat constructor|].
        apply plain_digits, NumberFacts.N_digits_all. }
      cbn [List.map] in Hs. inversion Hs as [|c0 s0 Hd Hr]; subst.
      destruct r as [|r0 r].
      * constructor; [exact Hd|apply Ht].
      * constructor; [exact Hd|]. apply Forall_app. split; [repeat constructor|].
        apply Forall_app. split; [exact Hr|apply Ht].
Qed.

Lemma USVString_Number_toString (x : number) :
  canonical x = true -> USVString (Number_toString x) = Number_toString x.
Proof.
  intros Hc. apply UsvFacts.USVString_fixed, plain_isWellFormed.
  pose proof (Number_toString_plain x Hc) as H.
  rewrite Forall_forall in H. apply Forall_forall. intros c Hin.
  specialize (H c Hin). cbn beta in H. lia.
Qed.

End PlainFacts.

Module UpstreamFacts.
Import StringFacts CleaningFacts ServiceFacts.

Lemma get_defined (v : value) (k : jsstring) :
  is_nullish v = false ->
  get v k = Return (get_own v k) /\ get_opt v k = get_own v k.
Proof. intros H. destruct v; try discriminate; split; reflexivity. Qed.

Lemma news_params_string (env : Env) (s : jsstring) :
  news_params env (VString s) = Return (news_query env s).
Proof.
  unfold news_params, news_query, news_base. f_equal.
  destruct (forallb is_whitespace s) eqn:Hb.
  - apply trim_blank in Hb. rewrite Hb. cbn [ToBoolean]. now rewrite app_nil_r.
  - destruct (trim s) eqn:Ht; [|reflexivity].
    apply trim_blank in Ht. congruence.
Qed.

Lemma fetchIndianNews_sends (env : Env) (topic : value) (w : World)
      (params : list (jsstring * jsstring)) :
  news_params env topic = Return params ->
  exists r, fetchIndianNews env topic w = ([GetNews params], r).
Proof.
  intros Hp. unfold fetchIndianNews, bind, lift, fetch, throw, ret. rewrite Hp.
  repeat (break_match; cbn [fst snd app]); eauto.
Qed.

Lemma fetchIndianNews_sent (env : Env) (topic : value) (w : World) :
  (exists e, fetchIndianNews env topic w = ([], Throw e))
  \/ exists p r, fetchIndianNews env topic w = ([GetNews p], r).
Proof.
  destruct (news_params env topic) as [p|e] eqn:Hp.
  - right. exists p. now apply fetchIndianNews_sends.
  - left. exists e. unfold fetchIndianNews, bind, lift. now rewrite Hp.
Qed.

Lemma fetchImgflipTemplates_sent (w : World) :
  exists r, fetchImgflipTemplates w = ([GetMemes], r).
Proof.
  pose proof (fetchImgflipTemplates_trace w) as H.
  destruct (fetchImgflipTemplates w) as [t r]. cbn [fst] in H. subst t. eauto.
Qed.

Lemma generateCaption_sent (env : Env) (t d ids : value) (w : World) :
  (exists e, generateCaption env t d ids w = ([], Throw e))
  \/ exists q r, generateCaption env t d ids w
                 = ([PostGenerateContent (gemini_key env) q], r).
Proof.
  unfold generateCaption, bind, lift, fetch, throw, ret.
  destruct (caption_prompt t d ids) as [q|e]; [right|left; eauto].
  exists q. repeat (break_match; cbn [fst snd app]); eauto.
Qed.

(** [generateMeme] as a function of the body of the answer. *)
Lemma generateMeme_unfold (env : Env) (tid top bot : value) (w : World)
      (params : list (jsstring * jsstring)) :
  render_params env tid top bot = Return params ->
  generateMeme env tid top bot w =
  ([PostCaptionImage params],
   (data <- body_of w (PostCaptionImage params) ;;
    success <- get data (lit "success") ;;
    if negb (ToBoolean success) then
      (message <- ToString (get_own data (lit "error_message")) ;;
       Throw (Error (lit "Imgflip API error: " ++ message)))
    else
      (inner <- get data (lit "data") ;;
       Return (or_else (get_opt inner (lit "url")) VNull)))%C).
Proof.
  intros Hp. unfold generateMeme, body_of, bind, lift, fetch, throw, ret.
  rewrite Hp.
  destruct (w (PostCaptionImage params)) as [res|e]; [|reflexivity].
  cbn [cbind]. destruct (json res) as [data|e]; [|reflexivity].
  cbn [cbind]. destruct (get data (lit "success")) as [success|e]; [|reflexivity].
  cbn [cbind]. destruct (negb (ToBoolean success)).
  - destruct (ToString _); reflexivity.
  - destruct (get data (lit "data")); reflexivity.
Qed.

Lemma generateMeme_sent (env : Env) (c : MemeCaption) (w : World) :
  exists rm, generateMeme env (VNumber (image c)) (VString (topText c))
               (VString (bottomText c)) w
             = ([PostCaptionImage (caption_form env c)], rm).
Proof.
  rewrite (generateMeme_unfold env _ _ _ w (caption_form env c)); eauto.
Qed.

(** What [generateMeme] returns, in terms of the body. *)
Lemma generateMeme_result (env : Env) (tid top bot : value) (w : World)
      (u : value) :
  snd (generateMeme env tid top bot w) = Return u ->
  exists params data,
    fst (generateMeme env tid top bot w) = [PostCaptionImage params]
    /\ body_of w (PostCaptionImage params) = Return data
    /\ ToBoolean (get_own data (lit "success")) = true
    /\ u = or_else (get_opt (get_own data (lit "data")) (lit "url")) VNull.
Proof.
  destruct (render_params env tid top bot) as [params|e] eqn:Hp.
  2:{ unfold generateMeme, bind, lift. rewrite Hp. discriminate. }
  rewrite (generateMeme_unfold _ _ _ _ _ _ Hp). cbn [fst snd].
  destruct (body_of w (PostCaptionImage params)) as [data|e] eqn:Hb;
    [|discriminate].
  cbn [cbind]. destruct (get data (lit "success")) as [success|e] eqn:Hs;
    [|discriminate].
  cbn [cbind]. destruct (ToBoolean success) eqn:Ht; cbn [negb].
  2:{ destruct (ToString _); discriminate. }
  destruct (get data (lit "data")) as [inner|e] eqn:Hi; [|discriminate].
  cbn [cbind]. intros H. injection H as <-.
  assert (Hown : success = get_own data (lit "success")
                 /\ inner = get_own data (lit "data")).
  { destruct data; try discriminate; injection Hs as <-; injection Hi as <-;
      split; reflexivity. }
  destruct Hown as [-> ->]. exists params, data. repeat split; assumption.
Qed.

Lemma or_else_null (v : value) :
  or_else v VNull = VNull \/ ToBoolean (or_else v VNull) = true.
Proof. unfold or_else. destruct (ToBoolean v) eqn:E; auto. Qed.

Lemma generateMeme_null_or_truthy (env : Env) (tid top bot : value) (w : World)
      (u : value) :
  snd (generateMeme env tid top bot w) = Return u ->
  u = VNull \/ ToBoolean u = true.
Proof.
  intros H. destruct (generateMeme_result _ _ _ _ _ _ H)
    as (params & data & _ & _ & _ & ->).
  apply or_else_null.
Qed.

End UpstreamFacts.

Section Services.
Import UpstreamFacts.

(** ** fetchIndianNews *)

(** [fetchIndianNews] with a string as the topic, or without one, sends
    exactly one request: the four fixed parameters, and [q] exactly when
    the topic is not blank.  [q] carries the topic untrimmed, as
    [URLSearchParams] stores it: with U+FFFD in the place of every lone
    surrogate, which is the topic itself exactly when it is well formed. *)
Theorem fetchIndianNews_query (env : Env) (s : jsstring) (w : World) :
  fst (fetchIndianNews env (VString s) w)
  = [GetNews ([ (lit "apikey", env_text env (lit "NEWSDATA_API_KEY"));
                (lit "country", lit "in");
                (lit "language", lit "en"); (lit "size", lit "10") ]
              ++ if forallb is_whitespace s then []
                 else [(lit "q", USVString s)])]
  /\ fst (fetchIndianNews env VUndefined w)
     = [GetNews [ (lit "apikey", env_text env (lit "NEWSDATA_API_KEY"));
                  (lit "country", lit "in");
                  (lit "language", lit "en"); (lit "size", lit "10") ]]
  /\ isWellFormed (USVString s) = true
  /\ (USVString s = s <-> isWellFormed s = true).
Proof.
  split; [|split; [|split]].
  - destruct (fetchIndianNews_sends env (VString s) w _ (news_params_string env s))
      as [r ->].
    reflexivity.
  - destruct (fetchIndianNews_sends env VUndefined w _ (news_params_string env []))
      as [r ->].
    reflexivity.
  - apply UsvFacts.USVString_isWellFormed.
  - apply UsvFacts.USVString_fixed.
Qed.

(** An answer that is not [ok] is reported with its status and reason,
    and its body is not read; an [ok] answer with a list under [results]
    returns that list as it is, whatever its length and its elements; an
    [ok] answer whose body is [null] throws the TypeError of reading
    [results] from it. *)
Theorem fetchIndianNews_outcome (env : Env) (topic : value) (w : World)
        (params : list (jsstring * jsstring)) (res : fetch_response) :
  news_params env topic = Return params ->
  w (GetNews params) = Return res ->
  (ok res = false ->
   fetchIndianNews env topic w
   = ([GetNews params],
      Throw (Error (lit "NewsData API error: " ++ N_to_string (status res)
                    ++ lit " " ++ statusText res))))
  /\ (forall data results,
        ok res = true -> json res = Return data ->
        get_opt data (lit "results") = VArray results ->
        fetchIndianNews env topic w = ([GetNews params], Return results))
  /\ (forall data,
        ok res = true -> json res = Return data -> is_nullish data = true ->
        fetchIndianNews env topic w = ([GetNews params], Throw TypeError)).
Proof.
  intros Hp Hw. unfold fetchIndianNews, bind, lift, fetch, throw, ret.
  rewrite Hp, Hw. split; [|split].
  - intros ->. reflexivity.
  - intros data results -> -> Hres. cbn [negb].
    destruct data; try discriminate; cbn [get get_opt] in *; now rewrite Hres.
  - intros data -> -> Hnull. cbn [negb].
    destruct data; try discriminate; reflexivity.
Qed.

Lemma fetchIndianNews_outcome_witness :
  (ok (Cases.answer 429 (lit "Too Many Requests") VNull) = false ->
   fetchIndianNews Scenario.credentials (VString (lit "cricket"))
     (Cases.answering 429 (lit "Too Many Requests") VNull)
   = ([GetNews Cases.cricket_query],
      Throw (Error (lit "NewsData API error: "
                    ++ N_to_string (status (Cases.answer 429 (lit "Too Many Requests") VNull))
                    ++ lit " "
                    ++ statusText (Cases.answer 429 (lit "Too Many Requests") VNull)))))
  /\ (forall data results,
        ok (Cases.answer 429 (lit "Too Many Requests") VNull) = true ->
        json (Cases.answer 429 (lit "Too Many Requests") VNull) = Return data ->
        get_opt data (lit "results") = VArray results ->
        fetchIndianNews Scenario.credentials (VString (lit "cricket"))
          (Cases.answering 429 (lit "Too Many Requests") VNull)
        = ([GetNews Cases.cricket_query], Return results))
  /\ (forall data,
        ok (Cases.answer 429 (lit "Too Many Requests") VNull) = true ->
        json (Cases.answer 429 (lit "Too Many Requests") VNull) = Return data ->
        is_nullish data = true ->
        fetchIndianNews Scenario.credentials (VString (lit "cricket"))
          (Cases.answering 429 (lit "Too Many Requests") VNull)
        = ([GetNews Cases.cricket_query], Throw TypeError)).
Proof.
  apply (fetchIndianNews_outcome Scenario.credentials (VString (lit "cricket"))
           (Cases.answering 429 (lit "Too Many Requests") VNull)
           Cases.cricket_query
           (Cases.answer 429 (lit "Too Many Requests") VNull));
    vm_compute; reflexivity.
Defined.

(** ** fetchImgflipTemplates *)

(** The three ways [fetchImgflipTemplates] fails on an answer: a status
    that is not [ok], a falsy [success] flag in the body, and a body
    without a list under [data.memes]. *)
Theorem fetchImgflipTemplates_failures (w : World) (res : fetch_response) :
  w GetMemes = Return res ->
  (ok res = false ->
   fetchImgflipTemplates w
   = ([GetMemes],
      Throw (Error (lit "Imgflip templates API error: "
                    ++ N_to_string (status res) ++ lit " " ++ statusText res))))
  /\ (forall payload,
        ok res = true -> json res = Return payload ->
        is_nullish payload = false ->
        ToBoolean (get_own payload (lit "success")) = false ->
        fetchImgflipTemplates w
        = ([GetMemes], Throw (Error (lit "Imgflip API returned success: false"))))
  /\ (forall payload,
        ok res = true -> json res = Return payload ->
        ToBoolean (get_opt payload (lit "success")) = true ->
        (forall memes, get_opt (get_opt payload (lit "data")) (lit "memes")
                       <> VArray memes) ->
        fetchImgflipTemplates w = ([GetMemes], Throw TypeError)).
Proof.
  intros Hw. unfold fetchImgflipTemplates, bind, lift, fetch, throw.
  rewrite Hw. split; [|split].
  - intros ->. reflexivity.
  - intros payload -> -> Hnn Hs. cbn [negb].
    rewrite (proj1 (get_defined _ _ Hnn)). now rewrite Hs.
  - intros payload -> -> Hs Hmemes. cbn [negb].
    assert (Hnn : is_nullish payload = false) by (now destruct payload).
    rewrite (proj2 (get_defined _ _ Hnn)) in Hs.
    assert (Hmemes' : forall memes,
      get_opt (get_own payload (lit "data")) (lit "memes") <> VArray memes).
    { intros memes. rewrite <- (proj2 (get_defined _ (lit "data") Hnn)).
      apply Hmemes. }
    clear Hmemes.
    rewrite !(proj1 (get_defined _ _ Hnn)), Hs. cbn [negb].
    destruct (get_own payload (lit "data")) eqn:Ed; try reflexivity;
      cbn [get get_opt] in *;
      (destruct (get_own _ (lit "memes")) eqn:Em; try reflexivity;
       now destruct (Hmemes' elems)).
Qed.

Lemma fetchImgflipTemplates_failures_witness :
  (ok (Cases.answer 200 (lit "OK") Cases.refused) = false ->
   fetchImgflipTemplates (Cases.answering 200 (lit "OK") Cases.refused)
   = ([GetMemes],
      Throw (Error (lit "Imgflip templates API error: "
                    ++ N_to_string (status (Cases.answer 200 (lit "OK") Cases.refused))
                    ++ lit " "
                    ++ statusText (Cases.answer 200 (lit "OK") Cases.refused)))))
  /\ (forall payload,
        ok (Cases.answer 200 (lit "OK") Cases.refused) = true ->
        json (Cases.answer 200 (lit "OK") Cases.refused) = Return payload ->
        is_nullish payload = false ->
        ToBoolean (get_own payload (lit "success")) = false ->
        fetchImgflipTemplates (Cases.answering 200 (lit "OK") Cases.refused)
        = ([GetMemes], Throw (Error (lit "Imgflip API returned success: false"))))
  /\ (forall payload,
        ok (Cases.answer 200 (lit "OK") Cases.refused) = true ->
        json (Cases.answer 200 (lit "OK") Cases.refused) = Return payload ->
        ToBoolean (get_opt payload (lit "success")) = true ->
        (forall memes, get_opt (get_opt payload (lit "data")) (lit "memes")
                       <> VArray memes) ->
        fetchImgflipTemplates (Cases.answering 200 (lit "OK") Cases.refused)
        = ([GetMemes], Throw TypeError)).
Proof.
  apply (fetchImgflipTemplates_failures
           (Cases.answering 200 (lit "OK") Cases.refused)
           (Cases.answer 200 (lit "OK") Cases.refused)).
  reflexivity.
Defined.

(** ** generateCaption *)

(** An answer that is not [ok] is reported with its status and reason.
    On an [ok] answer [generateCaption] never throws, whatever the body:
    without a truthy text in the first part of the first candidate it
    returns null, otherwise what [parseMemeCaption] returns of the text, which
    is null when the text is not a string. *)
Theorem generateCaption_outcome (env : Env) (title description ids : value)
        (w : World) (prompt : jsstring) (res : fetch_response) :
  caption_prompt title description ids = Return prompt ->
  w (PostGenerateContent (gemini_key env) prompt) = Return res ->
  (ok res = false ->
   generateCaption env title description ids w
   = ([PostGenerateContent (gemini_key env) prompt],
      Throw (Error (lit "Gemini API error: " ++ N_to_string (status res)
                    ++ lit " " ++ statusText res))))
  /\ (forall data,
        ok res = true -> json res = Return data ->
        exists caption,
          generateCaption env title description ids w
          = ([PostGenerateContent (gemini_key env) prompt], Return caption)
          /\ (ToBoolean (candidate_text data) = false -> caption = None)
          /\ (ToBoolean (candidate_text data) = true ->
              parseMemeCaption (candidate_text data) = Return caption)
          /\ ((forall s, candidate_text data <> VString s) -> caption = None)).
Proof.
  intros Hp Hw.
  unfold generateCaption, bind, lift, fetch, throw, ret.
  rewrite Hp, Hw. split; [now intros ->|].
  intros data -> ->. cbn [negb]. cbv zeta.
  destruct (ToBoolean (candidate_text data)) eqn:Hc; cbn [negb].
  - destruct (parseMemeCaption_total (candidate_text data)) as [r Hr].
    exists r. rewrite Hr. repeat split; try discriminate.
    intros Hs. destruct (candidate_text data) eqn:E;
      try (now destruct (Hs s)); cbn in Hr; now injection Hr.
  - exists None. repeat split. discriminate.
Qed.

Lemma generateCaption_outcome_witness :
  (ok (Cases.answer 200 (lit "OK") VNull) = false ->
   generateCaption Scenario.credentials (VString (lit "India wins"))
     (VString (lit "Historic victory")) (VArray [VNumber (Finite false [1] 0)])
     (Cases.answering 200 (lit "OK") VNull)
   = ([PostGenerateContent (gemini_key Scenario.credentials) Cases.cricket_prompt],
      Throw (Error (lit "Gemini API error: "
                    ++ N_to_string (status (Cases.answer 200 (lit "OK") VNull))
                    ++ lit " " ++ statusText (Cases.answer 200 (lit "OK") VNull)))))
  /\ (forall data,
        ok (Cases.answer 200 (lit "OK") VNull) = true ->
        json (Cases.answer 200 (lit "OK") VNull) = Return data ->
        exists caption,
          generateCaption Scenario.credentials (VString (lit "India wins"))
            (VString (lit "Historic victory"))
            (VArray [VNumber (Finite false [1] 0)])
            (Cases.answering 200 (lit "OK") VNull)
          = ([PostGenerateContent (gemini_key Scenario.credentials)
                Cases.cricket_prompt], Return caption)
          /\ (ToBoolean (candidate_text data) = false -> caption = None)
          /\ (ToBoolean (candidate_text data) = true ->
              parseMemeCaption (candidate_text data) = Return caption)
          /\ ((forall s, candidate_text data <> VString s) -> caption = None)).
Proof.
  apply (generateCaption_outcome Scenario.credentials (VString (lit "India wins"))
           (VString (lit "Historic victory"))
           (VArray [VNumber (Finite false [1] 0)])
           (Cases.answering 200 (lit "OK") VNull)
           Cases.cricket_prompt (Cases.answer 200 (lit "OK") VNull));
    vm_compute; reflexivity.
Defined.

(** ** generateMeme *)

(** [generateMeme] never looks at the HTTP status: two upstreams whose
    answers have the same body give the same outcome. *)
Theorem generateMeme_ignores_status (env : Env) (tid top bot : value)
        (w w' : World) :
  (forall rq, body_of w rq = body_of w' rq) ->
  generateMeme env tid top bot w = generateMeme env tid top bot w'.
Proof.
  intros Hsame.
  destruct (render_params env tid top bot) as [params|e] eqn:Hp.
  - rewrite !(generateMeme_unfold _ _ _ _ _ _ Hp). now rewrite Hsame.
  - unfold generateMeme, bind, lift. now rewrite Hp.
Qed.

Lemma generateMeme_ignores_status_witness :
  generateMeme Scenario.credentials (VNumber (Finite false [1] 0))
    (VString (lit "top")) (VString (lit "bottom"))
    (Cases.answering 200 (lit "OK") Scenario.rendered_url)
  = generateMeme Scenario.credentials (VNumber (Finite false [1] 0))
      (VString (lit "top")) (VString (lit "bottom"))
      (Cases.answering 500 (lit "Internal Server Error") Scenario.rendered_url).
Proof.
  apply (generateMeme_ignores_status Scenario.credentials
           (VNumber (Finite false [1] 0)) (VString (lit "top"))
           (VString (lit "bottom"))
           (Cases.answering 200 (lit "OK") Scenario.rendered_url)
           (Cases.answering 500 (lit "Internal Server Error") Scenario.rendered_url)).
  intros rq. reflexivity.
Defined.

(** What [generateMeme] returns is null or truthy, after exactly one
    request whose body has a truthy [success]: it is the [url] of the
    body's [data] when that is truthy, and null otherwise. *)
Theorem generateMeme_returns (env : Env) (tid top bot : value) (w : World)
        (u : value) :
  snd (generateMeme env tid top bot w) = Return u ->
  (u = VNull \/ ToBoolean u = true)
  /\ exists params data,
      fst (generateMeme env tid top bot w) = [PostCaptionImage params]
      /\ body_of w (PostCaptionImage params) = Return data
      /\ ToBoolean (get_own data (lit "success")) = true
      /\ u = or_else (get_opt (get_own data (lit "data")) (lit "url")) VNull.
Proof.
  intros H. split.
  - now apply (generateMeme_null_or_truthy env tid top bot w).
  - now apply generateMeme_result.
Qed.

Lemma generateMeme_returns_witness :
  (VNull = VNull \/ ToBoolean VNull = true)
  /\ exists params data,
      fst (generateMeme Scenario.credentials (VNumber (Finite false [1] 0))
             (VString (lit "top")) (VString (lit "bottom"))
             (Cases.answering 200 (lit "OK") Scenario.rendered_nothing))
      = [PostCaptionImage params]
      /\ body_of (Cases.answering 200 (lit "OK") Scenario.rendered_nothing)
           (PostCaptionImage params) = Return data
      /\ ToBoolean (get_own data (lit "success")) = true
      /\ VNull = or_else (get_opt (get_own data (lit "data")) (lit "url")) VNull.
Proof.
  apply (generateMeme_returns Scenario.credentials (VNumber (Finite false [1] 0))
           (VString (lit "top")) (VString (lit "bottom"))
           (Cases.answering 200 (lit "OK") Scenario.rendered_nothing) VNull).
  vm_compute. reflexivity.
Defined.

(** A body whose [success] flag is falsy is reported with the vendor's
    [error_message], or with [undefined] when there is none, whatever the
    HTTP status. *)
Theorem generateMeme_failure (env : Env) (tid top bot : value) (w : World)
        (params : list (jsstring * jsstring)) (data : value) (message : jsstring) :
  render_params env tid top bot = Return params ->
  body_of w (PostCaptionImage params) = Return data ->
  is_nullish data = false ->
  ToBoolean (get_own data (lit "success")) = false ->
  ToString (get_own data (lit "error_message")) = Return message ->
  generateMeme env tid top bot w
  = ([PostCaptionImage params],
     Throw (Error (lit "Imgflip API error: " ++ message))).
Proof.
  intros Hp Hb Hnn Hs Hm. rewrite (generateMeme_unfold _ _ _ _ _ _ Hp), Hb.
  cbn [cbind]. rewrite (proj1 (get_defined _ _ Hnn)).
  cbn [cbind]. now rewrite Hs, Hm.
Qed.

Lemma generateMeme_failure_witness :
  generateMeme Scenario.credentials (VNumber (Finite false [1] 0))
    (VString (lit "top")) (VString (lit "bottom"))
    (Cases.answering 200 (lit "OK") Cases.refused)
  = ([PostCaptionImage
        [ (lit "template_id", lit "1"); (lit "username", lit "user");
          (lit "password", lit "secret"); (lit "text0", lit "top");
          (lit "text1", lit "bottom") ]],
     Throw (Error (lit "Imgflip API error: " ++ lit "No texts specified"))).
Proof.
  apply (generateMeme_failure Scenario.credentials (VNumber (Finite false [1] 0))
           (VString (lit "top")) (VString (lit "bottom"))
           (Cases.answering 200 (lit "OK") Cases.refused) _ Cases.refused);
    vm_compute; reflexivity.
Defined.

End Services.

(** * The pipelines, step by step *)

Module PipelineFacts.
Import ServiceFacts FlowFacts UpstreamFacts.

(** An article that passes the check is one of the list. *)
Lemma selected_article (news : list value) (key : jsstring) :
  falsy (get_opt (get_own (VArray news) key) (lit "title"))
  || falsy (get_opt (get_own (VArray news) key) (lit "description")) = false ->
  In (get_own (VArray news) key) news
  /\ ToBoolean (get_own (get_own (VArray news) key) (lit "title")) = true
  /\ ToBoolean (get_own (get_own (VArray news) key) (lit "description")) = true.
Proof.
  intros H. apply orb_false_iff in H as [Ht Hd].
  unfold falsy in *. apply negb_false_iff in Ht, Hd.
  assert (Hnn : is_nullish (get_own (VArray news) key) = false).
  { destruct (get_own (VArray news) key); try reflexivity; discriminate. }
  rewrite (proj2 (get_defined _ _ Hnn)) in Ht.
  rewrite (proj2 (get_defined _ _ Hnn)) in Hd.
  repeat split; try assumption.
  cbn [get_own] in *. destruct (array_index key) as [i|].
  - destruct (nth_error news i) eqn:E; [|discriminate].
    now apply nth_error_In in E.
  - destruct (JsString.eqb key (lit "length")); discriminate.
Qed.

Lemma pipeline_ends_from_templates (env : Env) (w : World)
      (p : list (jsstring * jsstring)) (topic : value) (news : list value)
      (article : value) (finish : value -> MemeCaption -> value -> response)
      (rest : MemeCaption -> M value) :
  fetchIndianNews env topic w = ([GetNews p], Return news) ->
  In article news ->
  ToBoolean (get_own article (lit "title")) = true ->
  ToBoolean (get_own article (lit "description")) = true ->
  (forall c, rest c w =
             match generateMeme env (VNumber (image c)) (VString (topText c))
                     (VString (bottomText c)) w with
             | (tm, Return u) =>
                 match finish article c u with
                 | Res200 payload => (tm, Return payload)
                 | Res500 e => (tm, Throw e)
                 end
             | (tm, Throw e) => (tm, Throw e)
             end) ->
  pipeline_end env w finish
    (respond
       (prefixed [GetNews p]
          (bind fetchImgflipTemplates
             (fun templates =>
                bind (generateCaption env (get_own article (lit "title"))
                        (get_own article (lit "description"))
                        (template_ids templates))
                  (fun caption =>
                     match caption with
                     | None => throw (Error (lit "Failed to generate meme caption"))
                     | Some c => rest c
                     end)))) w).
Proof.
  intros Hnews Hin Ht Hd Hrest. rewrite respond_bind.
  destruct (fetchImgflipTemplates_sent w) as [rt Htemplates]. rewrite Htemplates.
  destruct rt as [templates|e]; cbn [app]; [|constructor].
  rewrite respond_bind.
  destruct (generateCaption_sent env (get_own article (lit "title"))
              (get_own article (lit "description")) (template_ids templates) w)
    as [[e Hc]|(q & rc & Hc)]; rewrite Hc; cbn [app]; [constructor|].
  destruct rc as [[c|]|e]; [|rewrite respond_throw; constructor|constructor].
  destruct (generateMeme_sent env c w) as [rm Hm].
  unfold respond, prefixed. rewrite Hrest, Hm.
  destruct rm as [u|e]; [destruct (finish article c u) eqn:Hfinish|];
    cbn [app];
    (eapply (ends_at_render env w finish p q topic news article templates c);
     [eassumption..|]); now rewrite ?Hfinish.
Qed.

Ltac ends := cbn [app]; rewrite ?respond_throw; cbn [app]; constructor.

Lemma generate_news_meme_ends (env : Env) (req : Req) (w : World) :
  pipeline_end env w finish_news (generate_news_meme env req w).
Proof.
  unfold generate_news_meme. rewrite respond_prefixed.
  rewrite respond_bind. cbn [lift].
  destruct (validateEnvVars env) as [[]|e]; [|ends].
  rewrite respond_bind. cbn [lift].
  destruct (get (body req) (lit "topic")) as [t|e]; [|ends].
  cbv zeta. rewrite respond_bind. cbn [lift].
  destruct (get (body req) (lit "articleIndex")) as [i|e]; [|ends].
  rewrite respond_bind. cbn [app].
  destruct (fetchIndianNews_sent env (or_else t (VString [])) w)
    as [[e Hn]|(p & rn & Hn)]; rewrite Hn; [ends|].
  destruct rn as [news|e]; [|ends]. cbn [app].
  destruct (_ =? _)%nat; [ends|].
  rewrite respond_bind. cbn [lift].
  destruct (ToString (or_else i zero)) as [key|e]; [|ends].
  destruct (_ || _) eqn:Harticle; [ends|]. cbn [app].
  destruct (selected_article news key Harticle) as (Hin & Ht & Hd).
  apply (pipeline_ends_from_templates env w p _ news _ finish_news _ Hn Hin Ht Hd).
  intros c. unfold bind, ret.
  destruct (generateMeme env _ _ _ w) as [tm [u|e]]; [|reflexivity].
  cbn. now rewrite app_nil_r.
Qed.

Lemma puch_generate_meme_ends (env : Env) (req : Req) (w : World) :
  pipeline_end env w finish_puch (puch_generate_meme env req w).
Proof.
  unfold puch_generate_meme. rewrite respond_prefixed.
  rewrite respond_bind. cbn [lift].
  destruct (validateEnvVars env) as [[]|e]; [|ends].
  rewrite respond_bind. cbn [lift].
  destruct (get (body req) (lit "topic")) as [t|e]; [|ends].
  cbv zeta. rewrite respond_bind. cbn [lift].
  destruct (get (body req) (lit "articleIndex")) as [i|e]; [|ends].
  set (topic := or_else (or_else t _) _).
  destruct (falsy topic); [ends|].
  rewrite respond_bind. cbn [app].
  destruct (fetchIndianNews_sent env topic w)
    as [[e Hn]|(p & rn & Hn)]; rewrite Hn; [ends|].
  destruct rn as [news|e]; [|ends]. cbn [app].
  destruct (_ =? _)%nat.
  { rewrite respond_bind. cbn [lift]. destruct (ToString topic); ends. }
  rewrite respond_bind. cbn [lift].
  destruct (ToString (or_else i zero)) as [key|e]; [|ends].
  destruct (_ || _) eqn:Harticle; [ends|]. cbn [app].
  destruct (selected_article news key Harticle) as (Hin & Ht & Hd).
  apply (pipeline_ends_from_templates env w p _ news _ finish_puch _ Hn Hin Ht Hd).
  intros c. unfold bind, ret, throw, finish_puch.
  destruct (generateMeme env _ _ _ w) as [tm [u|e]]; [|reflexivity].
  destruct (falsy u); cbn; now rewrite app_nil_r.
Qed.

Lemma pipeline_end_steps (env : Env) (w : World)
      (finish : value -> MemeCaption -> value -> response)
      (run : list request * response) :
  pipeline_end env w finish run ->
  exists n, List.map step_of (fst run) = firstn n pipeline_steps
            /\ (forall payload, snd run = Res200 payload -> n = 4%nat).
Proof.
  intros [e|p e|p e|p q e|p q topic news article templates c rm r _ _ _ _ _ _ _ _].
  - exists 0%nat. split; [reflexivity|discriminate].
  - exists 1%nat. split; [reflexivity|discriminate].
  - exists 2%nat. split; [reflexivity|discriminate].
  - exists 3%nat. split; [reflexivity|discriminate].
  - exists 4%nat. split; reflexivity.
Qed.

(** A run that answers with success went through the four steps, and
    its payload is what [finish] makes of the article, the caption and the
    URL. *)
Lemma pipeline_end_success (env : Env) (w : World)
      (finish : value -> MemeCaption -> value -> response)
      (run : list request * response) (payload : value) :
  pipeline_end env w finish run ->
  snd run = Res200 payload ->
  exists p q topic news article templates c memeUrl,
    fst run = [GetNews p; GetMemes; PostGenerateContent (gemini_key env) q;
               PostCaptionImage (caption_form env c)]
    /\ fetchIndianNews env topic w = ([GetNews p], Return news)
    /\ In article news
    /\ ToBoolean (get_own article (lit "title")) = true
    /\ ToBoolean (get_own article (lit "description")) = true
    /\ fetchImgflipTemplates w = ([GetMemes], Return templates)
    /\ generateCaption env (get_own article (lit "title"))
         (get_own article (lit "description")) (template_ids templates) w
       = ([PostGenerateContent (gemini_key env) q], Return (Some c))
    /\ generateMeme env (VNumber (image c)) (VString (topText c))
         (VString (bottomText c)) w
       = ([PostCaptionImage (caption_form env c)], Return memeUrl)
    /\ (memeUrl = VNull \/ ToBoolean memeUrl = true)
    /\ finish article c memeUrl = Res200 payload.
Proof.
  intros [e|p e|p e|p q e|p q topic news article templates c rm r
                           Hn Hin Ht Hd Htpl Hc Hm Hr]; cbn [fst snd];
    try discriminate.
  intros Hpayload. subst r. destruct rm as [u|e]; [|discriminate].
  exists p, q, topic, news, article, templates, c, u.
  repeat split; try assumption.
  apply (generateMeme_null_or_truthy env (VNumber (image c))
           (VString (topText c)) (VString (bottomText c)) w u).
  now rewrite Hm.
Qed.

(** A render request on record is the form of the caption that the
    caption step returned. *)
Lemma pipeline_end_render (env : Env) (w : World)
      (finish : value -> MemeCaption -> value -> response)
      (run : list request * response) (params : list (jsstring * jsstring)) :
  pipeline_end env w finish run ->
  In (PostCaptionImage params) (fst run) ->
  exists article templates c q,
    snd (fetchImgflipTemplates w) = Return templates
    /\ generateCaption env (get_own article (lit "title"))
         (get_own article (lit "description")) (template_ids templates) w
       = ([PostGenerateContent (gemini_key env) q], Return (Some c))
    /\ params = caption_form env c.
Proof.
  intros [e|p e|p e|p q e|p q topic news article templates c rm r
                           Hn Hin Ht Hd Htpl Hc Hm Hr]; cbn [fst snd In];
    intros H; repeat (destruct H as [H|H]; try discriminate); try contradiction.
  injection H as <-. exists article, templates, c, q.
  rewrite Htpl. repeat split; assumption.
Qed.

End PipelineFacts.

Section PipelineTheorems.
Import PipelineFacts UpstreamFacts.

(** In every run of either pipeline the requests are the first steps of
    news, templates, caption, render, each sent once and in this order; a
    run that answers with success has gone through all four. *)
Theorem pipeline_fail_fast (env : Env) (req : Req) (w : World) :
  (exists n, List.map step_of (fst (generate_news_meme env req w))
             = firstn n pipeline_steps
             /\ (forall payload, snd (generate_news_meme env req w) = Res200 payload
                                 -> n = 4%nat))
  /\ (exists n, List.map step_of (fst (puch_generate_meme env req w))
                = firstn n pipeline_steps
                /\ (forall payload, snd (puch_generate_meme env req w) = Res200 payload
                                    -> n = 4%nat)).
Proof.
  split.
  - apply (pipeline_end_steps env w finish_news), generate_news_meme_ends.
  - apply (pipeline_end_steps env w finish_puch), puch_generate_meme_ends.
Qed.

(** A success of [generate_news_meme] went through the four steps, in
    order; the article of its payload is one of the news list and has a
    truthy title and description; the caption is the one the caption step
    returned and the one the render request carries; [memeUrl] is what the
    render step returned, null or truthy. *)
Theorem generate_news_meme_success (env : Env) (req : Req) (w : World)
        (payload : value) :
  snd (generate_news_meme env req w) = Res200 payload ->
  exists p q topic news article templates c memeUrl,
    fst (generate_news_meme env req w)
    = [GetNews p; GetMemes; PostGenerateContent (gemini_key env) q;
       PostCaptionImage (caption_form env c)]
    /\ fetchIndianNews env topic w = ([GetNews p], Return news)
    /\ In article news
    /\ ToBoolean (get_own article (lit "title")) = true
    /\ ToBoolean (get_own article (lit "description")) = true
    /\ fetchImgflipTemplates w = ([GetMemes], Return templates)
    /\ generateCaption env (get_own article (lit "title"))
         (get_own article (lit "description")) (template_ids templates) w
       = ([PostGenerateContent (gemini_key env) q], Return (Some c))
    /\ generateMeme env (VNumber (image c)) (VString (topText c))
         (VString (bottomText c)) w
       = ([PostCaptionImage (caption_form env c)], Return memeUrl)
    /\ (memeUrl = VNull \/ ToBoolean memeUrl = true)
    /\ payload
       = VObject
           [ (lit "success", VBool true);
             (lit "article",
              VObject [ (lit "title", get_own article (lit "title"));
                        (lit "description", get_own article (lit "description")) ]);
             (lit "caption", caption_value c);
             (lit "memeUrl", memeUrl) ].
Proof.
  intros H.
  destruct (pipeline_end_success env w finish_news _ payload
              (generate_news_meme_ends env req w) H)
    as (p & q & topic & news & article & templates & c & u & H1 & H2 & H3
        & H4 & H5 & H6 & H7 & H8 & H9 & H10).
  exists p, q, topic, news, article, templates, c, u.
  repeat split; try assumption.
  unfold finish_news in H10. now injection H10.
Qed.

Lemma generate_news_meme_success_witness :
  exists p q topic news article templates c memeUrl,
    fst (generate_news_meme Scenario.credentials Scenario.cricket
           (Scenario.world Scenario.caption_text Scenario.rendered_url))
    = [GetNews p; GetMemes;
       PostGenerateContent (gemini_key Scenario.credentials) q;
       PostCaptionImage (caption_form Scenario.credentials c)]
    /\ fetchIndianNews Scenario.credentials topic
         (Scenario.world Scenario.caption_text Scenario.rendered_url)
       = ([GetNews p], Return news)
    /\ In article news
    /\ ToBoolean (get_own article (lit "title")) = true
    /\ ToBoolean (get_own article (lit "description")) = true
    /\ fetchImgflipTemplates
         (Scenario.world Scenario.caption_text Scenario.rendered_url)
       = ([GetMemes], Return templates)
    /\ generateCaption Scenario.credentials (get_own article (lit "title"))
         (get_own article (lit "description")) (template_ids templates)
         (Scenario.world Scenario.caption_text Scenario.rendered_url)
       = ([PostGenerateContent (gemini_key Scenario.credentials) q],
          Return (Some c))
    /\ generateMeme Scenario.credentials (VNumber (image c))
         (VString (topText c)) (VString (bottomText c))
         (Scenario.world Scenario.caption_text Scenario.rendered_url)
       = ([PostCaptionImage (caption_form Scenario.credentials c)],
          Return memeUrl)
    /\ (memeUrl = VNull \/ ToBoolean memeUrl = true)
    /\ Cases.cricket_payload
       = VObject
           [ (lit "success", VBool true);
             (lit "article",
              VObject [ (lit "title", get_own article (lit "title"));
                        (lit "description", get_own article (lit "description")) ]);
             (lit "caption", caption_value c);
             (lit "memeUrl", memeUrl) ].
Proof.
  apply (generate_news_meme_success Scenario.credentials Scenario.cricket
           (Scenario.world Scenario.caption_text Scenario.rendered_url)
           Cases.cricket_payload).
  vm_compute. reflexivity.
Defined.

(** A success of [puch_generate_meme] is the same, with the article's
    [link] (or null) in the payload, and a [memeUrl] that is truthy. *)
Theorem puch_generate_meme_success (env : Env) (req : Req) (w : World)
        (payload : value) :
  snd (puch_generate_meme env req w) = Res200 payload ->
  exists p q topic news article templates c memeUrl,
    fst (puch_generate_meme env req w)
    = [GetNews p; GetMemes; PostGenerateContent (gemini_key env) q;
       PostCaptionImage (caption_form env c)]
    /\ fetchIndianNews env topic w = ([GetNews p], Return news)
    /\ In article news
    /\ ToBoolean (get_own article (lit "title")) = true
    /\ ToBoolean (get_own article (lit "description")) = true
    /\ fetchImgflipTemplates w = ([GetMemes], Return templates)
    /\ generateCaption env (get_own article (lit "title"))
         (get_own article (lit "description")) (template_ids templates) w
       = ([PostGenerateContent (gemini_key env) q], Return (Some c))
    /\ generateMeme env (VNumber (image c)) (VString (topText c))
         (VString (bottomText c)) w
       = ([PostCaptionImage (caption_form env c)], Return memeUrl)
    /\ ToBoolean memeUrl = true
    /\ payload
       = VObject
           [ (lit "success", VBool true);
             (lit "article",
              VObject [ (lit "title", get_own article (lit "title"));
                        (lit "description", get_own article (lit "description"));
                        (lit "link", or_else (get_own article (lit "link")) VNull) ]);
             (lit "caption", caption_value c);
             (lit "memeUrl", memeUrl) ].
Proof.
  intros H.
  destruct (pipeline_end_success env w finish_puch _ payload
              (puch_generate_meme_ends env req w) H)
    as (p & q & topic & news & article & templates & c & u & H1 & H2 & H3
        & H4 & H5 & H6 & H7 & H8 & H9 & H10).
  exists p, q, topic, news, article, templates, c, u.
  unfold finish_puch, falsy in H10.
  destruct (ToBoolean u) eqn:Hu; cbn [negb] in H10; [|discriminate].
  repeat split; try assumption. now injection H10.
Qed.

Lemma puch_generate_meme_success_witness :
  exists p q topic news article templates c memeUrl,
    fst (puch_generate_meme Scenario.credentials Scenario.cricket
           (Scenario.world Scenario.caption_text Scenario.rendered_url))
    = [GetNews p; GetMemes;
       PostGenerateContent (gemini_key Scenario.credentials) q;
       PostCaptionImage (caption_form Scenario.credentials c)]
    /\ fetchIndianNews Scenario.credentials topic
         (Scenario.world Scenario.caption_text Scenario.rendered_url)
       = ([GetNews p], Return news)
    /\ In article news
    /\ ToBoolean (get_own article (lit "title")) = true
    /\ ToBoolean (get_own article (lit "description")) = true
    /\ fetchImgflipTemplates
         (Scenario.world Scenario.caption_text Scenario.rendered_url)
       = ([GetMemes], Return templates)
    /\ generateCaption Scenario.credentials (get_own article (lit "title"))
         (get_own article (lit "description")) (template_ids templates)
         (Scenario.world Scenario.caption_text Scenario.rendered_url)
       = ([PostGenerateContent (gemini_key Scenario.credentials) q],
          Return (Some c))
    /\ generateMeme Scenario.credentials (VNumber (image c))
         (VString (topText c)) (VString (bottomText c))
         (Scenario.world Scenario.caption_text Scenario.rendered_url)
       = ([PostCaptionImage (caption_form Scenario.credentials c)],
          Return memeUrl)
    /\ ToBoolean memeUrl = true
    /\ Cases.cricket_payload_with_link
       = VObject
           [ (lit "success", VBool true);
             (lit "article",
              VObject [ (lit "title", get_own article (lit "title"));
                        (lit "description", get_own article (lit "description"));
                        (lit "link", or_else (get_own article (lit "link")) VNull) ]);
             (lit "caption", caption_value c);
             (lit "memeUrl", memeUrl) ].
Proof.
  apply (puch_generate_meme_success Scenario.credentials Scenario.cricket
           (Scenario.world Scenario.caption_text Scenario.rendered_url)
           Cases.cricket_payload_with_link).
  vm_compute. reflexivity.
Defined.

(** The render request of either pipeline is the form of the caption
    that the caption step returned: its [image], printed, as [template_id],
    whether or not it is one of the template ids the prompt listed, and
    its two texts as [text0] and [text1], each as [URLSearchParams] stores
    it, with U+FFFD in the place of every lone surrogate.  The text of a
    canonical number is sent as it is, and a text field is sent as it is
    exactly when it is well formed. *)
Theorem render_request_is_the_caption (env : Env) (req : Req) (w : World)
        (flow : handler) (params : list (jsstring * jsstring)) :
  flow = generate_news_meme \/ flow = puch_generate_meme ->
  In (PostCaptionImage params) (fst (flow env req w)) ->
  exists article templates c q,
    snd (fetchImgflipTemplates w) = Return templates
    /\ generateCaption env (get_own article (lit "title"))
         (get_own article (lit "description")) (template_ids templates) w
       = ([PostGenerateContent (gemini_key env) q], Return (Some c))
    /\ params
       = [ (lit "template_id", USVString (Number_toString (image c)));
           (lit "username", env_text env (lit "IMGFLIP_USERNAME"));
           (lit "password", env_text env (lit "IMGFLIP_PASSWORD"));
           (lit "text0", USVString (topText c));
           (lit "text1", USVString (bottomText c)) ]
    /\ (canonical (image c) = true ->
        USVString (Number_toString (image c)) = Number_toString (image c))
    /\ (USVString (topText c) = topText c <-> isWellFormed (topText c) = true)
    /\ (USVString (bottomText c) = bottomText c
        <-> isWellFormed (bottomText c) = true).
Proof.
  intros Hflow Hin.
  assert (H : exists article templates c q,
             snd (fetchImgflipTemplates w) = Return templates
             /\ generateCaption env (get_own article (lit "title"))
                  (get_own article (lit "description")) (template_ids templates) w
                = ([PostGenerateContent (gemini_key env) q], Return (Some c))
             /\ params = caption_form env c).
  { destruct Hflow as [-> | ->].
    - apply (pipeline_end_render env w finish_news _ params
               (generate_news_meme_ends env req w) Hin).
    - apply (pipeline_end_render env w finish_puch _ params
               (puch_generate_meme_ends env req w) Hin). }
  destruct H as (article & templates & c & q & Ht & Hc & ->).
  exists article, templates, c, q. repeat split; try assumption.
  - apply PlainFacts.USVString_Number_toString.
  - apply UsvFacts.USVString_fixed.
  - apply UsvFacts.USVString_fixed.
  - apply UsvFacts.USVString_fixed.
  - apply UsvFacts.USVString_fixed.
Qed.

Lemma render_request_is_the_caption_witness :
  exists article templates c q,
    snd (fetchImgflipTemplates Cases.stray_world) = Return templates
    /\ generateCaption Scenario.credentials (get_own article (lit "title"))
         (get_own article (lit "description")) (template_ids templates)
         Cases.stray_world
       = ([PostGenerateContent (gemini_key Scenario.credentials) q],
          Return (Some c))
    /\ [ (lit "template_id", lit "999"); (lit "username", lit "user");
         (lit "password", lit "secret"); (lit "text0", lit "top");
         (lit "text1", lit "bottom") ]
       = [ (lit "template_id", USVString (Number_toString (image c)));
           (lit "username", env_text Scenario.credentials (lit "IMGFLIP_USERNAME"));
           (lit "password", env_text Scenario.credentials (lit "IMGFLIP_PASSWORD"));
           (lit "text0", USVString (topText c));
           (lit "text1", USVString (bottomText c)) ]
    /\ (canonical (image c) = true ->
        USVString (Number_toString (image c)) = Number_toString (image c))
    /\ (USVString (topText c) = topText c <-> isWellFormed (topText c) = true)
    /\ (USVString (bottomText c) = bottomText c
        <-> isWellFormed (bottomText c) = true).
Proof.
  apply (render_request_is_the_caption Scenario.credentials Scenario.cricket
           Cases.stray_world puch_generate_meme).
  - right. reflexivity.
  - vm_compute. right. right. right. left. reflexivity.
Defined.

(** With a truthy [topic] in the body the two pipelines send the same
    requests and end alike: both with an error, or the lenient one with
    its success payload and the strict one with what its last step makes of
    the same article, caption and URL.  So a success of the strict one is
    a success of the lenient one with the same caption and URL, and an
    error of the lenient one is an error of the strict one. *)
Theorem pipelines_agree (env : Env) (req : Req) (w : World) :
  ToBoolean (get_opt (body req) (lit "topic")) = true ->
  fst (generate_news_meme env req w) = fst (puch_generate_meme env req w)
  /\ same_end (snd (generate_news_meme env req w))
              (snd (puch_generate_meme env req w))
  /\ (forall payload',
        snd (puch_generate_meme env req w) = Res200 payload' ->
        exists payload,
          snd (generate_news_meme env req w) = Res200 payload
          /\ get_own payload (lit "caption") = get_own payload' (lit "caption")
          /\ get_own payload (lit "memeUrl") = get_own payload' (lit "memeUrl"))
  /\ (forall e, snd (generate_news_meme env req w) = Res500 e ->
                exists e', snd (puch_generate_meme env req w) = Res500 e').
Proof.
  intros Htopic.
  assert (Hnn : is_nullish (body req) = false)
    by (destruct (body req); try discriminate; reflexivity).
  rewrite (proj2 (get_defined _ _ Hnn)) in Htopic.
  assert (Hor : forall d, or_else (get_own (body req) (lit "topic")) d
                          = get_own (body req) (lit "topic")).
  { intros d. unfold or_else. now rewrite Htopic. }
  assert (Hfalsy : falsy (get_own (body req) (lit "topic")) = false)
    by (unfold falsy; now rewrite Htopic).
  assert (Hsame :
    fst (generate_news_meme env req w) = fst (puch_generate_meme env req w)
    /\ same_end (snd (generate_news_meme env req w))
                (snd (puch_generate_meme env req w))).
  { unfold generate_news_meme, puch_generate_meme, respond, bind, lift, throw, ret.
    rewrite !(proj1 (get_defined _ _ Hnn)). cbv zeta. rewrite !Hor, Hfalsy.
    assert (Herr : forall t e e',
      @fst (list request) response (t, Res500 e) = fst (t, Res500 e')
      /\ same_end (snd (t, Res500 e)) (snd (t, Res500 e'))).
    { intros t e e'. split; [reflexivity|]. left. eauto. }
    destruct (validateEnvVars env) as [[]|e]; [|apply Herr].
    destruct (fetchIndianNews env _ w) as [tn [news|e]]; [|apply Herr].
    destruct (_ =? _)%nat.
    { destruct (ToString _); cbn [app]; rewrite ?app_nil_r; apply Herr. }
    destruct (ToString (or_else _ zero)) as [key|e]; [|cbn [app]; apply Herr].
    destruct (_ || _); [cbn [app]; apply Herr|].
    destruct (fetchImgflipTemplates w) as [tt [templates|e]];
      [|cbn [app]; apply Herr].
    destruct (generateCaption env _ _ _ w) as [tc [[c|]|e]];
      [|cbn [app]; apply Herr..].
    destruct (generateMeme env _ _ _ w) as [tm [u|e]]; [|cbn [app]; apply Herr].
    cbn [app fst snd].
    destruct (falsy u) eqn:Hu; (split; [reflexivity|]); right;
      exists (get_own (VArray news) key), c, u; unfold finish_puch, finish_news;
      rewrite Hu; split; reflexivity. }
  destruct Hsame as [Htrace Hend]. repeat split; try assumption.
  - intros payload' Hp.
    destruct Hend as [(e & e' & _ & He')|(article & c & u & Hn & Hs)];
      [congruence|].
    rewrite Hs in Hp. rewrite Hn. unfold finish_puch in Hp.
    destruct (falsy u); [discriminate|]. injection Hp as <-.
    eexists. split; [reflexivity|]. split; reflexivity.
  - intros e He.
    destruct Hend as [(e0 & e' & _ & He')|(article & c & u & Hn & Hs)];
      [eauto|].
    rewrite Hn in He. discriminate.
Qed.

Lemma pipelines_agree_witness :
  fst (generate_news_meme Scenario.credentials Scenario.cricket
         (Scenario.world Scenario.caption_text Scenario.rendered_nothing))
  = fst (puch_generate_meme Scenario.credentials Scenario.cricket
           (Scenario.world Scenario.caption_text Scenario.rendered_nothing))
  /\ same_end
       (snd (generate_news_meme Scenario.credentials Scenario.cricket
               (Scenario.world Scenario.caption_text Scenario.rendered_nothing)))
       (snd (puch_generate_meme Scenario.credentials Scenario.cricket
               (Scenario.world Scenario.caption_text Scenario.rendered_nothing)))
  /\ (forall payload',
        snd (puch_generate_meme Scenario.credentials Scenario.cricket
               (Scenario.world Scenario.caption_text Scenario.rendered_nothing))
        = Res200 payload' ->
        exists payload,
          snd (generate_news_meme Scenario.credentials Scenario.cricket
                 (Scenario.world Scenario.caption_text Scenario.rendered_nothing))
          = Res200 payload
          /\ get_own payload (lit "caption") = get_own payload' (lit "caption")
          /\ get_own payload (lit "memeUrl") = get_own payload' (lit "memeUrl"))
  /\ (forall e,
        snd (generate_news_meme Scenario.credentials Scenario.cricket
               (Scenario.world Scenario.caption_text Scenario.rendered_nothing))
        = Res500 e ->
        exists e',
          snd (puch_generate_meme Scenario.credentials Scenario.cricket
                 (Scenario.world Scenario.caption_text Scenario.rendered_nothing))
          = Res500 e').
Proof.
  apply (pipelines_agree Scenario.credentials Scenario.cricket
           (Scenario.world Scenario.caption_text Scenario.rendered_nothing)).
  reflexivity.
Defined.

End PipelineTheorems.

(** * What the routes read of a request *)

Module RouteFacts.
Import IntegerFacts UpstreamFacts.

(** The integers below 2^53 are numbers of JavaScript as they are, and
    print as their decimal digits. *)
Lemma safe_integer (n : N) : n < 2 ^ 53 -> n < 10 ^ 21.
Proof. intros H. eapply N.lt_trans; [exact H|reflexivity]. Qed.

(** The key that [news[n]] reads, for a natural number [n]. *)
Lemma index_key (n : nat) :
  N.of_nat n < 10 ^ 21 ->
  ToString (or_else (VNumber (number_of_nat n)) zero)
  = Return (N_to_string (N.of_nat n)).
Proof.
  intros Hlt. unfold or_else, number_of_nat.
  destruct (ToBoolean (VNumber (number_of_N (N.of_nat n)))) eqn:E.
  - cbn [ToString]. now rewrite Number_toString_of_N.
  - destruct n as [|n]; [reflexivity|].
    exfalso. unfold number_of_N, mk_number in E.
    destruct (N_digits_head (N.of_nat (S n)) ltac:(lia)) as (d & r & Hds & Hd).
    rewrite Hds, (NumberFacts.strip_leading_head d r Hd) in E.
    destruct (strip_trailing_head d r Hd) as [r2 Hr2]. rewrite Hr2 in E.
    discriminate.
Qed.

Lemma read_index (news : list value) (n : nat) :
  get_own (VArray news) (N_to_string (N.of_nat n)) = nth n news VUndefined.
Proof.
  cbn [get_own]. rewrite array_index_of_N, Nat2N.id.
  destruct (nth_error news n) eqn:E.
  - now rewrite (nth_error_nth _ _ _ E).
  - apply nth_error_None in E. now rewrite nth_overflow.
Qed.

Lemma project_entry (m : value) (n : N) :
  has_id m n ->
  project_template m
  = Return {| id := number_of_N n; name := get_own m (lit "name") |}.
Proof.
  intros [Hnn Hid]. unfold project_template.
  rewrite !(proj1 (get_defined m _ Hnn)). cbn [cbind].
  destruct Hid as [-> | ->]; cbn [ToNumber cbind].
  - now rewrite StringToNumber_of_N.
  - reflexivity.
Qed.

Lemma project_entries (memes : list value) (ns : list N) :
  Forall2 has_id memes ns ->
  exists templates,
    map_completion project_template memes = Return templates
    /\ List.map id templates = List.map number_of_N ns.
Proof.
  induction 1 as [|m n memes ns Hm _ (ts & Hts & Hids)].
  - exists []. split; reflexivity.
  - exists ({| id := number_of_N n; name := get_own m (lit "name") |} :: ts).
    cbn [map_completion List.map]. rewrite (project_entry m n Hm), Hts, Hids.
    split; reflexivity.
Qed.

Lemma join_ids (ns : list N) :
  Forall (fun n => n < 10 ^ 21) ns ->
  map_completion
    (fun x => match x with
              | VUndefined | VNull => Return []
              | _ => ToString x
              end)
    (List.map (fun n => VNumber (number_of_N n)) ns)
  = Return (List.map N_to_string ns).
Proof.
  induction 1 as [|n ns Hn _ IH]; [reflexivity|].
  cbn [List.map map_completion ToString cbind].
  now rewrite IH, (Number_toString_of_N n Hn).
Qed.

(** What [req.query.topic?.toString() || ""] gives is a string. *)
Lemma query_topic_string (req : Req) (topic : value) :
  query_topic req = Return topic -> exists s, topic = VString s.
Proof.
  unfold query_topic.
  destruct (get (query req) (lit "topic")) as [q|]; [|discriminate].
  cbn [cbind].
  assert (Hor : forall s, exists s', or_else (VString s) (VString []) = VString s').
  { intros [|c s]; cbn; eauto. }
  destruct q; cbn [cbind];
    try (intros H; injection H as <-;
         first [now exists [] | apply Hor]).
  - destruct (ToString (VArray elems)); [|discriminate]. cbn [cbind].
    intros H; injection H as <-. apply Hor.
  - destruct (ToString (VObject members)); [|discriminate]. cbn [cbind].
    intros H; injection H as <-. apply Hor.
Qed.

Lemma respond_prefixed_trace (t0 : list request) (m : M value) (w : World) :
  fst (respond (prefixed t0 m) w) = t0 ++ fst (m w).
Proof. unfold respond, prefixed. now destruct (m w) as [t [a|e]]. Qed.

End RouteFacts.

Section RouteInputs.
Import RouteFacts IntegerFacts UpstreamFacts.

(** ** The article index *)

(** An index beyond the end of a list of news that is not empty is
    answered with "Invalid article" by [generate_news_meme] and with
    "Selected article is missing title/description" by
    [puch_generate_meme], after the news request alone. *)
Theorem article_index_out_of_range (env : Env) (req : Req) (w : World)
        (topic : value) (n : nat) (tn : list request) (news : list value) :
  validateEnvVars env = Return tt ->
  get (body req) (lit "topic") = Return topic ->
  ToBoolean topic = true ->
  get (body req) (lit "articleIndex") = Return (VNumber (number_of_nat n)) ->
  fetchIndianNews env topic w = (tn, Return news) ->
  news <> [] ->
  (List.length news <= n)%nat ->
  N.of_nat n < 2 ^ 53 ->
  generate_news_meme env req w = (tn, Res500 (Error (lit "Invalid article")))
  /\ puch_generate_meme env req w
     = (tn, Res500 (Error (lit "Selected article is missing title/description"))).
Proof.
  intros Henv Ht Htruthy Hi Hnews Hne Hlen Hlt. apply safe_integer in Hlt.
  assert (Hzero : (List.length news =? 0)%nat = false).
  { destruct news; [contradiction|reflexivity]. }
  assert (Htopic : forall d, or_else topic d = topic).
  { intros d. unfold or_else. now rewrite Htruthy. }
  assert (Harticle :
    falsy (get_opt (get_own (VArray news) (N_to_string (N.of_nat n))) (lit "title"))
    || falsy (get_opt (get_own (VArray news) (N_to_string (N.of_nat n)))
                (lit "description")) = true).
  { rewrite read_index, nth_overflow by exact Hlen. reflexivity. }
  split.
  - unfold generate_news_meme, respond, bind, lift, throw.
    rewrite Henv, Ht, Hi. cbv zeta.
    rewrite Htopic, Hnews, Hzero, (index_key n Hlt), Harticle.
    cbn [app]. now rewrite !app_nil_r.
  - unfold puch_generate_meme, respond, bind, lift, throw.
    rewrite Henv, Ht, Hi. cbv zeta. rewrite !Htopic.
    unfold falsy at 1. rewrite Htruthy. cbn [negb].
    rewrite Hnews, Hzero, (index_key n Hlt), Harticle.
    cbn [app]. now rewrite !app_nil_r.
Qed.

Lemma article_index_out_of_range_witness :
  generate_news_meme Scenario.credentials Scenario.cricket_sixth
    (Scenario.world Scenario.caption_text Scenario.rendered_url)
  = ([GetNews Cases.cricket_query], Res500 (Error (lit "Invalid article")))
  /\ puch_generate_meme Scenario.credentials Scenario.cricket_sixth
       (Scenario.world Scenario.caption_text Scenario.rendered_url)
     = ([GetNews Cases.cricket_query],
        Res500 (Error (lit "Selected article is missing title/description"))).
Proof.
  apply (article_index_out_of_range Scenario.credentials Scenario.cricket_sixth
           (Scenario.world Scenario.caption_text Scenario.rendered_url)
           (VString (lit "cricket")) 5 _ [Scenario.article]);
    try (vm_compute; reflexivity).
  - discriminate.
  - cbn [List.length]. lia.
Defined.

(** ** The steps composed *)

(** When each step succeeds, the pipelines answer with what the steps
    returned: with the credentials in place, a truthy topic, the article
    at the index [n] (0 when [articleIndex] is missing or falsy) with a
    truthy title and description, the templates, a caption and a URL, the
    lenient pipeline answers 200 with the article, the caption and the URL
    (null included), and the strict one does when the URL is truthy and
    answers "Failed to create meme image" otherwise; the requests are those
    of the four steps, in order. *)
Theorem pipelines_compose (env : Env) (req : Req) (w : World)
        (topic index article memeUrl : value) (n : nat)
        (news : list value) (templates : list ImgflipTemplate) (c : MemeCaption)
        (t1 t2 t3 t4 : list request) :
  validateEnvVars env = Return tt ->
  get (body req) (lit "topic") = Return topic ->
  ToBoolean topic = true ->
  get (body req) (lit "articleIndex") = Return index ->
  index = VNumber (number_of_nat n) \/ (ToBoolean index = false /\ n = 0%nat) ->
  N.of_nat n < 2 ^ 53 ->
  fetchIndianNews env topic w = (t1, Return news) ->
  nth_error news n = Some article ->
  ToBoolean (get_own article (lit "title")) = true ->
  ToBoolean (get_own article (lit "description")) = true ->
  fetchImgflipTemplates w = (t2, Return templates) ->
  generateCaption env (get_own article (lit "title"))
    (get_own article (lit "description")) (template_ids templates) w
  = (t3, Return (Some c)) ->
  generateMeme env (VNumber (image c)) (VString (topText c))
    (VString (bottomText c)) w
  = (t4, Return memeUrl) ->
  generate_news_meme env req w
  = (t1 ++ t2 ++ t3 ++ t4,
     Res200
       (VObject
          [ (lit "success", VBool true);
            (lit "article",
             VObject [ (lit "title", get_own article (lit "title"));
                       (lit "description", get_own article (lit "description")) ]);
            (lit "caption", caption_value c);
            (lit "memeUrl", memeUrl) ]))
  /\ puch_generate_meme env req w
     = (t1 ++ t2 ++ t3 ++ t4,
        if ToBoolean memeUrl then
          Res200
            (VObject
               [ (lit "success", VBool true);
                 (lit "article",
                  VObject [ (lit "title", get_own article (lit "title"));
                            (lit "description", get_own article (lit "description"));
                            (lit "link", or_else (get_own article (lit "link")) VNull) ]);
                 (lit "caption", caption_value c);
                 (lit "memeUrl", memeUrl) ])
        else Res500 (Error (lit "Failed to create meme image"))).
Proof.
  intros Henv Ht Htruthy Hi Hindex Hlt Hnews Hnth Htitle Hdesc Htpl Hcap Hmeme.
  apply safe_integer in Hlt.
  assert (Hzero : (List.length news =? 0)%nat = false).
  { destruct news; [now destruct n|reflexivity]. }
  assert (Htopic : forall d, or_else topic d = topic).
  { intros d. unfold or_else. now rewrite Htruthy. }
  assert (Hkey : ToString (or_else index zero) = Return (N_to_string (N.of_nat n))).
  { destruct Hindex as [-> | [Hfalse ->]]; [now apply index_key|].
    unfold or_else. now rewrite Hfalse. }
  assert (Harticle : get_own (VArray news) (N_to_string (N.of_nat n)) = article).
  { rewrite read_index. now apply nth_error_nth. }
  assert (Hnn : is_nullish article = false).
  { destruct article; try reflexivity; discriminate. }
  assert (Hcheck :
    falsy (get_opt article (lit "title"))
    || falsy (get_opt article (lit "description")) = false).
  { rewrite !(proj2 (get_defined _ _ Hnn)). unfold falsy.
    now rewrite Htitle, Hdesc. }
  split.
  - unfold generate_news_meme, respond, bind, lift, throw, ret.
    rewrite Henv, Ht, Hi. cbv zeta.
    rewrite Htopic, Hnews, Hzero, Hkey, Harticle, Hcheck, Htpl, Hcap, Hmeme.
    cbn [app]. now rewrite !app_nil_r.
  - unfold puch_generate_meme, respond, bind, lift, throw, ret.
    rewrite Henv, Ht, Hi. cbv zeta. rewrite !Htopic.
    unfold falsy at 1. rewrite Htruthy. cbn [negb].
    rewrite Hnews, Hzero, Hkey, Harticle, Hcheck, Htpl, Hcap, Hmeme.
    unfold falsy. destruct (ToBoolean memeUrl); cbn [negb app];
      now rewrite !app_nil_r.
Qed.

Lemma pipelines_compose_witness :
  generate_news_meme Scenario.credentials Scenario.cricket
    (Scenario.world Scenario.caption_text Scenario.rendered_url)
  = ([GetNews Cases.cricket_query] ++ [GetMemes]
     ++ [PostGenerateContent (lit "gemini-key") Cases.cricket_prompt]
     ++ [PostCaptionImage (caption_form Scenario.credentials Cases.cricket_caption)],
     Res200
       (VObject
          [ (lit "success", VBool true);
            (lit "article",
             VObject [ (lit "title", get_own Scenario.article (lit "title"));
                       (lit "description",
                        get_own Scenario.article (lit "description")) ]);
            (lit "caption", caption_value Cases.cricket_caption);
            (lit "memeUrl", VString (lit "https://i.imgflip.com/abc.jpg")) ]))
  /\ puch_generate_meme Scenario.credentials Scenario.cricket
       (Scenario.world Scenario.caption_text Scenario.rendered_url)
     = ([GetNews Cases.cricket_query] ++ [GetMemes]
        ++ [PostGenerateContent (lit "gemini-key") Cases.cricket_prompt]
        ++ [PostCaptionImage (caption_form Scenario.credentials Cases.cricket_caption)],
        if ToBoolean (VString (lit "https://i.imgflip.com/abc.jpg")) then
          Res200
            (VObject
               [ (lit "success", VBool true);
                 (lit "article",
                  VObject [ (lit "title", get_own Scenario.article (lit "title"));
                            (lit "description",
                             get_own Scenario.article (lit "description"));
                            (lit "link",
                             or_else (get_own Scenario.article (lit "link")) VNull) ]);
                 (lit "caption", caption_value Cases.cricket_caption);
                 (lit "memeUrl", VString (lit "https://i.imgflip.com/abc.jpg")) ])
        else Res500 (Error (lit "Failed to create meme image"))).
Proof.
  apply (pipelines_compose Scenario.credentials Scenario.cricket
           (Scenario.world Scenario.caption_text Scenario.rendered_url)
           (VString (lit "cricket")) VUndefined Scenario.article
           (VString (lit "https://i.imgflip.com/abc.jpg")) 0
           [Scenario.article]
           [{| id := Finite false [1] 0; name := VString (lit "Drake") |}]
           Cases.cricket_caption);
    try (vm_compute; reflexivity).
  right. split; reflexivity.
Defined.

(** ** From the catalog to the prompt *)

(** Template ids that the catalog gives as decimal strings, or as
    numbers, below 2^53, come out of the projection as these numbers, and
    the first hundred are listed in the prompt in their decimal form,
    separated by a comma and a space. *)
Theorem template_ids_reach_prompt (memes : list value) (ns : list N) :
  Forall2 has_id memes ns ->
  Forall (fun n => n < 2 ^ 53) ns ->
  exists templates,
    slice_and_project (VArray memes) = Return templates
    /\ List.map id templates = List.map number_of_N (firstn 100 ns)
    /\ call_join (lit ", ") (template_ids templates)
       = Return (join (lit ", ") (List.map N_to_string (firstn 100 ns))).
Proof.
  intros Hids Hlt.
  destruct (project_entries (firstn 100 memes) (firstn 100 ns))
    as (ts & Hts & Hnum); [now apply Forall2_take|].
  exists ts. cbn [slice_and_project]. repeat split; try assumption.
  unfold call_join, template_ids.
  replace (List.map (fun t => VNumber (id t)) ts)
    with (List.map (fun n => VNumber (number_of_N n)) (firstn 100 ns)).
  2:{ rewrite <- (List.map_map id VNumber), Hnum, List.map_map. reflexivity. }
  rewrite join_ids; [reflexivity|]. apply Forall_take.
  rewrite Forall_forall in *. intros n Hn. now apply safe_integer, Hlt.
Qed.

Lemma template_ids_reach_prompt_witness :
  exists templates,
    slice_and_project (VArray Cases.two_entries) = Return templates
    /\ List.map id templates
       = List.map number_of_N (firstn 100 [61579; 181913649])
    /\ call_join (lit ", ") (template_ids templates)
       = Return (join (lit ", ")
                   (List.map N_to_string (firstn 100 [61579; 181913649]))).
Proof.
  apply (template_ids_reach_prompt Cases.two_entries [61579; 181913649]).
  - constructor; [split; [reflexivity|left; vm_compute; reflexivity]|].
    constructor; [split; [reflexivity|right; vm_compute; reflexivity]|].
    constructor.
  - repeat constructor.
Defined.

(** ** The topic *)

(** The strict pipeline reads of the body the topic, from [topic] or
    else from [params.topic], and the article index, and nothing else. *)
Theorem puch_topic_sources (env : Env) (req req' : Req) (w : World) :
  is_nullish (body req) = false ->
  is_nullish (body req') = false ->
  effective_topic (body req) = effective_topic (body req') ->
  get_own (body req) (lit "articleIndex") = get_own (body req') (lit "articleIndex") ->
  puch_generate_meme env req w = puch_generate_meme env req' w.
Proof.
  intros Hnn Hnn' Htopic Hindex.
  unfold puch_generate_meme, respond, bind, lift.
  rewrite !(proj1 (get_defined _ _ Hnn)), !(proj1 (get_defined _ _ Hnn')).
  cbv zeta. fold (effective_topic (body req)) (effective_topic (body req')).
  now rewrite Htopic, Hindex.
Qed.

Lemma puch_topic_sources_witness :
  puch_generate_meme Scenario.credentials Cases.cricket_in_params
    (Scenario.world Scenario.caption_text Scenario.rendered_url)
  = puch_generate_meme Scenario.credentials Scenario.cricket
      (Scenario.world Scenario.caption_text Scenario.rendered_url).
Proof.
  apply (puch_topic_sources Scenario.credentials Cases.cricket_in_params
           Scenario.cricket
           (Scenario.world Scenario.caption_text Scenario.rendered_url));
    vm_compute; reflexivity.
Defined.

(** A topic that is truthy and not a string (a number, [true], a list,
    an object) has no [trim]: both pipelines answer with the TypeError and
    send nothing. *)
Theorem topic_must_be_string (env : Env) (req : Req) (w : World)
        (topic : value) :
  validateEnvVars env = Return tt ->
  get (body req) (lit "topic") = Return topic ->
  ToBoolean topic = true ->
  (forall s, topic <> VString s) ->
  generate_news_meme env req w = ([], Res500 TypeError)
  /\ puch_generate_meme env req w = ([], Res500 TypeError).
Proof.
  intros Henv Ht Htruthy Hs.
  assert (Hnn : is_nullish (body req) = false)
    by (destruct (body req); try discriminate; reflexivity).
  assert (Htopic : forall d, or_else topic d = topic).
  { intros d. unfold or_else. now rewrite Htruthy. }
  assert (Hnews : fetchIndianNews env topic w = ([], Throw TypeError)).
  { unfold fetchIndianNews, bind, lift, news_params.
    destruct topic; try reflexivity; [discriminate|now destruct (Hs s)]. }
  split.
  - unfold generate_news_meme, respond, bind, lift, throw.
    rewrite Henv, Ht, (proj1 (get_defined _ (lit "articleIndex") Hnn)).
    cbv zeta. now rewrite Htopic, Hnews.
  - unfold puch_generate_meme, respond, bind, lift, throw.
    rewrite Henv, Ht, (proj1 (get_defined _ (lit "articleIndex") Hnn)).
    cbv zeta. rewrite !Htopic. unfold falsy at 1. rewrite Htruthy.
    cbn [negb]. now rewrite Hnews.
Qed.

Lemma topic_must_be_string_witness :
  generate_news_meme Scenario.credentials Cases.numeric_topic
    (Scenario.world Scenario.caption_text Scenario.rendered_url)
  = ([], Res500 TypeError)
  /\ puch_generate_meme Scenario.credentials Cases.numeric_topic
       (Scenario.world Scenario.caption_text Scenario.rendered_url)
     = ([], Res500 TypeError).
Proof.
  apply (topic_must_be_string Scenario.credentials Cases.numeric_topic
           (Scenario.world Scenario.caption_text Scenario.rendered_url)
           (VNumber (Finite false [5] 0)));
    try (vm_compute; reflexivity).
  intros s. discriminate.
Defined.

(** Without a truthy topic in [body.topic] or [body.params.topic] the
    strict pipeline answers "Topic is required" and sends nothing, while
    the lenient one asks for the latest news, with the four fixed
    parameters and no [q]. *)
Theorem missing_topic (env : Env) (req : Req) (w : World) :
  validateEnvVars env = Return tt ->
  is_nullish (body req) = false ->
  ToBoolean (effective_topic (body req)) = false ->
  puch_generate_meme env req w = ([], Res500 (Error (lit "Topic is required")))
  /\ exists rest,
      fst (generate_news_meme env req w)
      = GetNews [ (lit "apikey", env_text env (lit "NEWSDATA_API_KEY"));
                  (lit "country", lit "in");
                  (lit "language", lit "en"); (lit "size", lit "10") ] :: rest.
Proof.
  intros Henv Hnn Htopic. split.
  - unfold puch_generate_meme, respond, bind, lift, throw.
    rewrite Henv, !(proj1 (get_defined _ _ Hnn)). cbv zeta.
    fold (effective_topic (body req)). unfold falsy at 1. now rewrite Htopic.
  - assert (Hbody : ToBoolean (get_own (body req) (lit "topic")) = false).
    { unfold effective_topic, or_else in Htopic.
      destruct (ToBoolean (get_own (body req) (lit "topic"))) eqn:E;
        [|reflexivity].
      rewrite ?E in Htopic. cbv iota in Htopic. congruence. }
    destruct (fetchIndianNews_sends env (VString []) w _ (news_params_string env []))
      as [r Hnews].
    unfold generate_news_meme. rewrite FlowFacts.respond_prefixed.
    rewrite FlowFacts.respond_bind. cbn [lift]. rewrite Henv.
    rewrite FlowFacts.respond_bind. cbn [lift].
    rewrite (proj1 (get_defined _ _ Hnn)). cbv zeta.
    rewrite FlowFacts.respond_bind. cbn [lift].
    rewrite (proj1 (get_defined _ _ Hnn)).
    unfold or_else at 1. rewrite Hbody.
    rewrite FlowFacts.respond_bind, Hnews.
    destruct r as [news|e]; cbn [app fst]; [|eauto].
    rewrite respond_prefixed_trace. cbn [app]. eauto.
Qed.

Lemma missing_topic_witness :
  puch_generate_meme Scenario.credentials Cases.empty_body
    (Scenario.world Scenario.caption_text Scenario.rendered_url)
  = ([], Res500 (Error (lit "Topic is required")))
  /\ exists rest,
      fst (generate_news_meme Scenario.credentials Cases.empty_body
             (Scenario.world Scenario.caption_text Scenario.rendered_url))
      = GetNews [ (lit "apikey", env_text Scenario.credentials (lit "NEWSDATA_API_KEY"));
                  (lit "country", lit "in");
                  (lit "language", lit "en"); (lit "size", lit "10") ] :: rest.
Proof.
  apply (missing_topic Scenario.credentials Cases.empty_body
           (Scenario.world Scenario.caption_text Scenario.rendered_url));
    vm_compute; reflexivity.
Defined.

(** ** The news route *)

(** With the credentials in place, the topic that [/fetch_indian_news]
    makes of the query is a string, so the route always sends the one news
    request: with [q] exactly when that string is not blank, and holding
    that string as [URLSearchParams] stores it. *)
Theorem fetch_indian_news_always_asks (env : Env) (req : Req) (w : World)
        (topic : value) :
  validateEnvVars env = Return tt ->
  query_topic req = Return topic ->
  exists s,
    topic = VString s
    /\ fst (fetch_indian_news env req w)
       = [GetNews ([ (lit "apikey", env_text env (lit "NEWSDATA_API_KEY"));
                     (lit "country", lit "in");
                     (lit "language", lit "en"); (lit "size", lit "10") ]
                   ++ if forallb is_whitespace s then []
                      else [(lit "q", USVString s)])].
Proof.
  intros Henv Hq. destruct (query_topic_string req topic Hq) as [s ->].
  exists s. split; [reflexivity|].
  destruct (fetchIndianNews_sends env (VString s) w _ (news_params_string env s))
    as [r Hnews].
  unfold fetch_indian_news, respond, bind, lift, ret.
  rewrite Henv, Hq, Hnews. now destruct r.
Qed.

Lemma fetch_indian_news_always_asks_witness :
  exists s,
    VString (lit "cricket") = VString s
    /\ fst (fetch_indian_news Scenario.credentials Scenario.cricket
              (Scenario.world Scenario.caption_text Scenario.rendered_url))
       = [GetNews ([ (lit "apikey", env_text Scenario.credentials (lit "NEWSDATA_API_KEY"));
                     (lit "country", lit "in");
                     (lit "language", lit "en"); (lit "size", lit "10") ]
                   ++ if forallb is_whitespace s then []
                      else [(lit "q", USVString s)])].
Proof.
  apply (fetch_indian_news_always_asks Scenario.credentials Scenario.cricket
           (Scenario.world Scenario.caption_text Scenario.rendered_url)
           (VString (lit "cricket")));
    vm_compute; reflexivity.
Defined.

(** ** The caption-only route *)

(** With the credentials in place, [/generate_meme_caption] answers
    "Missing required parameters" and sends nothing when [title],
    [description] or [availableTemplates] is falsy.  With all three truthy,
    a caption step that returns null is answered with success and a null
    caption, where the pipelines answer with an error; and templates that
    are not a list have no [join]: the answer is the TypeError, and
    nothing is sent. *)
Theorem generate_meme_caption_outcomes (env : Env) (req : Req) (w : World)
        (title description ids : value) :
  validateEnvVars env = Return tt ->
  get (body req) (lit "title") = Return title ->
  get (body req) (lit "description") = Return description ->
  get (body req) (lit "availableTemplates") = Return ids ->
  (falsy title || falsy description || falsy ids = true ->
   generate_meme_caption env req w
   = ([], Res500 (Error (lit "Missing required parameters"))))
  /\ (falsy title || falsy description || falsy ids = false ->
      forall t caption,
        generateCaption env title description ids w = (t, Return caption) ->
        generate_meme_caption env req w
        = (t, Res200 (VObject [ (lit "success", VBool true);
                                (lit "caption",
                                 match caption with
                                 | Some c => caption_value c
                                 | None => VNull
                                 end) ])))
  /\ (falsy title || falsy description || falsy ids = false ->
      (forall l, ids <> VArray l) ->
      (exists t, ToString title = Return t) ->
      (exists d, ToString description = Return d) ->
      generate_meme_caption env req w = ([], Res500 TypeError)).
Proof.
  intros Henv H1 H2 H3.
  unfold generate_meme_caption, respond, bind, lift, throw, ret.
  rewrite Henv, H1, H2, H3. split; [|split].
  - intros ->. reflexivity.
  - intros -> t caption ->. cbn [app]. now rewrite app_nil_r.
  - intros -> Hids [t Ht] [d Hd].
    unfold generateCaption, bind, lift, caption_prompt. rewrite Ht, Hd.
    cbn [cbind]. destruct ids; try reflexivity. now destruct (Hids elems).
Qed.

Lemma generate_meme_caption_outcomes_witness :
  (falsy (VString (lit "India wins")) || falsy (VString (lit "Historic victory"))
   || falsy (VString (lit "1, 2")) = true ->
   generate_meme_caption Scenario.credentials
     (Cases.caption_request (VString (lit "1, 2")))
     (Scenario.world VNull Scenario.rendered_url)
   = ([], Res500 (Error (lit "Missing required parameters"))))
  /\ (falsy (VString (lit "India wins")) || falsy (VString (lit "Historic victory"))
      || falsy (VString (lit "1, 2")) = false ->
      forall t caption,
        generateCaption Scenario.credentials (VString (lit "India wins"))
          (VString (lit "Historic victory")) (VString (lit "1, 2"))
          (Scenario.world VNull Scenario.rendered_url)
        = (t, Return caption) ->
        generate_meme_caption Scenario.credentials
          (Cases.caption_request (VString (lit "1, 2")))
          (Scenario.world VNull Scenario.rendered_url)
        = (t, Res200 (VObject [ (lit "success", VBool true);
                                (lit "caption",
                                 match caption with
                                 | Some c => caption_value c
                                 | None => VNull
                                 end) ])))
  /\ (falsy (VString (lit "India wins")) || falsy (VString (lit "Historic victory"))
      || falsy (VString (lit "1, 2")) = false ->
      (forall l, VString (lit "1, 2") <> VArray l) ->
      (exists t, ToString (VString (lit "India wins")) = Return t) ->
      (exists d, ToString (VString (lit "Historic victory")) = Return d) ->
      generate_meme_caption Scenario.credentials
        (Cases.caption_request (VString (lit "1, 2")))
        (Scenario.world VNull Scenario.rendered_url)
      = ([], Res500 TypeError)).
Proof.
  apply (generate_meme_caption_outcomes Scenario.credentials
           (Cases.caption_request (VString (lit "1, 2")))
           (Scenario.world VNull Scenario.rendered_url)
           (VString (lit "India wins")) (VString (lit "Historic victory"))
           (VString (lit "1, 2")));
    vm_compute; reflexivity.
Defined.

(** ** One request at most *)

(** The single-step routes send one request at most, each of its own
    kind: there is no retry and no second call. *)
Theorem single_step_routes_send_once (env : Env) (req : Req) (w : World) :
  (fst (fetch_indian_news env req w) = []
   \/ exists p, fst (fetch_indian_news env req w) = [GetNews p])
  /\ fst (get_meme_templates env req w) = [GetMemes]
  /\ (fst (generate_meme_caption env req w) = []
      \/ exists k q, fst (generate_meme_caption env req w)
                     = [PostGenerateContent k q])
  /\ (fst (create_meme env req w) = []
      \/ exists params, fst (create_meme env req w) = [PostCaptionImage params]).
Proof.
  split; [|split; [|split]].
  - unfold fetch_indian_news, respond, bind, lift, ret.
    destruct (validateEnvVars env) as [[]|]; [|now left].
    destruct (query_topic req) as [topic|]; [|now left].
    destruct (fetchIndianNews_sent env topic w)
      as [[e H]|(p & r & H)]; rewrite H; [now left|right; exists p].
    now destruct r.
  - unfold get_meme_templates, respond, bind, ret.
    destruct (fetchImgflipTemplates_sent w) as [r H]. rewrite H.
    now destruct r.
  - unfold generate_meme_caption, respond, bind, lift, throw, ret.
    destruct (validateEnvVars env) as [[]|]; [|now left].
    destruct (get (body req) (lit "title")) as [t|]; [|now left].
    destruct (get (body req) (lit "description")) as [d|]; [|now left].
    destruct (get (body req) (lit "availableTemplates")) as [ids|]; [|now left].
    destruct (_ || _); [now left|].
    destruct (generateCaption_sent env t d ids w)
      as [[e H]|(q & r & H)]; rewrite H; [now left|right; exists (gemini_key env), q].
    now destruct r.
  - unfold create_meme, respond, bind, lift, throw, ret.
    destruct (validateEnvVars env) as [[]|]; [|now left].
    destruct (get (body req) (lit "templateId")) as [tid|]; [|now left].
    destruct (get (body req) (lit "topText")) as [top|]; [|now left].
    destruct (get (body req) (lit "bottomText")) as [bot|]; [|now left].
    destruct (_ || _); [now left|].
    destruct (ServiceFacts.generateMeme_trace env tid top bot w)
      as [H|(params & _ & H)];
      destruct (generateMeme env tid top bot w) as [tm [u|e]];
      cbn [fst] in H; subst tm; cbn [app fst]; eauto.
Qed.

End RouteInputs.

(** * Credentials and envelopes *)

Section Envelopes.
Import ServiceFacts PipelineFacts UpstreamFacts.

Lemma present_credential (env : Env) (key : jsstring) :
  negb (ToBoolean (env_get env key)) = false ->
  exists s, s <> [] /\ env !! key = Some s /\ env_text env key = s.
Proof.
  unfold env_get, env_text. destruct (env !! key) as [[|c s]|]; try discriminate.
  intros _. exists (c :: s). repeat split. discriminate.
Qed.

(** When the check of the credentials passes, the four variables are
    set and not empty, and they are what the requests carry: the news
    query starts with the news key, the caption call has the
    generative-text key, and the render form has the user name and the
    password; none of them is ever the text [undefined]. *)
Theorem credentials_reach_requests (env : Env) :
  validateEnvVars env = Return tt ->
  exists newsKey geminiKey username password,
    (newsKey <> [] /\ geminiKey <> [] /\ username <> [] /\ password <> [])
    /\ (env !! lit "NEWSDATA_API_KEY" = Some newsKey
        /\ env !! lit "GEMINI_API_KEY" = Some geminiKey
        /\ env !! lit "IMGFLIP_USERNAME" = Some username
        /\ env !! lit "IMGFLIP_PASSWORD" = Some password)
    /\ (forall topic params,
          news_params env topic = Return params ->
          hd_error params = Some (lit "apikey", newsKey))
    /\ gemini_key env = geminiKey
    /\ (forall tid top bot params,
          render_params env tid top bot = Return params ->
          In (lit "username", username) params
          /\ In (lit "password", password) params).
Proof.
  unfold validateEnvVars, missing, required. cbn [List.filter].
  destruct (negb (ToBoolean (env_get env (lit "NEWSDATA_API_KEY")))) eqn:E1;
    [destruct (negb _), (negb _), (negb _); discriminate|].
  destruct (negb (ToBoolean (env_get env (lit "GEMINI_API_KEY")))) eqn:E2;
    [destruct (negb _), (negb _); discriminate|].
  destruct (negb (ToBoolean (env_get env (lit "IMGFLIP_USERNAME")))) eqn:E3;
    [destruct (negb _); discriminate|].
  destruct (negb (ToBoolean (env_get env (lit "IMGFLIP_PASSWORD")))) eqn:E4;
    [discriminate|].
  intros _.
  destruct (present_credential env _ E1) as (a & Ha & Hea & Hta).
  destruct (present_credential env _ E2) as (g & Hg & Heg & Htg).
  destruct (present_credential env _ E3) as (u & Hu & Heu & Htu).
  destruct (present_credential env _ E4) as (p & Hp & Hep & Htp).
  exists a, g, u, p. repeat split; try assumption.
  - intros topic params. unfold news_params. rewrite Hta.
    destruct topic; try discriminate;
      (intros H; injection H as <-); try reflexivity.
    now destruct (trim s).
  - unfold render_params in H.
    destruct (call_toString tid); [|discriminate].
    destruct (ToString top); [|discriminate].
    destruct (ToString bot); [|discriminate].
    cbn [cbind] in H. injection H as <-. rewrite Htu. cbn. auto.
  - unfold render_params in H.
    destruct (call_toString tid); [|discriminate].
    destruct (ToString top); [|discriminate].
    destruct (ToString bot); [|discriminate].
    cbn [cbind] in H. injection H as <-. rewrite Htp. cbn. auto.
Qed.

Lemma credentials_reach_requests_witness :
  exists newsKey geminiKey username password,
    (newsKey <> [] /\ geminiKey <> [] /\ username <> [] /\ password <> [])
    /\ (Scenario.credentials !! lit "NEWSDATA_API_KEY" = Some newsKey
        /\ Scenario.credentials !! lit "GEMINI_API_KEY" = Some geminiKey
        /\ Scenario.credentials !! lit "IMGFLIP_USERNAME" = Some username
        /\ Scenario.credentials !! lit "IMGFLIP_PASSWORD" = Some password)
    /\ (forall topic params,
          news_params Scenario.credentials topic = Return params ->
          hd_error params = Some (lit "apikey", newsKey))
    /\ gemini_key Scenario.credentials = geminiKey
    /\ (forall tid top bot params,
          render_params Scenario.credentials tid top bot = Return params ->
          In (lit "username", username) params
          /\ In (lit "password", password) params).
Proof.
  apply (credentials_reach_requests Scenario.credentials).
  vm_compute. reflexivity.
Defined.

Lemma finish_news_success (article : value) (c : MemeCaption) (u payload : value) :
  finish_news article c u = Res200 payload ->
  get_own payload (lit "success") = VBool true.
Proof. unfold finish_news. intros H. injection H as <-. reflexivity. Qed.

Lemma finish_puch_success (article : value) (c : MemeCaption) (u payload : value) :
  finish_puch article c u = Res200 payload ->
  get_own payload (lit "success") = VBool true.
Proof.
  unfold finish_puch. destruct (falsy u); [discriminate|].
  intros H. injection H as <-. reflexivity.
Qed.

Lemma map_completion_length {A B} (f : A -> completion B) (l : list A) :
  forall ys, map_completion f l = Return ys -> List.length ys = List.length l.
Proof.
  induction l as [|x l IH]; intros ys; cbn [map_completion].
  - intros H. now injection H as <-.
  - destruct (f x); [|discriminate]. cbn [cbind].
    destruct (map_completion f l) as [ys'|]; [|discriminate]. cbn [cbind].
    intros H. injection H as <-. cbn [List.length]. f_equal. now apply IH.
Qed.

Lemma fetchImgflipTemplates_bound (w : World) (t : list request)
      (templates : list ImgflipTemplate) :
  fetchImgflipTemplates w = (t, Return templates) ->
  (List.length templates <= 100)%nat.
Proof.
  unfold fetchImgflipTemplates, bind, fetch, lift, throw.
  destruct (w GetMemes) as [res|]; [|discriminate].
  destruct (ok res); cbn [negb]; [|discriminate].
  destruct (json res) as [payload|]; [|discriminate].
  destruct (get payload (lit "success")) as [success|]; [|discriminate].
  destruct (ToBoolean success); cbn [negb]; [|discriminate].
  destruct (get payload (lit "data")) as [data|]; [|discriminate].
  destruct (get data (lit "memes")) as [memes|]; [|discriminate].
  unfold slice_and_project. destruct memes as [| | | | |l|]; try discriminate.
  destruct (map_completion project_template (firstn 100 l)) as [ts|] eqn:E;
    [|discriminate].
  intros H. injection H as _ <-.
  apply map_completion_length in E. rewrite E, length_firstn. lia.
Qed.

(** Every answer of every route is an error or a payload whose
    [success] is [true].  In a payload of [/fetch_indian_news], [count] is
    the number of [articles]; in one of [/get_meme_templates], [count] is
    the number of [templates], which is 100 at most, and the [id] of each
    is a number. *)
Theorem success_envelope (env : Env) (req : Req) (w : World) :
  Forall (fun route : handler =>
            forall payload,
              snd (route env req w) = Res200 payload ->
              get_own payload (lit "success") = VBool true)
         (get_meme_templates :: credential_routes)
  /\ (forall payload,
        snd (fetch_indian_news env req w) = Res200 payload ->
        exists articles,
          get_own payload (lit "articles") = VArray articles
          /\ get_own payload (lit "count")
             = VNumber (number_of_nat (List.length articles)))
  /\ (forall payload,
        snd (get_meme_templates env req w) = Res200 payload ->
        exists templates,
          get_own payload (lit "templates") = VArray templates
          /\ get_own payload (lit "count")
             = VNumber (number_of_nat (List.length templates))
          /\ (List.length templates <= 100)%nat
          /\ Forall (fun t => exists x, get_own t (lit "id") = VNumber x)
                    templates).
Proof.
  split; [|split].
  - unfold credential_routes. repeat constructor; intros payload.
    + unfold get_meme_templates, respond, bind, ret.
      destruct (fetchImgflipTemplates w) as [t [ts|e]]; cbn [snd];
        [|discriminate].
      intros H. injection H as <-. reflexivity.
    + unfold fetch_indian_news, respond, bind, lift, ret.
      destruct (validateEnvVars env) as [[]|]; [|discriminate].
      destruct (query_topic req) as [topic|]; [|discriminate].
      destruct (fetchIndianNews env topic w) as [t [news|e]]; cbn [snd];
        [|discriminate].
      intros H. injection H as <-. reflexivity.
    + unfold generate_meme_caption, respond, bind, lift, throw, ret.
      destruct (validateEnvVars env) as [[]|]; [|discriminate].
      destruct (get (body req) (lit "title")) as [t|]; [|discriminate].
      destruct (get (body req) (lit "description")) as [d|]; [|discriminate].
      destruct (get (body req) (lit "availableTemplates")) as [ids|];
        [|discriminate].
      destruct (_ || _); [discriminate|].
      destruct (generateCaption env t d ids w) as [tc [caption|e]]; cbn [snd];
        [|discriminate].
      intros H. injection H as <-. reflexivity.
    + unfold create_meme, respond, bind, lift, throw, ret.
      destruct (validateEnvVars env) as [[]|]; [|discriminate].
      destruct (get (body req) (lit "templateId")) as [tid|]; [|discriminate].
      destruct (get (body req) (lit "topText")) as [top|]; [|discriminate].
      destruct (get (body req) (lit "bottomText")) as [bot|]; [|discriminate].
      destruct (_ || _); [discriminate|].
      destruct (generateMeme env tid top bot w) as [tm [u|e]]; cbn [snd];
        [|discriminate].
      intros H. injection H as <-. reflexivity.
    + intros H.
      destruct (pipeline_end_success env w finish_news _ payload
                  (generate_news_meme_ends env req w) H)
        as (p & q & topic & news & article & templates & c & u & Hrest).
      apply (finish_news_success article c u). apply Hrest.
    + intros H.
      destruct (pipeline_end_success env w finish_puch _ payload
                  (puch_generate_meme_ends env req w) H)
        as (p & q & topic & news & article & templates & c & u & Hrest).
      apply (finish_puch_success article c u). apply Hrest.
  - intros payload.
    unfold fetch_indian_news, respond, bind, lift, ret.
    destruct (validateEnvVars env) as [[]|]; [|discriminate].
    destruct (query_topic req) as [topic|]; [|discriminate].
    destruct (fetchIndianNews env topic w) as [t [news|e]]; cbn [snd];
      [|discriminate].
    intros H. injection H as <-. exists news. split; reflexivity.
  - intros payload.
    unfold get_meme_templates, respond, bind, ret.
    destruct (fetchImgflipTemplates w) as [t [ts|e]] eqn:E; cbn [snd];
      [|discriminate].
    intros H. injection H as <-. eexists. split; [reflexivity|].
    rewrite length_map. split; [reflexivity|].
    split; [now apply (fetchImgflipTemplates_bound w t)|].
    apply Forall_map, Forall_forall. intros tpl _. now exists (id tpl).
Qed.

End Envelopes.
